(** * youtube_caption_finder: a shallow embedding and its verified properties

    The development follows the package module by module.

    Definitions:
    - [Py]          the Python values the package computes with: text,
                    exceptions and results, dicts, decoded JSON values;
    - [Channel]     channel.py: the search for the ytInitialData assignment,
                    the brace scan, the channel-id lookup, the caching
                    accessor;
    - [Assignment], [JsonText]  the shape of an assignment and the concrete
                    syntax of JSON text, to state what a page contains;
    - [Bs4], [Video], [Extractor]  the parse tree of a page, video.py and
                    extractor.py;
    - [Sorting], [Filters]  sorting.py and filters.py;
    - [Urllib], [Client]  the library calls of client.py and client.py;
    - [JsonRef], [Pages]  a reference decoder and concrete pages;
    - [Helpers], [FilterExtractor]  helpers.py and the filter options of
                    extractor.py;
    - [FilterPages], [Wording], [MorePages]  more pages and vocabulary.

    Properties: [ChannelFacts], [ExtractorFacts], [FiltersFacts],
    [PagingFacts], [UrlFacts], then [TextFacts], [HelpersFacts],
    [CardFacts], [FilterOptionFacts], [SettingsFacts], [LazyPagingFacts],
    [SearchUrlFacts], [ChannelMoreFacts].

    Text is a list of characters; a character is a code point below 256.
    Library calls whose result is only passed on ([json.loads],
    [requests.get], [session.get]) are parameters. *)

From Stdlib Require Import String Ascii ZArith Lia Bool Arith.
From Stdlib Require Import Decimal DecimalString DecimalZ DecimalN.
From Stdlib Require Import List Permutation.
Import ListNotations.
Local Open Scope list_scope.

(* ================================================================== *)
(** * Python values *)
(* ================================================================== *)

Module Py.

(** A Python [str]. *)
Abbreviation str := (list ascii).

(** Literals are written [lit "text"]. *)
Definition lit (x : string) : str := list_ascii_of_string x.

(** The double-quote character (code point 34). *)
Definition dquote : ascii := Eval cbv in ascii_of_nat 34.
Definition squote : ascii := "'"%char.
Definition backslash : ascii := "\"%char.

(** [jq "a`b`"] writes a double quote for every backtick, to spell documents
    that contain double quotes. *)
Definition jq (x : string) : str :=
  map (fun c => if Ascii.eqb c "`"%char then dquote else c) (lit x).

Fixpoint str_eqb (a b : str) : bool :=
  match a, b with
  | [], [] => true
  | x :: a', y :: b' => Ascii.eqb x y && str_eqb a' b'
  | _, _ => false
  end.

(** [s.startswith(p)] *)
Fixpoint startswith (s p : str) {struct p} : bool :=
  match p, s with
  | [], _ => true
  | x :: p', y :: s' => Ascii.eqb x y && startswith s' p'
  | _ :: _, [] => false
  end.

(** [p in s] for text: [p] occurs as a contiguous run of [s]. *)
Fixpoint contains (s p : str) : bool :=
  startswith s p ||
  match s with
  | [] => false
  | _ :: s' => contains s' p
  end.

(** Whitespace as [str.isspace], [str.split], [str.strip] and the regular
    expression class [\s] see it, on the code points below 256. *)
Definition is_space (c : ascii) : bool :=
  let n := nat_of_ascii c in
  ((9 <=? n) && (n <=? 13)) || ((28 <=? n) && (n <=? 32))
  || (n =? 133) || (n =? 160).

(** Letters as [str.isalpha] sees them, on the code points below 256. *)
Definition is_alpha (c : ascii) : bool :=
  let n := nat_of_ascii c in
  ((65 <=? n) && (n <=? 90)) || ((97 <=? n) && (n <=? 122))
  || (n =? 170) || (n =? 181) || (n =? 186)
  || ((192 <=? n) && (n <=? 214)) || ((216 <=? n) && (n <=? 246))
  || (248 <=? n).

Fixpoint lstrip (s : str) : str :=
  match s with
  | c :: s' => if is_space c then lstrip s' else s
  | [] => []
  end.

(** [s.strip()] *)
Definition strip (s : str) : str := rev (lstrip (rev (lstrip s))).

(** [s.split()]: the runs of characters between whitespace; [cur] holds the
    current run, last character first. *)
Fixpoint split_from (s cur : str) : list str :=
  match s with
  | [] => match cur with [] => [] | _ => [rev cur] end
  | c :: s' =>
      if is_space c then
        match cur with
        | [] => split_from s' []
        | _ => rev cur :: split_from s' []
        end
      else split_from s' (c :: cur)
  end.

Definition split (s : str) : list str := split_from s [].

(** [sep.join(parts)] *)
Fixpoint join (sep : str) (parts : list str) : str :=
  match parts with
  | [] => []
  | [x] => x
  | x :: rest => x ++ sep ++ join sep rest
  end.

(** [str(z)] for an [int]. *)
Definition str_of_Z (z : Z) : str :=
  list_ascii_of_string (NilZero.string_of_int (Z.to_int z)).

(** [s[a:b]] for indices [0 <= a], [0 <= b]. *)
Definition slice (a b : nat) (s : str) : str := firstn (b - a) (skipn a s).

(** Exceptions raised by the package and by the library calls it makes.
    [JSONDecodeError] is the json library's subclass of [ValueError]. *)
Inductive exn :=
| ValueError (msg : str)
| JSONDecodeError
| KeyError (key : str)
| TypeError
| AttributeError
| Exception (msg : str)
| YoutubeCaptionFinderError (msg : str).

Inductive result (A : Type) :=
| Ok (a : A)
| Raise (e : exn).
Arguments Ok {A} a.
Arguments Raise {A} e.

Definition bind {A B} (r : result A) (k : A -> result B) : result B :=
  match r with
  | Ok a => k a
  | Raise e => Raise e
  end.

#[local] Unset Elimination Schemes.

(** What [json.loads] returns: [None], [bool], [int], [float], [str], [list]
    and [dict] (the items of a dict in insertion order, keys distinct). *)
Inductive json :=
| JNull
| JBool (b : bool)
| JInt (z : Z)
| JFloat (repr : str)
| JStr (s : str)
| JArr (xs : list json)
| JObj (items : list (str * json)).

#[local] Set Elimination Schemes.

Fixpoint dict_get {V} (items : list (str * V)) (key : str) : option V :=
  match items with
  | [] => None
  | (k, v) :: rest => if str_eqb k key then Some v else dict_get rest key
  end.

(** [d[key] = v]: the value of an existing key is replaced in place, a new
    key goes to the end. *)
Fixpoint dict_set {V} (items : list (str * V)) (key : str) (v : V)
  : list (str * V) :=
  match items with
  | [] => [(key, v)]
  | (k', v') :: rest =>
      if str_eqb k' key then (k', v) :: rest
      else (k', v') :: dict_set rest key v
  end.

(** [d.update(other)] *)
Definition dict_update {V} (d other : list (str * V)) : list (str * V) :=
  fold_left (fun acc kv => dict_set acc (fst kv) (snd kv)) other d.

(** [obj[key]] with a text key: a dict looks the key up and raises [KeyError]
    when it is missing; every other value raises [TypeError]. *)
Definition getitem (obj : json) (key : str) : result json :=
  match obj with
  | JObj items =>
      match dict_get items key with
      | Some v => Ok v
      | None => Raise (KeyError key)
      end
  | _ => Raise TypeError
  end.

(** [v[k1][k2]...] for the keys [ks]. *)
Fixpoint path (v : json) (ks : list str) : result json :=
  match ks with
  | [] => Ok v
  | k :: ks' => bind (getitem v k) (fun v' => path v' ks')
  end.

(** [o or d] on optional values. *)
Definition or_else {A} (o d : option A) : option A :=
  match o with Some x => Some x | None => d end.

Definition is_none (v : json) : bool :=
  match v with JNull => true | _ => false end.

End Py.
Import Py.

Notation "x <- r ;; k" := (bind r (fun x => k))
  (at level 61, r at next level, right associativity).

(* ================================================================== *)
(** * channel.py *)
(* ================================================================== *)

Module Channel.

(** ** The search pattern

    [(?:window\[\s*['"]ytInitialData['"]\s*\]|ytInitialData)\s*=\s*({)]

    Every matcher consumes a prefix of its argument and returns what is
    left.  [\s*] is greedy and is always followed by a character that is
    not whitespace, so giving characters back can never help. *)

Fixpoint skip_spaces (s : str) : str :=
  match s with
  | c :: s' => if is_space c then skip_spaces s' else s
  | [] => []
  end.

Fixpoint expect (p s : str) : option str :=
  match p, s with
  | [], _ => Some s
  | x :: p', y :: s' => if Ascii.eqb x y then expect p' s' else None
  | _ :: _, [] => None
  end.

Definition is_quote (c : ascii) : bool :=
  Ascii.eqb c dquote || Ascii.eqb c squote.

Definition expect_quote (s : str) : option str :=
  match s with
  | c :: s' => if is_quote c then Some s' else None
  | [] => None
  end.

Definition opt_bind {A B} (o : option A) (k : A -> option B) : option B :=
  match o with Some a => k a | None => None end.

(** [window\[\s*['"]ytInitialData['"]\s*\]] *)
Definition match_window_form (s : str) : option str :=
  opt_bind (expect (lit "window[") s) (fun s1 =>
  opt_bind (expect_quote (skip_spaces s1)) (fun s2 =>
  opt_bind (expect (lit "ytInitialData") s2) (fun s3 =>
  opt_bind (expect_quote s3) (fun s4 =>
  expect (lit "]") (skip_spaces s4))))).

(** [ytInitialData] *)
Definition match_bare_form (s : str) : option str :=
  expect (lit "ytInitialData") s.

(** [\s*=\s*({)]: returns the text from the brace of group 1 on. *)
Definition match_assign (s : str) : option str :=
  opt_bind (expect (lit "=") (skip_spaces s)) (fun s1 =>
  let s2 := skip_spaces s1 in
  match s2 with
  | c :: _ => if Ascii.eqb c "{"%char then Some s2 else None
  | [] => None
  end).

(** The whole pattern tried at the start of [t]: the offset of group 1. *)
Definition match_here (t : str) : option nat :=
  match opt_bind (match_window_form t) match_assign with
  | Some g => Some (length t - length g)
  | None =>
      match opt_bind (match_bare_form t) match_assign with
      | Some g => Some (length t - length g)
      | None => None
      end
  end.

(** [re.search(pattern, html)], reduced to [match.start(1)]: the leftmost
    position at which the pattern matches. *)
Fixpoint search_from (i : nat) (t : str) : option nat :=
  match match_here t with
  | Some k => Some (i + k)
  | None =>
      match t with
      | [] => None
      | _ :: t' => search_from (S i) t'
      end
  end.

Definition re_search (html : str) : option nat := search_from 0 html.

(** ** The brace scan *)

Record scanner := mkScanner {
  brace_count : Z;
  in_string : bool;
  string_char : str;
  escape : bool
}.

Definition scanner_init : scanner := mkScanner 0 false [] false.

(** The body of the [for] loop on one character: the updated variables and
    whether the [break] was taken. *)
Definition scan_char (st : scanner) (ch : ascii) : scanner * bool :=
  if in_string st then
    if escape st then
      (mkScanner (brace_count st) true (string_char st) false, false)
    else if Ascii.eqb ch backslash then
      (mkScanner (brace_count st) true (string_char st) true, false)
    else if str_eqb [ch] (string_char st) then
      (mkScanner (brace_count st) false (string_char st) (escape st), false)
    else (st, false)
  else
    if is_quote ch then
      (mkScanner (brace_count st) true [ch] (escape st), false)
    else if Ascii.eqb ch "{"%char then
      (mkScanner (brace_count st + 1) false (string_char st) (escape st), false)
    else if Ascii.eqb ch "}"%char then
      let n := (brace_count st - 1)%Z in
      (mkScanner n false (string_char st) (escape st), (n =? 0)%Z)
    else (st, false).

(** [for i, ch in enumerate(chars, start=i)]: the value of [end_index] when
    the loop is left. *)
Fixpoint scan_loop (chars : str) (i : nat) (st : scanner) (end_index : nat)
  : nat :=
  match chars with
  | [] => end_index
  | ch :: rest =>
      let (st', stop) := scan_char st ch in
      if stop then S i else scan_loop rest (S i) st' end_index
  end.

(** The loop variables after the characters of [t], had no [break] been
    taken. *)
Definition state_after (t : str) : scanner :=
  fold_left (fun st ch => fst (scan_char st ch)) t scanner_init.

(** No closing brace of [text] brings the depth counter back to 0. *)
Definition unclosed (text : str) : Prop :=
  forall n, 0 < n <= length text ->
    brace_count (state_after (firstn n text)) <> 0%Z.

Definition closes_nowhere (text : str) : bool :=
  forallb (fun n => negb (brace_count (state_after (firstn n text)) =? 0)%Z)
          (seq 1 (length text)).

(** The pattern matches at none of the first [k] positions of [html]. *)
Definition no_match_before (k : nat) (html : str) : bool :=
  forallb (fun j => match match_here (skipn j html) with
                    | Some _ => false
                    | None => true
                    end) (seq 0 k).

(** The transport behind [requests.get]: the response depends on the URL
    and on how many requests were issued before. *)
Record response := mkResponse {
  status_code : Z;
  text : str
}.

(** The handle of channel.py's [Channel]; [None] is [JNull]. *)
Record Channel := mkChannel {
  channel_url : str;
  _channel_id : json
}.

Section WithLibraries.

(** [json.loads] *)
Variable json_loads : str -> result json.

Definition extract_yt_initial_data (html : str) : result json :=
  match re_search html with
  | None => Raise (ValueError (lit "ytInitialData not found in HTML"))
  | Some start_index =>
      let end_index :=
        scan_loop (skipn start_index html) start_index scanner_init
                  start_index in
      let json_text := slice start_index end_index html in
      json_loads json_text
  end.

Definition get_channel_id_from_html (html : str) : result json :=
  data <- extract_yt_initial_data html ;;
  match (m <- getitem data (lit "metadata") ;;
         r <- getitem m (lit "channelMetadataRenderer") ;;
         getitem r (lit "externalId")) with
  | Raise (KeyError _) =>
      Raise (ValueError (lit "Channel ID not found in initial data."))
  | other => other
  end.

(** [requests.get], and the number of requests issued so far as the state
    of the outside world. *)
Variable requests_get : nat -> str -> response.

Definition get_channel_id (url : str) (w : nat) : result json * nat :=
  let resp := requests_get w url in
  if negb (status_code resp =? 200)%Z then
    (Raise (Exception (lit "Failed to fetch channel page, status code "
                       ++ str_of_Z (status_code resp))), S w)
  else (get_channel_id_from_html (text resp), S w).

(** The [channel_id] property: the value or exception of one read, the
    handle after it and the world after it. *)
Definition channel_id (self : Channel) (w : nat)
  : result json * Channel * nat :=
  if is_none (_channel_id self) then
    match get_channel_id (channel_url self) w with
    | (Ok v, w') => (Ok v, mkChannel (channel_url self) v, w')
    | (Raise e, w') => (Raise e, self, w')
    end
  else (Ok (_channel_id self), self, w).

(** [n] reads of the property in a row: the results in order, the handle
    and the world at the end. *)
Fixpoint read_times (n : nat) (self : Channel) (w : nat)
  : list (result json) * Channel * nat :=
  match n with
  | 0 => ([], self, w)
  | S n' =>
      let '(r, self', w') := channel_id self w in
      let '(rs, self'', w'') := read_times n' self' w' in
      (r :: rs, self'', w'')
  end.

End WithLibraries.

(** ** Vocabulary for the scan *)

Definition outside (n : Z) (q : str) : scanner := mkScanner n false q false.
Definition inside (n : Z) (q : str) (esc : bool) : scanner :=
  mkScanner n true q esc.

(** The loop reads [t] from state [st], does not break, and is in [st']
    afterwards. *)
Definition steps (t : str) (st st' : scanner) : Prop :=
  forall r i e,
    scan_loop (t ++ r) i st e = scan_loop r (i + length t) st' e.

(** Outside a string, [t] leaves the depth [n] as it found it. *)
Definition passes (t : str) (n : Z) : Prop :=
  forall q, exists q', steps t (outside n q) (outside n q').

(** A character that is neither a quote nor a brace. *)
Definition neutral (c : ascii) : bool :=
  negb (is_quote c) && negb (Ascii.eqb c "{"%char)
  && negb (Ascii.eqb c "}"%char).

End Channel.

(* ================================================================== *)
(** * Documents: the assignment and the JSON text it carries *)
(* ================================================================== *)

(** The text of an assignment up to its opening brace, as the pattern
    describes it: the bracketed form with either quote, or the bare name;
    then optional whitespace, [=], optional whitespace. *)
Module Assignment.

Inductive head :=
| Window (w1 : str) (q1 q2 : ascii) (w2 w3 w4 : str)
| Bare (w3 w4 : str).

Definition render (h : head) : str :=
  match h with
  | Window w1 q1 q2 w2 w3 w4 =>
      lit "window[" ++ w1 ++ q1 :: lit "ytInitialData" ++ q2 :: w2
        ++ lit "]" ++ w3 ++ lit "=" ++ w4
  | Bare w3 w4 => lit "ytInitialData" ++ w3 ++ lit "=" ++ w4
  end.

Definition all_space (w : str) : bool := forallb is_space w.

Definition wf (h : head) : bool :=
  match h with
  | Window w1 q1 q2 w2 w3 w4 =>
      all_space w1 && Channel.is_quote q1 && Channel.is_quote q2
      && all_space w2 && all_space w3 && all_space w4
  | Bare w3 w4 => all_space w3 && all_space w4
  end.

(** [html] holds the assignment [h] right after [pre]. *)
Definition occurs (html pre : str) (h : head) (rest : str) : Prop :=
  wf h = true /\ html = pre ++ render h ++ "{"%char :: rest.

(** No assignment of [html] starts before the end of [pre]. *)
Definition leftmost (html pre : str) : Prop :=
  forall pre' h' rest', occurs html pre' h' rest' -> length pre <= length pre'.

(** [html] holds no assignment at all. *)
Definition absent (html : str) : Prop :=
  forall pre h rest, ~ occurs html pre h rest.

End Assignment.

(** The concrete syntax of the JSON texts [json.loads] accepts: the JSON
    grammar, plus the literals [NaN], [Infinity] and [-Infinity]. *)
Module JsonText.

Inductive wschar := WSpace | WTab | WLf | WCr.

Definition render_wschar (c : wschar) : ascii :=
  match c with
  | WSpace => " "%char
  | WTab => ascii_of_nat 9
  | WLf => ascii_of_nat 10
  | WCr => ascii_of_nat 13
  end.

Definition ws := list wschar.
Definition render_ws (w : ws) : str := map render_wschar w.

Inductive literal := LNull | LTrue | LFalse | LNaN | LInfinity | LNegInfinity.

Definition render_literal (l : literal) : str :=
  match l with
  | LNull => lit "null"
  | LTrue => lit "true"
  | LFalse => lit "false"
  | LNaN => lit "NaN"
  | LInfinity => lit "Infinity"
  | LNegInfinity => lit "-Infinity"
  end.

(** A number: an optional minus sign, an integer part without leading
    zeros, an optional fraction and an optional exponent. *)
Record number := mkNumber {
  minus : bool;
  int_part : N;
  frac_part : option uint;
  exp_part : option (bool * option bool * uint)
    (* capital E?, sign (true is +), digits *)
}.

Definition render_digits (u : uint) : str :=
  list_ascii_of_string (NilEmpty.string_of_uint u).

Definition render_number (n : number) : str :=
  (if minus n then lit "-" else [])
  ++ list_ascii_of_string (NilZero.string_of_uint (N.to_uint (int_part n)))
  ++ match frac_part n with
     | Some u => lit "." ++ render_digits u
     | None => []
     end
  ++ match exp_part n with
     | Some (cap, sign, u) =>
         (if cap then lit "E" else lit "e")
         ++ match sign with
            | Some true => lit "+"
            | Some false => lit "-"
            | None => []
            end
         ++ render_digits u
     | None => []
     end.

Definition nonempty_digits (u : uint) : bool :=
  match u with Nil => false | _ => true end.

Definition wf_number (n : number) : bool :=
  match frac_part n with Some u => nonempty_digits u | None => true end
  && match exp_part n with Some (_, _, u) => nonempty_digits u | None => true end.

(** One item of a string body: a character written as it is, or an escape. *)
Inductive jchar :=
| Plain (c : ascii)
| EscQuote | EscBackslash | EscSlash
| EscB | EscF | EscN | EscR | EscT
| EscU (h1 h2 h3 h4 : ascii).

Definition render_jchar (c : jchar) : str :=
  match c with
  | Plain c => [c]
  | EscQuote => [backslash; dquote]
  | EscBackslash => [backslash; backslash]
  | EscSlash => [backslash; "/"%char]
  | EscB => [backslash; "b"%char]
  | EscF => [backslash; "f"%char]
  | EscN => [backslash; "n"%char]
  | EscR => [backslash; "r"%char]
  | EscT => [backslash; "t"%char]
  | EscU h1 h2 h3 h4 => [backslash; "u"%char; h1; h2; h3; h4]
  end.

Definition is_hex (c : ascii) : bool :=
  let n := nat_of_ascii c in
  ((48 <=? n) && (n <=? 57)) || ((65 <=? n) && (n <=? 70))
  || ((97 <=? n) && (n <=? 102)).

(** A character may stand unescaped unless it is the double quote, the
    backslash or a control character. *)
Definition wf_jchar (c : jchar) : bool :=
  match c with
  | Plain c =>
      negb (Ascii.eqb c dquote) && negb (Ascii.eqb c backslash)
      && (32 <=? nat_of_ascii c)
  | EscU h1 h2 h3 h4 => is_hex h1 && is_hex h2 && is_hex h3 && is_hex h4
  | _ => true
  end.

Definition jstring := list jchar.

Definition render_string (s : jstring) : str :=
  dquote :: concat (map render_jchar s) ++ [dquote].

Inductive value :=
| VLit (l : literal)
| VNum (n : number)
| VStr (s : jstring)
| VArrEmpty (w : ws)
| VArr (es : elements)
| VObjEmpty (w : ws)
| VObj (ms : members)
with elements :=
| EOne (w1 : ws) (v : value) (w2 : ws)
| ECons (w1 : ws) (v : value) (w2 : ws) (rest : elements)
with members :=
| MOne (w1 : ws) (k : jstring) (w2 w3 : ws) (v : value) (w4 : ws)
| MCons (w1 : ws) (k : jstring) (w2 w3 : ws) (v : value) (w4 : ws)
        (rest : members).

Scheme value_mut := Induction for value Sort Prop
with elements_mut := Induction for elements Sort Prop
with members_mut := Induction for members Sort Prop.
Combined Scheme value_mutind from value_mut, elements_mut, members_mut.

Fixpoint render (v : value) : str :=
  match v with
  | VLit l => render_literal l
  | VNum n => render_number n
  | VStr s => render_string s
  | VArrEmpty w => lit "[" ++ render_ws w ++ lit "]"
  | VArr es => lit "[" ++ render_elements es ++ lit "]"
  | VObjEmpty w => lit "{" ++ render_ws w ++ lit "}"
  | VObj ms => lit "{" ++ render_members ms ++ lit "}"
  end
with render_elements (es : elements) : str :=
  match es with
  | EOne w1 v w2 => render_ws w1 ++ render v ++ render_ws w2
  | ECons w1 v w2 rest =>
      render_ws w1 ++ render v ++ render_ws w2 ++ lit ","
        ++ render_elements rest
  end
with render_members (ms : members) : str :=
  match ms with
  | MOne w1 k w2 w3 v w4 =>
      render_ws w1 ++ render_string k ++ render_ws w2 ++ lit ":"
        ++ render_ws w3 ++ render v ++ render_ws w4
  | MCons w1 k w2 w3 v w4 rest =>
      render_ws w1 ++ render_string k ++ render_ws w2 ++ lit ":"
        ++ render_ws w3 ++ render v ++ render_ws w4 ++ lit ","
        ++ render_members rest
  end.

Fixpoint wf (v : value) : bool :=
  match v with
  | VLit _ | VArrEmpty _ | VObjEmpty _ => true
  | VNum n => wf_number n
  | VStr s => forallb wf_jchar s
  | VArr es => wf_elements es
  | VObj ms => wf_members ms
  end
with wf_elements (es : elements) : bool :=
  match es with
  | EOne _ v _ => wf v
  | ECons _ v _ rest => wf v && wf_elements rest
  end
with wf_members (ms : members) : bool :=
  match ms with
  | MOne _ k _ _ v _ => forallb wf_jchar k && wf v
  | MCons _ k _ _ v _ rest => forallb wf_jchar k && wf v && wf_members rest
  end.

Definition is_object (v : value) : bool :=
  match v with VObjEmpty _ | VObj _ => true | _ => false end.

End JsonText.

(* ================================================================== *)
(** * video.py and extractor.py *)
(* ================================================================== *)

(** The tree BeautifulSoup builds with html.parser.  Attribute values are
    kept as text; the class attribute is split into its class names where it
    is matched. *)
Module Bs4.

#[local] Unset Elimination Schemes.

Inductive node :=
| Tag (name : str) (attrs : list (str * str)) (children : list node)
| NavigableString (s : str)
| OtherString (s : str).
  (* comments, and the text of script, style and template elements *)

#[local] Set Elimination Schemes.

(** [tag.descendants]: every node below, in document order. *)
Fixpoint descendants (n : node) : list node :=
  match n with
  | Tag _ _ children =>
      (fix each (cs : list node) : list node :=
         match cs with
         | [] => []
         | c :: cs' => c :: descendants c ++ each cs'
         end) children
  | _ => []
  end.

(** [tag.get(key)] *)
Definition get (n : node) (key : str) : option str :=
  match n with
  | Tag _ attrs _ => dict_get attrs key
  | _ => None
  end.

Definition is_tag (name : str) (n : node) : bool :=
  match n with
  | Tag name' _ _ => str_eqb name' name
  | _ => false
  end.

(** [tag.find_all(name, attrs)]: the descendant tags named [name] that
    pass the attribute test, in document order. *)
Definition find_all (n : node) (name : str) (test : node -> bool)
  : list node :=
  filter (fun d => is_tag name d && test d) (descendants n).

(** [tag.find(name, attrs)] *)
Definition find (n : node) (name : str) (test : node -> bool)
  : option node :=
  hd_error (find_all n name test).

(** [class_=c]: [c] is one of the class names of the tag. *)
Definition has_class (c : str) (n : node) : bool :=
  match get n (lit "class") with
  | Some v => existsb (fun x => str_eqb x c) (split v)
  | None => false
  end.

(** [attr=lambda x: x and test(x)] *)
Definition attr_and (key : str) (test : str -> bool) (n : node) : bool :=
  match get n key with
  | Some [] => false
  | Some v => test v
  | None => false
  end.

(** The strings [get_text(strip=True)] joins: the navigable strings below,
    stripped, the empty ones left out. *)
Definition stripped_strings (n : node) : list str :=
  flat_map (fun d => match d with
                     | NavigableString s =>
                         match strip s with
                         | [] => []
                         | t => [t]
                         end
                     | _ => []
                     end) (descendants n).

(** [tag.get_text(separator, strip=True)] *)
Definition get_text (separator : str) (n : node) : str :=
  join separator (stripped_strings n).

End Bs4.

Module Video.

Record VideoInfo := mkVideoInfo {
  vcard_id : option str;
  idx : option str;
  video_id : option str;
  thumbnail_url : option str;
  video_link : option str;
  title : option str;
  channel : option str;
  views : option str;
  likes : option str;
  upload_date : option str;
  language : option str;
  scroll_text : option str
}.

End Video.

Module Extractor.
Import Bs4 Video.

Definition is_some {A} (o : option A) : bool :=
  match o with Some _ => true | None => false end.

Definition is_card (n : node) : bool :=
  attr_and (lit "id") (fun x => startswith x (lit "vcard")) n.

(** The variables [views], [likes] and [upload_date] of the badge loop. *)
Definition badge_vars : Type := option str * option str * option str.

Definition has_eye (span : node) : bool :=
  is_some (find span (lit "i") (has_class (lit "fa-eye"))).

Definition has_thumbs_up (span : node) : bool :=
  is_some (find span (lit "i") (has_class (lit "fa-thumbs-up"))).

Definition has_letter (t : str) : bool :=
  match t with
  | [] => false
  | _ => existsb is_alpha t
  end.

(** The body of [for span in badges]. *)
Definition badge_step (vars : badge_vars) (span : node) : badge_vars :=
  let '(views, likes, upload_date) := vars in
  if has_eye span then (Some (get_text [] span), likes, upload_date)
  else if has_thumbs_up span then (views, Some (get_text [] span), upload_date)
  else
    let text := get_text [] span in
    if has_letter text then (views, likes, Some text)
    else (views, likes, upload_date).

Definition badges_of (card : node) : list node :=
  find_all card (lit "span") (has_class (lit "badge")).

Definition badge_loop (badges : list node) : badge_vars :=
  fold_left badge_step badges (None, None, None).

(** The body of [for card in cards]: the record of one card. *)
Definition extract_card (card : node) : result VideoInfo :=
  let vcard_id := get card (lit "id") in
  let idx := get card (lit "idx") in
  let fullpage_anchor := find card (lit "a") (has_class (lit "fullpagelnk")) in
  let video_id :=
    match fullpage_anchor with
    | Some a => get a (lit "vid")
    | None => None
    end in
  let thumb_img := find card (lit "img") (has_class (lit "thumb-image")) in
  let thumbnail_url :=
    match thumb_img with
    | Some i => get i (lit "src")
    | None => None
    end in
  let yt_anchor :=
    find card (lit "a")
         (attr_and (lit "href") (fun h => contains h (lit "youtube.com/watch")))
  in
  let video_link :=
    match yt_anchor with
    | Some a => get a (lit "href")
    | None => None
    end in
  let title_div := find card (lit "div") (has_class (lit "d-inline")) in
  let title := option_map (get_text []) title_div in
  let channel_anchor :=
    find card (lit "a")
         (attr_and (lit "href") (fun h => startswith h (lit "/channel/"))) in
  let channel := option_map (get_text []) channel_anchor in
  let '(views, likes, upload_date) := badge_loop (badges_of card) in
  let lang_anchor :=
    find card (lit "a")
         (attr_and (lit "href") (fun h => contains h (lit "/sidebyside"))) in
  let language :=
    match lang_anchor with
    | Some a =>
        match find a (lit "img") (fun _ => true) with
        | Some i => get i (lit "alt")
        | None => None
        end
    | None => None
    end in
  let scroll_box := find card (lit "div") (has_class (lit "scroll-box")) in
  match option_map (get_text [ascii_of_nat 10]) scroll_box with
  | None => Raise AttributeError  (* [None.split()] *)
  | Some scroll_text =>
      let scroll_text := join (lit " ") (split scroll_text) in
      Ok (mkVideoInfo vcard_id idx video_id thumbnail_url video_link title
                      channel views likes upload_date language
                      (Some scroll_text))
  end.

Fixpoint for_cards (cards : list node) (video_list : list VideoInfo)
  : result (list VideoInfo) :=
  match cards with
  | [] => Ok video_list
  | card :: rest =>
      video_info <- extract_card card ;;
      for_cards rest (video_list ++ [video_info])
  end.

(** [VideoInfoExtractor.extract], on the tree of the page. *)
Definition extract (soup : node) : result (list VideoInfo) :=
  let cards := find_all soup (lit "div") is_card in
  for_cards cards [].

(** Any element whose id attribute begins with vcard. *)
Definition has_vcard_id (n : node) : bool :=
  match n with
  | Tag _ _ _ => is_card n
  | _ => false
  end.

Definition doc (top : list node) : node := Tag (lit "[document]") [] top.

Definition has_scroll_box (card : node) : bool :=
  is_some (find card (lit "div") (has_class (lit "scroll-box"))).

(** The last element of a list, if there is one. *)
Fixpoint last_opt {A} (l : list A) : option A :=
  match l with
  | [] => None
  | [x] => Some x
  | _ :: l' => last_opt l'
  end.

(** The three kinds of badges the loop tells apart. *)
Definition is_view_badge (b : node) : bool := has_eye b.
Definition is_like_badge (b : node) : bool :=
  negb (has_eye b) && has_thumbs_up b.
Definition is_date_badge (b : node) : bool :=
  negb (has_eye b) && negb (has_thumbs_up b) && has_letter (get_text [] b).

Definition texts_of (keep : node -> bool) (badges : list node) : list str :=
  map (get_text []) (filter keep badges).

End Extractor.

(* ================================================================== *)
(** * sorting.py and filters.py *)
(* ================================================================== *)

Module Sorting.

Inductive LicenseType := ANY | CREATIVE_COMMONS | YOUTUBE_LICENSE.

Definition license_value (l : LicenseType) : str :=
  match l with
  | ANY => lit "0"
  | CREATIVE_COMMONS => lit "2"
  | YOUTUBE_LICENSE => lit "1"
  end.

Inductive SortField :=
| UPLOAD_DATE | ID | VIEW_COUNT | LIKE_COUNT | CHAN_RANK | DURATION.

Definition field_value (f : SortField) : str :=
  match f with
  | UPLOAD_DATE => lit "uploaddate"
  | ID => lit "id"
  | VIEW_COUNT => lit "viewcount"
  | LIKE_COUNT => lit "likecount"
  | CHAN_RANK => lit "chanrank"
  | DURATION => lit "duration"
  end.

Inductive SortOrder := DESC | ASC.

Definition order_value (o : SortOrder) : str :=
  match o with
  | DESC => lit "desc"
  | ASC => lit "asc"
  end.

Record SortOption := mkSortOption {
  field : SortField;
  order : SortOrder
}.

(** A value of a parameter dict before [str] is applied to it. *)
Inductive param :=
| PInt (z : Z)
| PStr (s : str)
| PNone.

Definition to_dict (self : SortOption) : list (str * param) :=
  dict_set (dict_set [] (lit "sortField") (PStr (field_value (field self))))
           (lit "sortOrder") (PStr (order_value (order self))).

End Sorting.

Module Filters.
Import Sorting.

Definition MIN_VIEWS : Z := 0.
Definition MAX_VIEWS : Z := 6000000000.
Definition MIN_LIKES : Z := 30.
Definition MAX_LIKES : Z := 6000000000.
Definition MIN_DURATION : Z := 1.
Definition MAX_DURATION : Z := 86400.

(** A [datetime.date]. *)
Record date := mkDate {
  year : nat;
  month : nat;
  day : nat
}.

(** The decimal digits of [n], at least [width] of them. *)
Definition digits_of (n : nat) : str :=
  list_ascii_of_string (NilZero.string_of_uint (Nat.to_uint n)).

Definition zero_pad (width n : nat) : str :=
  repeat "0"%char (width - length (digits_of n)) ++ digits_of n.

(** [d.isoformat()] *)
Definition isoformat (d : date) : str :=
  zero_pad 4 (year d) ++ lit "-" ++ zero_pad 2 (month d) ++ lit "-"
    ++ zero_pad 2 (day d).

Record Filters := mkFilters {
  title : option str;
  views : option (Z * Z);
  likes : option (Z * Z);
  duration : option (Z * Z);
  date_range : option (option date * option date);
  license : option LicenseType
}.

(** Every setter returns the exception it raised, if any, and the object
    after the call. *)
Definition set_title (self : Filters) (t : str) : result unit * Filters :=
  (Ok tt, mkFilters (Some t) (views self) (likes self) (duration self)
                    (date_range self) (license self)).

Definition set_views (self : Filters) (min_views max_views : Z)
  : result unit * Filters :=
  if (min_views <? MIN_VIEWS)%Z then
    (Raise (ValueError (lit "min_views must be >= " ++ str_of_Z MIN_VIEWS)),
     self)
  else if (max_views >? MAX_VIEWS)%Z then
    (Raise (ValueError (lit "max_views must be <= " ++ str_of_Z MAX_VIEWS)),
     self)
  else if (min_views >? max_views)%Z then
    (Raise (ValueError (lit "min_views cannot be greater than max_views")),
     self)
  else
    (Ok tt, mkFilters (title self) (Some (min_views, max_views)) (likes self)
                      (duration self) (date_range self) (license self)).

Definition set_likes (self : Filters) (min_likes max_likes : Z)
  : result unit * Filters :=
  if (min_likes <? MIN_LIKES)%Z then
    (Raise (ValueError (lit "min_likes must be >= " ++ str_of_Z MIN_LIKES)),
     self)
  else if (max_likes >? MAX_LIKES)%Z then
    (Raise (ValueError (lit "max_likes must be <= " ++ str_of_Z MAX_LIKES)),
     self)
  else if (min_likes >? max_likes)%Z then
    (Raise (ValueError (lit "min_likes cannot be greater than max_likes")),
     self)
  else
    (Ok tt, mkFilters (title self) (views self) (Some (min_likes, max_likes))
                      (duration self) (date_range self) (license self)).

Definition set_duration (self : Filters) (start_duration end_duration : Z)
  : result unit * Filters :=
  if (start_duration <? MIN_DURATION)%Z then
    (Raise (ValueError (lit "start_duration must be >= "
                        ++ str_of_Z MIN_DURATION)), self)
  else if (end_duration >? MAX_DURATION)%Z then
    (Raise (ValueError (lit "end_duration must be <= "
                        ++ str_of_Z MAX_DURATION)), self)
  else if (start_duration >? end_duration)%Z then
    (Raise (ValueError
              (lit "start_duration cannot be greater than end_duration")),
     self)
  else
    (Ok tt, mkFilters (title self) (views self) (likes self)
                      (Some (start_duration, end_duration))
                      (date_range self) (license self)).

Definition set_license (self : Filters) (l : LicenseType)
  : result unit * Filters :=
  (Ok tt, mkFilters (title self) (views self) (likes self) (duration self)
                    (date_range self) (Some l)).

Definition is_not_none (p : param) : bool :=
  match p with PNone => false | _ => true end.

Definition iso_or_none (d : option date) : param :=
  match d with
  | Some d => PStr (isoformat d)
  | None => PNone
  end.

Definition to_dict (self : Filters) : list (str * param) :=
  let data : list (str * param) := [] in
  let data :=
    match title self with
    | Some (c :: t) => dict_set data (lit "title") (PStr (c :: t))
    | _ => data
    end in
  let data :=
    match duration self with
    | Some (a, b) =>
        dict_set (dict_set data (lit "startDuration") (PInt a))
                 (lit "endDuration") (PInt b)
    | None => data
    end in
  let data :=
    match views self with
    | Some (a, b) =>
        dict_set (dict_set data (lit "minViews") (PInt a))
                 (lit "maxViews") (PInt b)
    | None => data
    end in
  let data :=
    match likes self with
    | Some (a, b) =>
        dict_set (dict_set data (lit "minLikes") (PInt a))
                 (lit "maxLikes") (PInt b)
    | None => data
    end in
  let data :=
    match date_range self with
    | Some (d0, d1) =>
        dict_set (dict_set data (lit "startDate") (iso_or_none d0))
                 (lit "endDate") (iso_or_none d1)
    | None => data
    end in
  let data :=
    match license self with
    | Some l => dict_set data (lit "license") (PStr (license_value l))
    | None => data
    end in
  filter (fun kv => is_not_none (snd kv)) data.

(** [a > b] on dates: by year, then month, then day. *)
Definition date_gt (a b : date) : bool :=
  (year b <? year a)
  || ((year a =? year b)
      && ((month b <? month a)
          || ((month a =? month b) && (day b <? day a)))).

Section WithDateParser.

(** [date.fromisoformat] *)
Variable fromisoformat : str -> result date.

(** An argument of [set_date_range]: text or a date. *)
Definition as_date (x : str + date) : result date :=
  match x with
  | inl text => fromisoformat text
  | inr d => Ok d
  end.

Definition set_date_range (self : Filters) (start end_ : str + date)
  : result unit * Filters :=
  match as_date start with
  | Raise e => (Raise e, self)
  | Ok start_date =>
      match as_date end_ with
      | Raise e => (Raise e, self)
      | Ok end_date =>
          if date_gt start_date end_date then
            (Raise (ValueError
                      (lit "start_date cannot be later than end_date")), self)
          else
            (Ok tt, mkFilters (title self) (views self) (likes self)
                              (duration self)
                              (Some (Some start_date, Some end_date))
                              (license self))
      end
  end.

End WithDateParser.

(** The object with one range replaced, and the outcome of a setter that
    raised [ValueError] and left the object alone. *)
Definition with_views (self : Filters) (a b : Z) : Filters :=
  mkFilters (title self) (Some (a, b)) (likes self) (duration self)
            (date_range self) (license self).

Definition with_likes (self : Filters) (a b : Z) : Filters :=
  mkFilters (title self) (views self) (Some (a, b)) (duration self)
            (date_range self) (license self).

Definition with_duration (self : Filters) (a b : Z) : Filters :=
  mkFilters (title self) (views self) (likes self) (Some (a, b))
            (date_range self) (license self).

Definition raises_value_error (r : result unit * Filters) (self : Filters)
  : Prop :=
  exists msg, r = (Raise (ValueError msg), self).

End Filters.

(* ================================================================== *)
(** * The library calls of client.py *)
(* ================================================================== *)

(** [posixpath.join] and the functions of [urllib.parse] that
    [_build_search_url] calls, as CPython 3.11 defines them, on text whose
    characters are code points below 256. *)
Module Urllib.

Definition code (c : ascii) : nat := nat_of_ascii c.

Definition is_ascii (c : ascii) : bool := code c <? 128.

(** The characters [quote] never escapes: letters, digits and [_.-~]. *)
Definition always_safe (c : ascii) : bool :=
  let n := code c in
  ((65 <=? n) && (n <=? 90)) || ((97 <=? n) && (n <=? 122))
  || ((48 <=? n) && (n <=? 57))
  || (n =? 95) || (n =? 46) || (n =? 45) || (n =? 126).

(** [s.encode('utf-8')], one character. *)
Definition utf8_char (c : ascii) : list ascii :=
  let n := code c in
  if n <? 128 then [c]
  else [ascii_of_nat (192 + n / 64); ascii_of_nat (128 + n mod 64)].

Definition utf8_encode (s : str) : list ascii := flat_map utf8_char s.

Definition hex_digit (n : nat) : ascii :=
  if n <? 10 then ascii_of_nat (48 + n) else ascii_of_nat (55 + n).

(** ['%{:02X}'.format(b)] *)
Definition percent (b : ascii) : str :=
  ["%"%char; hex_digit (code b / 16); hex_digit (code b mod 16)].

(** [quote(s, safe)]: the bytes of [s] that are always safe or in [safe]
    stand for themselves, every other byte is escaped. *)
Definition quote (s : str) (safe : str) : str :=
  flat_map (fun b => if always_safe b || existsb (Ascii.eqb b) safe
                     then [b] else percent b)
           (utf8_encode s).

Definition replace_char (a b : ascii) (s : str) : str :=
  map (fun c => if Ascii.eqb c a then b else c) s.

(** [quote_plus(s)] *)
Definition quote_plus (s : str) : str :=
  if existsb (Ascii.eqb " "%char) s
  then replace_char " "%char "+"%char (quote s (lit " "))
  else quote s [].

(** [urlencode(params)] for a dict whose values are text. *)
Definition urlencode (params : list (str * str)) : str :=
  join (lit "&")
       (map (fun kv => quote_plus (fst kv) ++ lit "=" ++ quote_plus (snd kv))
            params).

(** [posixpath.join(a, b)] *)
Definition posixpath_join (a b : str) : str :=
  if startswith b (lit "/") then b
  else
    match rev a with
    | [] => b
    | last :: _ => if Ascii.eqb last "/"%char then a ++ b
                   else a ++ lit "/" ++ b
    end.

(** [s.split(sep)] for a separator of one character: [cur] is the piece
    being read, last character first. *)
Fixpoint split_on_from (sep : ascii) (s cur : str) : list str :=
  match s with
  | [] => [rev cur]
  | c :: s' =>
      if Ascii.eqb c sep then rev cur :: split_on_from sep s' []
      else split_on_from sep s' (c :: cur)
  end.

Definition split_on (sep : ascii) (s : str) : list str :=
  split_on_from sep s [].

(** [s.split(sep, 1)]: the text before the first [sep] and the text after
    it, when there is one. *)
Fixpoint split_first (sep : ascii) (s : str) : str * option str :=
  match s with
  | [] => ([], None)
  | c :: s' =>
      if Ascii.eqb c sep then ([], Some s')
      else let (a, b) := split_first sep s' in (c :: a, b)
  end.

Definition mem (c : ascii) (s : str) : bool := existsb (Ascii.eqb c) s.

Record SplitResult := mkSplit {
  scheme : str;
  netloc : str;
  path : str;
  query : str;
  fragment : str
}.

Definition scheme_char (c : ascii) : bool :=
  let n := code c in
  ((65 <=? n) && (n <=? 90)) || ((97 <=? n) && (n <=? 122))
  || ((48 <=? n) && (n <=? 57))
  || (n =? 43) || (n =? 45) || (n =? 46).

Definition ascii_letter (c : ascii) : bool :=
  let n := code c in
  ((65 <=? n) && (n <=? 90)) || ((97 <=? n) && (n <=? 122)).

Definition lower (c : ascii) : ascii :=
  let n := code c in
  if (65 <=? n) && (n <=? 90) then ascii_of_nat (n + 32) else c.

(** The leading characters [urlsplit] strips (code points 0 to 32) and the
    characters it removes everywhere (tab, carriage return, line feed). *)
Fixpoint lstrip_c0 (s : str) : str :=
  match s with
  | c :: s' => if code c <=? 32 then lstrip_c0 s' else s
  | [] => []
  end.

Definition unsafe_byte (c : ascii) : bool :=
  let n := code c in (n =? 9) || (n =? 13) || (n =? 10).

Definition clean_url (s : str) : str :=
  filter (fun c => negb (unsafe_byte c)) (lstrip_c0 s).

(** The text up to the first of [/?#], and the rest. *)
Fixpoint splitnetloc (s : str) : str * str :=
  match s with
  | [] => ([], [])
  | c :: s' =>
      if mem c (lit "/?#") then ([], s)
      else let (a, b) := splitnetloc s' in (c :: a, b)
  end.

(** [urlsplit(url, scheme)].  The checks of a network location that holds
    a bracket or a character outside ASCII depend on tables that are not
    modelled; the result is [None] there. *)
Definition urlsplit (url default_scheme : str) : option SplitResult :=
  let url := clean_url url in
  let (scheme, url) :=
    match split_first ":"%char url with
    | (before, Some after) =>
        if match before with c :: _ => ascii_letter c | [] => false end
           && forallb scheme_char before
        then (map lower before, after)
        else (default_scheme, url)
    | (_, None) => (default_scheme, url)
    end in
  let (netloc, url) :=
    if startswith url (lit "//") then splitnetloc (skipn 2 url)
    else ([], url) in
  if forallb (fun c => is_ascii c && negb (mem c (lit "[]"))) netloc then
    let (url, fragment) :=
      match split_first "#"%char url with
      | (a, Some b) => (a, b)
      | (a, None) => (a, [])
      end in
    let (url, query) :=
      match split_first "?"%char url with
      | (a, Some b) => (a, b)
      | (a, None) => (a, [])
      end in
    Some (mkSplit scheme netloc url query fragment)
  else None.

Definition uses_relative : list str :=
  map lit ["ftp"; "http"; "gopher"; "nntp"; "imap"; "wais"; "file"; "https";
           "shttp"; "mms"; "prospero"; "rtsp"; "rtsps"; "rtspu"; "sftp";
           "svn"; "svn+ssh"; "ws"; "wss"; ""]%string.

Definition uses_netloc : list str :=
  map lit ["ftp"; "http"; "gopher"; "nntp"; "telnet"; "imap"; "wais"; "file";
           "mms"; "https"; "shttp"; "snews"; "prospero"; "rtsp"; "rtsps";
           "rtspu"; "rsync"; "svn"; "svn+ssh"; "sftp"; "nfs"; "git";
           "git+ssh"; "ws"; "wss"; "itms-services"; ""]%string.

Definition uses_params : list str :=
  map lit ["ftp"; "hdl"; "prospero"; "http"; "imap"; "https"; "shttp";
           "rtsp"; "rtsps"; "rtspu"; "sip"; "sips"; "mms"; "sftp"; "tel";
           ""]%string.

Definition in_list (x : str) (l : list str) : bool := existsb (str_eqb x) l.

(** [_splitparams(url)]: the path is cut at the first [;] of its last
    segment. *)
Definition splitparams (url : str) : str * str :=
  let segments := split_on "/"%char url in
  match rev segments with
  | [] => (url, [])
  | last :: before =>
      match split_first ";"%char last with
      | (a, Some b) => (join (lit "/") (rev (a :: before)), b)
      | (_, None) => (url, [])
      end
  end.

Record ParseResult := mkParse {
  p_scheme : str;
  p_netloc : str;
  p_path : str;
  p_params : str;
  p_query : str;
  p_fragment : str
}.

(** [urlparse(url, scheme)] *)
Definition urlparse (url default_scheme : str) : option ParseResult :=
  match urlsplit url default_scheme with
  | None => None
  | Some r =>
      let (url, params) :=
        if in_list (scheme r) uses_params && mem ";"%char (path r)
        then splitparams (path r) else (path r, []) in
      Some (mkParse (scheme r) (netloc r) url params (query r) (fragment r))
  end.

Definition nonempty (s : str) : bool :=
  match s with [] => false | _ => true end.

(** [urlunsplit] *)
Definition urlunsplit (scheme netloc url query fragment : str) : str :=
  let url :=
    if nonempty netloc
       || (nonempty scheme && in_list scheme uses_netloc
           && negb (startswith url (lit "//")))
    then
      let url :=
        if nonempty url && negb (startswith url (lit "/"))
        then lit "/" ++ url else url in
      lit "//" ++ netloc ++ url
    else url in
  let url := if nonempty scheme then scheme ++ lit ":" ++ url else url in
  let url := if nonempty query then url ++ lit "?" ++ query else url in
  if nonempty fragment then url ++ lit "#" ++ fragment else url.

(** [urlunparse] *)
Definition urlunparse (r : ParseResult) : str :=
  let url :=
    if nonempty (p_params r) then p_path r ++ lit ";" ++ p_params r
    else p_path r in
  urlunsplit (p_scheme r) (p_netloc r) url (p_query r) (p_fragment r).

(** [segments[1:-1] = filter(None, segments[1:-1])] *)
Definition drop_empty_inner (segments : list str) : list str :=
  match segments with
  | [] => []
  | [x] => [x]
  | first :: rest =>
      first :: filter nonempty (removelast rest) ++ [last rest []]
  end.

(** The loop of [urljoin] that resolves the dot segments. *)
Fixpoint resolve (segments resolved_path : list str) : list str :=
  match segments with
  | [] => resolved_path
  | seg :: rest =>
      if str_eqb seg (lit "..") then resolve rest (removelast resolved_path)
      else if str_eqb seg (lit ".") then resolve rest resolved_path
      else resolve rest (resolved_path ++ [seg])
  end.

(** [urljoin(base, url)] *)
Definition urljoin (base url : str) : option str :=
  if negb (nonempty base) then Some url
  else if negb (nonempty url) then Some base
  else
    match urlparse base [] with
    | None => None
    | Some b =>
        match urlparse url (p_scheme b) with
        | None => None
        | Some u =>
            if negb (str_eqb (p_scheme u) (p_scheme b))
               || negb (in_list (p_scheme u) uses_relative)
            then Some url
            else if in_list (p_scheme u) uses_netloc && nonempty (p_netloc u)
            then Some (urlunparse u)
            else
              let netloc :=
                if in_list (p_scheme u) uses_netloc then p_netloc b
                else p_netloc u in
              if negb (nonempty (p_path u)) && negb (nonempty (p_params u))
              then
                Some (urlunparse
                        (mkParse (p_scheme u) netloc (p_path b) (p_params b)
                                 (if nonempty (p_query u) then p_query u
                                  else p_query b)
                                 (p_fragment u)))
              else
                let base_parts := split_on "/"%char (p_path b) in
                let base_parts :=
                  if nonempty (last base_parts [])
                  then removelast base_parts else base_parts in
                let segments :=
                  if startswith (p_path u) (lit "/")
                  then split_on "/"%char (p_path u)
                  else drop_empty_inner
                         (base_parts ++ split_on "/"%char (p_path u)) in
                let resolved_path := resolve segments [] in
                let resolved_path :=
                  if in_list (last segments []) [lit "."; lit ".."]
                  then resolved_path ++ [[]] else resolved_path in
                let joined := join (lit "/") resolved_path in
                Some (urlunparse
                        (mkParse (p_scheme u) netloc
                                 (if nonempty joined then joined else lit "/")
                                 (p_params u) (p_query u) (p_fragment u)))
        end
    end.

(** ** Reading a query string back *)

Definition hex_value (c : ascii) : option nat :=
  let n := code c in
  if (48 <=? n) && (n <=? 57) then Some (n - 48)
  else if (65 <=? n) && (n <=? 70) then Some (n - 55)
  else if (97 <=? n) && (n <=? 102) then Some (n - 87)
  else None.

(** [unquote_to_bytes]: a percent sign followed by two hexadecimal digits
    is one byte, everything else stands for itself. *)
Fixpoint unquote_to_bytes (s : str) : list ascii :=
  match s with
  | [] => []
  | c :: s' =>
      if Ascii.eqb c "%"%char then
        match s' with
        | a :: b :: rest =>
            match hex_value a, hex_value b with
            | Some x, Some y => ascii_of_nat (16 * x + y) :: unquote_to_bytes rest
            | _, _ => c :: unquote_to_bytes s'
            end
        | _ => c :: unquote_to_bytes s'
        end
      else c :: unquote_to_bytes s'
  end.

(** [bs.decode('utf-8')] as far as the result stays below code point 256:
    [None] when the bytes decode to anything else. *)
Fixpoint utf8_decode (bs : list ascii) : option str :=
  match bs with
  | [] => Some []
  | b :: bs' =>
      if code b <? 128 then option_map (cons b) (utf8_decode bs')
      else if (code b =? 194) || (code b =? 195) then
        match bs' with
        | b2 :: rest =>
            if (128 <=? code b2) && (code b2 <? 192) then
              option_map (cons (ascii_of_nat ((code b - 192) * 64
                                              + (code b2 - 128))))
                         (utf8_decode rest)
            else None
        | [] => None
        end
      else None
  end.

(** [unquote(s)] for text within ASCII, as a query string is. *)
Definition unquote (s : str) : option str :=
  if forallb is_ascii s then utf8_decode (unquote_to_bytes s) else None.

Definition unquote_plus (s : str) : option str :=
  unquote (replace_char "+"%char " "%char s).

(** [parse_qsl(qs)]: the pairs of the query string in order; a field
    without [=] or with an empty value is left out. *)
Fixpoint parse_fields (fields : list str) : option (list (str * str)) :=
  match fields with
  | [] => Some []
  | name_value :: rest =>
      match split_first "="%char name_value with
      | (n, Some (c :: v)) =>
          match unquote_plus n, unquote_plus (c :: v), parse_fields rest with
          | Some name, Some value, Some r => Some ((name, value) :: r)
          | _, _, _ => None
          end
      | _ => parse_fields rest
      end
  end.

Definition parse_qsl (qs : str) : option (list (str * str)) :=
  parse_fields (split_on "&"%char qs).

(** [urlsplit(url).query] *)
Definition url_query (url : str) : option str :=
  option_map query (urlsplit url []).

(** ** Vocabulary for the text of a URL *)

(** The characters of an escaped path and of an encoded query string. *)
Definition tame (c : ascii) : bool := always_safe c || mem c (lit "/%+=&").

Definition visible (c : ascii) : bool :=
  negb (code c <=? 32) && negb (unsafe_byte c).

Definition tames (l : list str) : bool := forallb (forallb tame) l.

(** What [quote_plus] writes for one character. *)
Definition escaped (c : ascii) : str :=
  if Ascii.eqb c " "%char then lit "+"
  else if always_safe c then [c]
  else flat_map percent (utf8_char c).

(** The characters [quote_plus] writes. *)
Definition form_char (c : ascii) : bool := always_safe c || mem c (lit "%+").

Definition plus_to_space : str -> str := replace_char "+"%char " "%char.

Definition field_text (kv : str * str) : str :=
  quote_plus (fst kv) ++ lit "=" ++ quote_plus (snd kv).

Definition without (sep : ascii) (s : str) : bool :=
  forallb (fun c => negb (Ascii.eqb c sep)) s.

End Urllib.

(* ================================================================== *)
(** * client.py *)
(* ================================================================== *)

Module Client.
Import Sorting Urllib.

Definition BASE_URL : str := lit "https://filmot.com/search/".

(** [str(v)] for the value of a parameter. *)
Definition str_of_param (p : param) : str :=
  match p with
  | PInt z => str_of_Z z
  | PStr s => s
  | PNone => lit "None"
  end.

Definition build_params (channel_id : option str)
  (filters : option Filters.Filters) (sort_option : option SortOption)
  : list (str * str) :=
  let params : list (str * param) := [(lit "gridView", PInt 1)] in
  let params :=
    match channel_id with
    | Some (c :: t) => dict_set params (lit "channelID") (PStr (c :: t))
    | _ => params
    end in
  let params :=
    match filters with
    | Some f => dict_update params (Filters.to_dict f)
    | None => params
    end in
  let params :=
    match sort_option with
    | Some o => dict_update params (Sorting.to_dict o)
    | None => params
    end in
  map (fun kv => (fst kv, str_of_param (snd kv))) params.

(** [YoutubeCaptionFinder._build_search_url]; [None] only where [urljoin]
    is not modelled. *)
Definition _build_search_url (query : str) (channel_id : option str)
  (filters : option Filters.Filters) (sort_option : option SortOption)
  (page_id : Z) : option str :=
  let params := build_params channel_id filters sort_option in
  let query_encoded := quote query (lit "/") in
  let path := lit "1/" ++ str_of_Z page_id ++ lit "?" ++ urlencode params in
  let suburl := posixpath_join query_encoded path in
  urljoin BASE_URL suburl.

(** ** The parameters a caller supplies, under their wire names *)

Definition given (name : string) (value : option str) : list (str * str) :=
  match value with
  | Some v => [(lit name, v)]
  | None => []
  end.

(** A text that is there and is not empty. *)
Definition filled (o : option str) : option str :=
  match o with
  | Some (c :: t) => Some (c :: t)
  | _ => None
  end.

Definition no_filters : Filters.Filters :=
  Filters.mkFilters None None None None None None.

Definition lower_bound (r : option (Z * Z)) : option str :=
  option_map (fun ab => str_of_Z (fst ab)) r.

Definition upper_bound (r : option (Z * Z)) : option str :=
  option_map (fun ab => str_of_Z (snd ab)) r.

Definition start_date (r : option (option Filters.date * option Filters.date))
  : option str :=
  match r with
  | Some (Some d, _) => Some (Filters.isoformat d)
  | _ => None
  end.

Definition end_date (r : option (option Filters.date * option Filters.date))
  : option str :=
  match r with
  | Some (_, Some d) => Some (Filters.isoformat d)
  | _ => None
  end.

(** Every parameter that is set, with the text of its value: the view
    flag, the channel, the fields of the filters, the sort field and
    order. *)
Definition supplied (channel_id : option str)
  (filters : option Filters.Filters) (sort_option : option SortOption)
  : list (str * str) :=
  let f := match filters with Some f => f | None => no_filters end in
  given "gridView" (Some (lit "1"))
  ++ given "channelID" (filled channel_id)
  ++ given "title" (filled (Filters.title f))
  ++ given "startDuration" (lower_bound (Filters.duration f))
  ++ given "endDuration" (upper_bound (Filters.duration f))
  ++ given "minViews" (lower_bound (Filters.views f))
  ++ given "maxViews" (upper_bound (Filters.views f))
  ++ given "minLikes" (lower_bound (Filters.likes f))
  ++ given "maxLikes" (upper_bound (Filters.likes f))
  ++ given "startDate" (start_date (Filters.date_range f))
  ++ given "endDate" (end_date (Filters.date_range f))
  ++ given "license" (option_map license_value (Filters.license f))
  ++ given "sortField" (option_map (fun o => field_value (field o)) sort_option)
  ++ given "sortOrder" (option_map (fun o => order_value (order o)) sort_option).

Definition filled_value (o : option str) : Prop :=
  match o with Some v => nonempty v = true | None => True end.

(** A response of the search site: the status, and the tree of the page
    html.parser builds from the content. *)
Record response := mkResponse {
  status_code : Z;
  content : Bs4.node
}.

(** What a call can do besides returning: raise, or land outside the
    model of the URL functions. *)
Inductive outcome (A : Type) :=
| Returns (a : A)
| Raises (e : exn)
| Unmodelled.
Arguments Returns {A} a.
Arguments Raises {A} e.
Arguments Unmodelled {A}.

Section WithSession.

(** [self.session.get]: the response depends on the URL and on how many
    requests were issued before. *)
Variable session_get : nat -> str -> response.

Definition _search_page (query : str) (channel_id : option str)
  (filters : option Filters.Filters) (sort_option : option SortOption)
  (page_id : Z) (w : nat) : outcome (list Video.VideoInfo) * nat :=
  match _build_search_url query channel_id filters sort_option page_id with
  | None => (Unmodelled, w)
  | Some url =>
      let resp := session_get w url in
      if negb (status_code resp =? 200)%Z then
        (Raises (YoutubeCaptionFinderError
                   (lit "Error fetching search results: "
                    ++ str_of_Z (status_code resp))), S w)
      else
        match Extractor.extract (content resp) with
        | Ok videos => (Returns videos, S w)
        | Raise e => (Raises e, S w)
        end
  end.

(** The generator [search_all] between two calls of [next]: not started
    or between two pages ([Fetching], with the page to fetch next), suspended
    at the [yield] inside the [for] loop ([Yielding], with the videos of the
    page still to come), or finished. *)
Inductive generator :=
| Fetching (page_id : Z)
| Yielding (page_id : Z) (pending : list Video.VideoInfo)
| Finished.

Inductive step :=
| Yield (video : Video.VideoInfo)
| StopIteration
| Error (e : exn)
| NoModel.

Variables (query : str) (channel_id : option str)
          (filters : option Filters.Filters) (sort_option : option SortOption).

Definition search_all : generator := Fetching 1.

Definition fetch_next (page_id : Z) (w : nat) : step * generator * nat :=
  match _search_page query channel_id filters sort_option page_id w with
  | (Returns [], w') => (StopIteration, Finished, w')
  | (Returns (video :: rest), w') => (Yield video, Yielding page_id rest, w')
  | (Raises e, w') => (Error e, Finished, w')
  | (Unmodelled, w') => (NoModel, Finished, w')
  end.

(** [next(g)] *)
Definition next (g : generator) (w : nat) : step * generator * nat :=
  match g with
  | Fetching page_id => fetch_next page_id w
  | Yielding page_id (video :: rest) =>
      (Yield video, Yielding page_id rest, w)
  | Yielding page_id [] => fetch_next (page_id + 1) w
  | Finished => (StopIteration, Finished, w)
  end.

(** Up to [fuel] calls of [next]: the videos yielded, and how the iteration
    ended if it did. *)
Fixpoint drain (fuel : nat) (g : generator) (w : nat)
  : list Video.VideoInfo * option step * nat :=
  match fuel with
  | 0 => ([], None, w)
  | S fuel' =>
      match next g w with
      | (Yield video, g', w') =>
          let '(videos, ending, w'') := drain fuel' g' w' in
          (video :: videos, ending, w'')
      | (other, _, w') => ([], Some other, w')
      end
  end.

(** The pages [pages] are served one after the other from page [p] and
    request [w] on, and the page after them is empty. *)
Definition served (pages : list (list Video.VideoInfo)) (p : Z) (w : nat) : Prop :=
  (forall k, k < length pages ->
     _search_page query channel_id filters sort_option
       (p + Z.of_nat k)%Z (w + k)
     = (Returns (nth k pages []), S (w + k)))
  /\ _search_page query channel_id filters sort_option
       (p + Z.of_nat (length pages))%Z (w + length pages)
     = (Returns [], S (w + length pages)).

(** The pages [pages] are served one after the other from page [p] and
    request [w] on; nothing is said of the page after them. *)
Definition first_pages (pages : list (list Video.VideoInfo)) (p : Z) (w : nat)
  : Prop :=
  forall k, k < length pages ->
    _search_page query channel_id filters sort_option
      (p + Z.of_nat k)%Z (w + k)
    = (Returns (nth k pages []), S (w + k)).

End WithSession.

End Client.

(* ================================================================== *)
(** * A reference decoder *)
(* ================================================================== *)

(** [json.loads] is a library call and a parameter of [Channel].  This
    module is one instance of it, a decoder for JSON text over the characters
    of the model, on which the package can be run on concrete pages. *)
Module JsonRef.

Definition is_json_ws (c : ascii) : bool :=
  let n := nat_of_ascii c in
  (n =? 32) || (n =? 9) || (n =? 10) || (n =? 13).

Fixpoint skip_ws (s : str) : str :=
  match s with
  | c :: s' => if is_json_ws c then skip_ws s' else s
  | [] => []
  end.

Definition hex_value (c : ascii) : option nat :=
  let n := nat_of_ascii c in
  if (48 <=? n) && (n <=? 57) then Some (n - 48)
  else if (65 <=? n) && (n <=? 70) then Some (n - 55)
  else if (97 <=? n) && (n <=? 102) then Some (n - 87)
  else None.

Definition hex4 (a b c d : ascii) : option nat :=
  match hex_value a, hex_value b, hex_value c, hex_value d with
  | Some x, Some y, Some z, Some w => Some (((x * 16 + y) * 16 + z) * 16 + w)
  | _, _, _, _ => None
  end.

(** The body of a string, after its opening quote. *)
Fixpoint string_body (s acc : str) : option (str * str) :=
  match s with
  | [] => None
  | c :: s' =>
      if Ascii.eqb c dquote then Some (rev acc, s')
      else if Ascii.eqb c backslash then
        match s' with
        | e :: s'' =>
            if Ascii.eqb e "u"%char then
              match s'' with
              | h1 :: h2 :: h3 :: h4 :: s5 =>
                  match hex4 h1 h2 h3 h4 with
                  | Some n =>
                      if n <? 256 then string_body s5 (ascii_of_nat n :: acc)
                      else None
                  | None => None
                  end
              | _ => None
              end
            else
              let plain (x : ascii) := string_body s'' (x :: acc) in
              if Ascii.eqb e dquote then plain dquote
              else if Ascii.eqb e backslash then plain backslash
              else if Ascii.eqb e "/"%char then plain "/"%char
              else if Ascii.eqb e "b"%char then plain (ascii_of_nat 8)
              else if Ascii.eqb e "f"%char then plain (ascii_of_nat 12)
              else if Ascii.eqb e "n"%char then plain (ascii_of_nat 10)
              else if Ascii.eqb e "r"%char then plain (ascii_of_nat 13)
              else if Ascii.eqb e "t"%char then plain (ascii_of_nat 9)
              else None
        | [] => None
        end
      else if nat_of_ascii c <? 32 then None
      else string_body s' (c :: acc)
  end.

Definition is_digit (c : ascii) : bool :=
  let n := nat_of_ascii c in (48 <=? n) && (n <=? 57).

Fixpoint digits (s acc : str) : str * str :=
  match s with
  | c :: s' => if is_digit c then digits s' (c :: acc) else (rev acc, s)
  | [] => (rev acc, [])
  end.

Definition Z_of_digits (ds : str) : Z :=
  fold_left (fun z c => (10 * z + Z.of_nat (nat_of_ascii c - 48))%Z) ds 0%Z.

(** A number: an integer becomes [JInt], a number with a fraction or an
    exponent becomes [JFloat] and keeps its text. *)
Definition number (s : str) : option (json * str) :=
  let (neg, s0) :=
    match s with
    | c :: s' => if Ascii.eqb c "-"%char then (true, s') else (false, s)
    | [] => (false, s)
    end in
  let (int_ds, s1) :=
    match s0 with
    | c :: s' => if Ascii.eqb c "0"%char then ([c], s') else digits s0 []
    | [] => ([], [])
    end in
  match int_ds with
  | [] => None
  | _ =>
      let (frac, s2) :=
        match s1 with
        | c :: s' =>
            if Ascii.eqb c "."%char then
              let (ds, r) := digits s' [] in
              match ds with [] => ([], s1) | _ => (c :: ds, r) end
            else ([], s1)
        | [] => ([], s1)
        end in
      let (ex, s3) :=
        match s2 with
        | c :: s' =>
            if Ascii.eqb c "e"%char || Ascii.eqb c "E"%char then
              let (sign, s'') :=
                match s' with
                | d :: t =>
                    if Ascii.eqb d "+"%char || Ascii.eqb d "-"%char
                    then ([d], t) else ([], s')
                | [] => ([], s')
                end in
              let (ds, r) := digits s'' [] in
              match ds with [] => ([], s2) | _ => (c :: sign ++ ds, r) end
            else ([], s2)
        | [] => ([], s2)
        end in
      match frac, ex with
      | [], [] =>
          let z := Z_of_digits int_ds in
          Some (JInt (if neg then (- z)%Z else z), s3)
      | _, _ =>
          Some (JFloat ((if neg then lit "-" else []) ++ int_ds ++ frac ++ ex),
                s3)
      end
  end.

Definition keyword (w : string) (v : json) (s : str) : option (json * str) :=
  match Channel.expect (lit w) s with
  | Some r => Some (v, r)
  | None => None
  end.

Fixpoint value (fuel : nat) (s : str) : option (json * str) :=
  match fuel with
  | 0 => None
  | S fuel' =>
      match s with
      | [] => None
      | c :: r =>
          if Ascii.eqb c "{"%char then
            match skip_ws r with
            | d :: r' =>
                if Ascii.eqb d "}"%char then Some (JObj [], r')
                else members fuel' (skip_ws r) []
            | [] => None
            end
          else if Ascii.eqb c "["%char then
            match skip_ws r with
            | d :: r' =>
                if Ascii.eqb d "]"%char then Some (JArr [], r')
                else elements fuel' (skip_ws r) []
            | [] => None
            end
          else if Ascii.eqb c dquote then
            match string_body r [] with
            | Some (t, r') => Some (JStr t, r')
            | None => None
            end
          else if Ascii.eqb c "n"%char then keyword "null" JNull s
          else if Ascii.eqb c "t"%char then keyword "true" (JBool true) s
          else if Ascii.eqb c "f"%char then keyword "false" (JBool false) s
          else if Ascii.eqb c "N"%char then keyword "NaN" (JFloat (lit "nan")) s
          else if Ascii.eqb c "I"%char
          then keyword "Infinity" (JFloat (lit "inf")) s
          else
            match keyword "-Infinity" (JFloat (lit "-inf")) s with
            | Some x => Some x
            | None => number s
            end
      end
  end
with elements (fuel : nat) (s : str) (acc : list json)
  : option (json * str) :=
  match fuel with
  | 0 => None
  | S fuel' =>
      match value fuel' s with
      | Some (v, r) =>
          match skip_ws r with
          | c :: r' =>
              if Ascii.eqb c ","%char
              then elements fuel' (skip_ws r') (acc ++ [v])
              else if Ascii.eqb c "]"%char
              then Some (JArr (acc ++ [v]), r')
              else None
          | [] => None
          end
      | None => None
      end
  end
with members (fuel : nat) (s : str) (acc : list (str * json))
  : option (json * str) :=
  match fuel with
  | 0 => None
  | S fuel' =>
      match s with
      | q :: r0 =>
          if Ascii.eqb q dquote then
            match string_body r0 [] with
            | Some (k, r1) =>
                match skip_ws r1 with
                | c :: r2 =>
                    if Ascii.eqb c ":"%char then
                      match value fuel' (skip_ws r2) with
                      | Some (v, r3) =>
                          match skip_ws r3 with
                          | d :: r4 =>
                              if Ascii.eqb d ","%char
                              then members fuel' (skip_ws r4)
                                           (dict_set acc k v)
                              else if Ascii.eqb d "}"%char
                              then Some (JObj (dict_set acc k v), r4)
                              else None
                          | [] => None
                          end
                      | None => None
                      end
                    else None
                | [] => None
                end
            | None => None
            end
          else None
      | [] => None
      end
  end.

Definition loads (s : str) : result json :=
  match value (2 * length s + 2) (skip_ws s) with
  | Some (v, r) =>
      match skip_ws r with
      | [] => Ok v
      | _ :: _ => Raise JSONDecodeError
      end
  | None => Raise JSONDecodeError
  end.

End JsonRef.

(* ================================================================== *)
(** * Concrete pages *)
(* ================================================================== *)

Module Pages.
Import JsonText.

Definition before : str := lit "<script>var ".
Definition after : str := lit ";</script>".
Definition bare : Assignment.head := Assignment.Bare (lit " ") (lit " ").

(** The object with one member a whose string holds a closing brace, a
    semicolon, an escaped double quote, an opening brace and a single
    quote. *)
Definition tricky : value :=
  VObj (MOne [] [Plain "a"%char] [] [WSpace]
             (VStr [Plain "}"%char; Plain ";"%char; EscQuote;
                    Plain "{"%char; Plain "'"%char]) []).

Definition tricky_page : str :=
  before ++ Assignment.render bare ++ render tricky ++ after.

Definition no_data_page : str := lit "<html><body>nothing</body></html>".

(** An assignment whose object is never closed: the only closing brace is
    inside a string. *)
Definition unclosed_rest : str := jq "`a`: {`b`: `}` ".
Definition unclosed_page : str :=
  before ++ Assignment.render bare ++ "{"%char :: unclosed_rest.

(** A channel page whose metadata member is null. *)
Definition null_metadata_page : str :=
  jq "<script>var ytInitialData = {`metadata`: null};</script>".

(** A channel page that carries a channel id. *)
Definition channel_page : str :=
  jq "<script>window['ytInitialData'] = {`metadata`: {`channelMetadataRenderer`: {`externalId`: `UC3k3floOm`}}};</script>".

Definition channel_server (n : nat) (url : str) : Channel.response :=
  Channel.mkResponse 200 channel_page.

Definition handle : Channel.Channel :=
  Channel.mkChannel (lit "https://www.youtube.com/@nomadcapitalist") JNull.

(** Result pages. *)
Import Bs4.

Definition text_badge (t : string) : node :=
  Tag (lit "span") [(lit "class", lit "badge")] [NavigableString (lit t)].

Definition icon_badge (icon t : string) : node :=
  Tag (lit "span") [(lit "class", lit "badge badge-info")]
      [Tag (lit "i") [(lit "class", lit "fa " ++ lit icon)] [];
       NavigableString (lit " " ++ lit t)].

Definition scroll_box (t : string) : node :=
  Tag (lit "div") [(lit "class", lit "scroll-box")] [NavigableString (lit t)].

(** A card with nothing in it. *)
Definition bare_card : node := Tag (lit "div") [(lit "id", lit "vcard1")] [].
Definition bare_card_page : node := Extractor.doc [bare_card].

(** A card with two badges that carry letters and no icon. *)
Definition two_dates_card : node :=
  Tag (lit "div") [(lit "id", lit "vcard7")]
      [text_badge "Jan 1, 2020"; text_badge "English"; scroll_box "hello"].

(** The badges of the example of the specification, in two orders. *)
Definition view_badge : node := icon_badge "fa-eye" "1,234".
Definition like_badge : node := icon_badge "fa-thumbs-up" "56".
Definition date_badge : node := text_badge "Jan 1, 2020".

Definition ordered_card : node :=
  Tag (lit "div") [(lit "id", lit "vcard2"); (lit "idx", lit "0")]
      [date_badge; like_badge; view_badge; scroll_box " some  text "].

(** An element that is not a div and carries a card id. *)
Definition span_card_page : node :=
  Extractor.doc [Tag (lit "span") [(lit "id", lit "vcard1")] [scroll_box "x"]].

Definition empty_page : node := Extractor.doc [].

Definition two_cards_page : node :=
  Extractor.doc
    [Tag (lit "div") [(lit "class", lit "row")]
         [ordered_card; NavigableString (lit " "); two_dates_card]].

(** A site with two pages of results: the first two requests are answered
    with a page of two cards, every later one with a page without cards. *)
Definition two_page_site (w : nat) (url : str) : Client.response :=
  if w <? 2 then Client.mkResponse 200 two_cards_page
  else Client.mkResponse 200 empty_page.

Definition two_cards : list Video.VideoInfo :=
  [Video.mkVideoInfo (Some (lit "vcard2")) (Some (lit "0")) None None None
                     None None (Some (lit "1,234")) (Some (lit "56"))
                     (Some (lit "Jan 1, 2020")) None (Some (lit "some text"));
   Video.mkVideoInfo (Some (lit "vcard7")) None None None None None None
                     None None (Some (lit "English")) None
                     (Some (lit "hello"))].

Definition some_filters : Filters.Filters :=
  Filters.mkFilters None None None None None None.

(** Filters with every field set, and a sort option. *)
Definition full_filters : Filters.Filters :=
  Filters.mkFilters (Some (lit "a&b=c d")) (Some (0, 5)%Z) (Some (30, 40)%Z)
                    (Some (1, 10)%Z)
                    (Some (Some (Filters.mkDate 2020 1 5),
                           Some (Filters.mkDate 2021 12 31)))
                    (Some Sorting.CREATIVE_COMMONS).

Definition by_views : Sorting.SortOption :=
  Sorting.mkSortOption Sorting.VIEW_COUNT Sorting.DESC.

(** Filters whose title is set to the empty text. *)
Definition empty_title_filters : Filters.Filters :=
  Filters.mkFilters (Some []) None None None None None.

End Pages.

(* ================================================================== *)
(** * helpers.py *)
(* ================================================================== *)

Module Helpers.

(** The nine characters of the pattern's class: backslash, slash, star,
    question mark, colon, double quote, the two angle brackets and bar. *)
Definition forbidden (c : ascii) : bool :=
  existsb (Ascii.eqb c)
          [backslash; "/"%char; "*"%char; "?"%char; ":"%char; dquote;
           "<"%char; ">"%char; "|"%char].

(** [re.sub] of that class by the empty text. *)
Definition remove_forbidden (s : str) : str :=
  filter (fun c => negb (forbidden c)) s.

(** [s[:n]] for an [int] [n]: a negative [n] counts from the end. *)
Definition up_to (n : Z) (s : str) : str :=
  if (n <? 0)%Z then firstn (length s - Z.to_nat (- n)) s
  else firstn (Z.to_nat n) s.

Definition safe_filename (s : str) (max_length : Z) : str :=
  up_to max_length (remove_forbidden s).

End Helpers.

(* ================================================================== *)
(** * extractor.py: the filter options *)
(* ================================================================== *)

Module FilterExtractor.
Import Bs4.

(** What [FilterExtractor.extract] can do: return, or raise one of the two
    exceptions its statements can raise. *)
Inductive outcome (A : Type) :=
| Returns (a : A)
| UnboundLocalError
| AttributeMissing (key : str).
Arguments Returns {A} a.
Arguments UnboundLocalError {A}.
Arguments AttributeMissing {A} key.

(** [id=value]: the attribute is there and equal to [value]. *)
Definition attr_is (key value : str) (n : node) : bool :=
  match get n key with
  | Some v => str_eqb v value
  | None => false
  end.

(** [tag.has_attr(key)], and [key=True] in a search. *)
Definition has_attr (key : str) (n : node) : bool :=
  Extractor.is_some (get n key).

(** [tag.get(key, default)] *)
Definition get_or (n : node) (key default : str) : str :=
  match get n key with
  | Some v => v
  | None => default
  end.

(** [tag.string]: the only child when it is a string, the [string] of the
    only child when it is a tag, nothing otherwise. *)
Fixpoint tag_string (n : node) : option str :=
  match n with
  | Tag _ _ [child] =>
      match child with
      | NavigableString s => Some s
      | OtherString s => Some s
      | Tag _ _ _ => tag_string child
      end
  | _ => None
  end.

(** [string=lambda s: s and "Sort By" in s] *)
Definition says_sort_by (n : node) : bool :=
  match tag_string n with
  | Some [] => false
  | Some s => contains s (lit "Sort By")
  | None => false
  end.

(** [s.lstrip("#")] *)
Fixpoint lstrip_hash (s : str) : str :=
  match s with
  | c :: s' => if Ascii.eqb c "#"%char then lstrip_hash s' else s
  | [] => []
  end.

Definition of_option (o : option str) : json :=
  match o with
  | Some v => JStr v
  | None => JNull
  end.

(** ** The two patterns *)

(** [[^']+]: the longest run of characters other than the single quote,
    which must not be empty, and the rest. *)
Fixpoint not_quotes (s : str) : str * str :=
  match s with
  | c :: s' =>
      if Ascii.eqb c squote then ([], s)
      else let (run, rest) := not_quotes s' in (c :: run, rest)
  | [] => ([], [])
  end.

Definition group (s : str) : option (str * str) :=
  match not_quotes s with
  | ([], _) => None
  | (run, rest) => Some (run, rest)
  end.

(** [orderByField\('([^']+)','([^']+)'\)] tried at the start of [t]. *)
Definition order_by_here (t : str) : option (str * str) :=
  match Channel.expect (lit "orderByField('") t with
  | None => None
  | Some s1 =>
      match group s1 with
      | None => None
      | Some (field, s2) =>
          match Channel.expect (lit "','") s2 with
          | None => None
          | Some s3 =>
              match group s3 with
              | None => None
              | Some (order, s4) =>
                  match Channel.expect (lit "')") s4 with
                  | None => None
                  | Some _ => Some (field, order)
                  end
              end
          end
      end
  end.

(** [re.search] with that pattern: the groups of the leftmost match. *)
Fixpoint order_by_search (t : str) : option (str * str) :=
  match order_by_here t with
  | Some r => Some r
  | None =>
      match t with
      | [] => None
      | _ :: t' => order_by_search t'
      end
  end.

(** [\$\(\'#startdate\'\)\.val\('([^']+)'\)] tried at the start of [t]. *)
Definition start_date_here (t : str) : option str :=
  match Channel.expect (lit "$('#startdate').val('") t with
  | None => None
  | Some s1 =>
      match group s1 with
      | None => None
      | Some (value, s2) =>
          match Channel.expect (lit "')") s2 with
          | None => None
          | Some _ => Some value
          end
      end
  end.

Fixpoint start_date_search (t : str) : option str :=
  match start_date_here t with
  | Some r => Some r
  | None =>
      match t with
      | [] => None
      | _ :: t' => start_date_search t'
      end
  end.

(** ** The extraction *)

(** The panel of the sort options: the div whose id the header names. *)
Definition sort_panel (accordion : node) : option node :=
  match find accordion (lit "div")
             (fun n => has_class (lit "card-header") n && says_sort_by n) with
  | Some sort_header =>
      let collapse_id := lstrip_hash (get_or sort_header (lit "href") []) in
      find accordion (lit "div") (attr_is (lit "id") collapse_id)
  | None => None
  end.

(** The body of [for a in sort_div.find_all("a", href=True)]. *)
Definition sort_option (a : node) : outcome json :=
  let text := get_text [] a in
  match get a (lit "href") with
  | None => AttributeMissing (lit "href")   (* [a["href"]] *)
  | Some href =>
      match order_by_search href with
      | Some (field, order) =>
          Returns (JObj [(lit "text", JStr text); (lit "field", JStr field);
                         (lit "order", JStr order)])
      | None =>
          Returns (JObj [(lit "text", JStr text); (lit "href", JStr href)])
      end
  end.

Fixpoint sort_options (links : list node) (acc : list json)
  : outcome (list json) :=
  match links with
  | [] => Returns acc
  | a :: rest =>
      match sort_option a with
      | Returns entry => sort_options rest (acc ++ [entry])
      | UnboundLocalError => UnboundLocalError
      | AttributeMissing k => AttributeMissing k
      end
  end.

(** The body of [for btn in dropdown.find_all(...)], with [re] bound. *)
Definition date_option (btn : node) : list json :=
  let btn_label := get_text [] btn in
  let onclick := get_or btn (lit "onclick") [] in
  match start_date_search onclick with
  | Some start_date =>
      [JObj [(lit "label", JStr btn_label);
             (lit "start_date", JStr start_date)]]
  | None => []
  end.

(** The loop over the buttons: its first step reads the name [re], which
    is bound only when the [import] inside the sort block was executed. *)
Definition date_options (re_bound : bool) (buttons : list node)
  : outcome (list json) :=
  match buttons with
  | [] => Returns []
  | _ :: _ =>
      if re_bound then Returns (flat_map date_option buttons)
      else UnboundLocalError
  end.

Definition slider (filters_div : node) (controls : list (str * json))
  (slider_id label : string) : list (str * json) :=
  match find filters_div (lit "input") (attr_is (lit "id") (lit slider_id)) with
  | Some s =>
      dict_set controls (lit label)
        (JObj [(lit "type", JStr (lit "slider"));
               (lit "id", JStr (lit slider_id));
               (lit "default", of_option (get s (lit "value")))])
  | None => controls
  end.

Definition license_option (option : node) : json :=
  JObj [(lit "value", of_option (get option (lit "value")));
        (lit "text", JStr (get_text [] option));
        (lit "selected", JBool (has_attr (lit "selected") option))].

Definition date_input (key : string) (input : option node)
  (date_range : list (str * json)) : list (str * json) :=
  match input with
  | Some i =>
      dict_set date_range (lit key)
        (JObj [(lit "type", JStr (lit "date"));
               (lit "id", of_option (get i (lit "id")));
               (lit "default", of_option (get i (lit "value")))])
  | None => date_range
  end.

(** The block under [if filters_div:]. *)
Definition filter_controls (re_bound : bool) (filters_div : node)
  : outcome (list (str * json)) :=
  let controls : list (str * json) := [] in
  let controls :=
    match find filters_div (lit "input") (attr_is (lit "id") (lit "qtitle"))
    with
    | Some title_input =>
        dict_set controls (lit "Video Title")
          (JObj [(lit "type", JStr (lit "text"));
                 (lit "id", of_option (get title_input (lit "id")));
                 (lit "default",
                  JStr (get_or title_input (lit "value") []))])
    | None => controls
    end in
  let controls := slider filters_div controls "sliderviews" "Views" in
  let controls := slider filters_div controls "sliderlikes" "Likes" in
  let controls :=
    slider filters_div controls "sliderduration" "Video Duration" in
  let controls :=
    match find filters_div (lit "select")
               (attr_is (lit "id") (lit "licenseFilter")) with
    | Some license_select =>
        dict_set controls (lit "Licence")
          (JObj [(lit "type", JStr (lit "select"));
                 (lit "id", JStr (lit "licenseFilter"));
                 (lit "options",
                  JArr (map license_option
                            (find_all license_select (lit "option")
                                      (fun _ => true))))])
    | None => controls
    end in
  let date_range : list (str * json) := [] in
  let start_date :=
    find filters_div (lit "input") (attr_is (lit "id") (lit "startdate")) in
  let end_date :=
    find filters_div (lit "input") (attr_is (lit "id") (lit "enddate")) in
  let date_range := date_input "start_date" start_date date_range in
  let date_range := date_input "end_date" end_date date_range in
  let dropdown :=
    find filters_div (lit "div") (has_class (lit "dropdown-menu")) in
  let extra :=
    match dropdown with
    | Some d =>
        date_options re_bound
          (find_all d (lit "button") (has_class (lit "dateoptionselect")))
    | None => Returns []
    end in
  match extra with
  | Returns extra_date_options =>
      let date_range :=
        dict_set date_range (lit "extra_options") (JArr extra_date_options) in
      Returns (dict_set controls (lit "Date Range") (JObj date_range))
  | UnboundLocalError => UnboundLocalError
  | AttributeMissing k => AttributeMissing k
  end.

(** [FilterExtractor.extract], on the tree of the page. *)
Definition extract (soup : node) : outcome json :=
  match find soup (lit "div") (attr_is (lit "id") (lit "accordion")) with
  | None => Returns (JObj [])
  | Some accordion =>
      let sorted :=
        match sort_panel accordion with
        | Some sort_div =>
            (true, sort_options
                     (find_all sort_div (lit "a") (has_attr (lit "href"))) [])
        | None => (false, Returns [])
        end in
      match sorted with
      | (re_bound, Returns sort_by_options) =>
          let filters_data :=
            dict_set [] (lit "Sort By") (JArr sort_by_options) in
          let controls :=
            match find accordion (lit "div")
                       (attr_is (lit "id") (lit "collapseZero")) with
            | Some filters_div => filter_controls re_bound filters_div
            | None => Returns []
            end in
          match controls with
          | Returns filters_controls =>
              Returns (JObj (dict_set filters_data (lit "Filters")
                                      (JObj filters_controls)))
          | UnboundLocalError => UnboundLocalError
          | AttributeMissing k => AttributeMissing k
          end
      | (_, UnboundLocalError) => UnboundLocalError
      | (_, AttributeMissing k) => AttributeMissing k
      end
  end.

(** ** Vocabulary for the options *)

(** The buttons of the date shortcuts in the filter panel. *)
Definition date_buttons (filters_div : node) : list node :=
  match find filters_div (lit "div") (has_class (lit "dropdown-menu")) with
  | Some dropdown =>
      find_all dropdown (lit "button") (has_class (lit "dateoptionselect"))
  | None => []
  end.

(** A text a group of the patterns can match: not empty, and without a
    single quote. *)
Definition plain (t : str) : Prop :=
  t <> [] /\ forallb (fun c => negb (Ascii.eqb c squote)) t = true.

(** The text of a call [orderByField('field','order')]. *)
Definition order_call (field order : str) : str :=
  lit "orderByField('" ++ field ++ lit "','" ++ order ++ lit "')".

(** The text of a call [$('#startdate').val('value')]. *)
Definition start_date_call (value : str) : str :=
  lit "$('#startdate').val('" ++ value ++ lit "')".

End FilterExtractor.

(* ================================================================== *)
(** * More concrete pages *)
(* ================================================================== *)

Module FilterPages.
Import Bs4.

Definition div (attrs : list (str * str)) (children : list node) : node :=
  Tag (lit "div") attrs children.

Definition link (href text : string) : node :=
  Tag (lit "a") [(lit "href", lit href)] [NavigableString (lit text)].

Definition sort_header : node :=
  div [(lit "class", lit "card-header"); (lit "href", lit "#collapseSort")]
      [NavigableString (lit " Sort By ")].

Definition sort_div : node :=
  div [(lit "id", lit "collapseSort")]
      [link "javascript:orderByField('viewcount','desc')" "Most viewed";
       link "/help" "Help"].

Definition date_button : node :=
  Tag (lit "button")
      [(lit "class", lit "dropdown-item dateoptionselect");
       (lit "onclick", lit "$('#startdate').val('2024-01-01');go()")]
      [NavigableString (lit "This year")].

Definition filters_div : node :=
  div [(lit "id", lit "collapseZero")]
      [Tag (lit "input") [(lit "id", lit "qtitle")] [];
       Tag (lit "input") [(lit "id", lit "sliderviews");
                          (lit "value", lit "0,100")] [];
       Tag (lit "select") [(lit "id", lit "licenseFilter")]
           [Tag (lit "option") [(lit "value", lit "0"); (lit "selected", [])]
                [NavigableString (lit "Any")];
            Tag (lit "option") [(lit "value", lit "2")]
                [NavigableString (lit "Creative Commons")]];
       Tag (lit "input") [(lit "id", lit "startdate");
                          (lit "value", lit "2020-01-01")] [];
       div [(lit "class", lit "dropdown-menu")] [date_button]].

(** A page with the sort panel and the filter panel. *)
Definition full_page : node :=
  Extractor.doc [div [(lit "id", lit "accordion")]
                     [sort_header; sort_div; filters_div]].

(** The same page without the sort panel. *)
Definition no_sort_page : node :=
  Extractor.doc [div [(lit "id", lit "accordion")] [filters_div]].

End FilterPages.

(* ================================================================== *)
(** * More vocabulary and concrete data *)
(* ================================================================== *)

Module Wording.
Import Extractor Urllib.

(** A word: a text that is not empty and holds no whitespace. *)
Definition word (w : str) : Prop :=
  w <> [] /\ forallb (fun c => negb (is_space c)) w = true.

(** The upload date of the badge loop, when set, holds a letter. *)
Definition dated (vars : badge_vars) : Prop :=
  match vars with
  | (_, _, Some d) => has_letter d = true
  | (_, _, None) => True
  end.

(** What [quote] writes for one character when the slash is safe. *)
Definition piece (c : ascii) : str :=
  flat_map (fun b => if always_safe b || existsb (Ascii.eqb b) (lit "/")
                     then [b] else percent b)
           (utf8_char c).

End Wording.

Module MorePages.
Import Bs4.

(** A card with a link to the video, a date badge and a scroll text that
    spans two lines. *)
Definition linked_card : node :=
  Tag (lit "div") [(lit "id", lit "vcard3")]
      [Tag (lit "a") [(lit "href", lit "https://www.youtube.com/watch?v=abc")]
           [NavigableString (lit "watch")];
       Pages.text_badge "Jan 1, 2020";
       Tag (lit "div") [(lit "class", lit "scroll-box")]
           [NavigableString (lit " first  line " ++ [ascii_of_nat 10]
                             ++ lit " second line ")]].

Definition linked_page : node := Extractor.doc [linked_card].

Definition linked_record : Video.VideoInfo :=
  Video.mkVideoInfo (Some (lit "vcard3")) None None None
                    (Some (lit "https://www.youtube.com/watch?v=abc"))
                    None None None None (Some (lit "Jan 1, 2020")) None
                    (Some (lit "first line second line")).

(** A channel page whose identifier is null, and a server that answers
    every request with it. *)
Definition null_id_page : str :=
  jq "<script>var ytInitialData = {`metadata`: {`channelMetadataRenderer`: {`externalId`: null}}};</script>".

Definition null_id_server (n : nat) (url : str) : Channel.response :=
  Channel.mkResponse 200 null_id_page.

(** A site whose third request is answered with status 503. *)
Definition failing_site (w : nat) (url : str) : Client.response :=
  if w <? 2 then Client.mkResponse 200 Pages.two_cards_page
  else Client.mkResponse 503 Pages.empty_page.

(** A date parser that knows two dates. *)
Definition two_dates_parser (text : str) : result Filters.date :=
  if str_eqb text (lit "2020-01-05") then Ok (Filters.mkDate 2020 1 5)
  else if str_eqb text (lit "2021-12-31") then Ok (Filters.mkDate 2021 12 31)
  else Raise (ValueError (lit "Invalid isoformat string")).

End MorePages.

(* ================================================================== *)
(** * Properties of channel.py *)
(* ================================================================== *)

Module ChannelFacts.
Import Channel.

(** ** The pattern matcher against the shape of an assignment *)

Lemma ascii_eqb_true (a b : ascii) : Ascii.eqb a b = true -> a = b.
Proof. apply Ascii.eqb_eq. Qed.

Lemma expect_app (p r : str) : expect p (p ++ r) = Some r.
Proof.
  induction p as [|x p IH]; simpl.
  - destruct r; reflexivity.
  - rewrite Ascii.eqb_refl. exact IH.
Qed.

Lemma expect_some (p s r : str) : expect p s = Some r -> s = p ++ r.
Proof.
  revert s. induction p as [|x p IH]; intros s H.
  - destruct s; simpl in H; inversion H; reflexivity.
  - destruct s as [|y s]; simpl in H; [discriminate|].
    destruct (Ascii.eqb x y) eqn:E; [|discriminate].
    apply ascii_eqb_true in E. subst y. simpl. f_equal. auto.
Qed.

Lemma skip_spaces_app (w r : str) :
  Assignment.all_space w = true ->
  skip_spaces (w ++ r) = skip_spaces r.
Proof.
  induction w as [|c w IH]; simpl; intros H; [reflexivity|].
  apply andb_prop in H. destruct H as [Hc Hw]. rewrite Hc. auto.
Qed.

Lemma skip_spaces_stop (c : ascii) (r : str) :
  is_space c = false -> skip_spaces (c :: r) = c :: r.
Proof. intros H. simpl. rewrite H. reflexivity. Qed.

Lemma skip_spaces_split (s : str) :
  exists w, Assignment.all_space w = true /\ s = w ++ skip_spaces s.
Proof.
  induction s as [|c s [w [Hw Hs]]].
  - exists []. split; reflexivity.
  - simpl. destruct (is_space c) eqn:E.
    + exists (c :: w). simpl. rewrite E, Hw. split; [reflexivity|].
      f_equal. exact Hs.
    + exists []. split; reflexivity.
Qed.

Lemma quote_not_space (q : ascii) : is_quote q = true -> is_space q = false.
Proof.
  unfold is_quote. intros H. apply orb_prop in H.
  destruct H as [H|H]; apply ascii_eqb_true in H; subst q; reflexivity.
Qed.

Lemma match_assign_complete (w3 w4 rest : str) :
  Assignment.all_space w3 = true -> Assignment.all_space w4 = true ->
  match_assign (w3 ++ lit "=" ++ w4 ++ "{"%char :: rest)
  = Some ("{"%char :: rest).
Proof.
  intros H3 H4. unfold match_assign.
  rewrite skip_spaces_app by assumption.
  change (lit "=" ++ w4 ++ "{"%char :: rest)
    with ("="%char :: w4 ++ "{"%char :: rest).
  rewrite skip_spaces_stop by reflexivity.
  change (expect (lit "=") ("="%char :: w4 ++ "{"%char :: rest))
    with (expect [] (w4 ++ "{"%char :: rest)).
  replace (expect [] (w4 ++ "{"%char :: rest))
    with (Some (w4 ++ "{"%char :: rest)) by (destruct w4; reflexivity).
  cbn [opt_bind]. rewrite skip_spaces_app by assumption.
  rewrite skip_spaces_stop by reflexivity. reflexivity.
Qed.

Lemma match_assign_sound (s g : str) :
  match_assign s = Some g ->
  exists w3 w4 rest,
    Assignment.all_space w3 = true /\ Assignment.all_space w4 = true
    /\ g = "{"%char :: rest /\ s = w3 ++ lit "=" ++ w4 ++ g.
Proof.
  unfold match_assign. intros H.
  destruct (skip_spaces_split s) as [w3 [H3 Hs]].
  destruct (expect (lit "=") (skip_spaces s)) as [s1|] eqn:E1;
    [|discriminate].
  cbn [opt_bind] in H. apply expect_some in E1.
  destruct (skip_spaces_split s1) as [w4 [H4 Hs1]].
  destruct (skip_spaces s1) as [|c r] eqn:E2; [discriminate|].
  destruct (Ascii.eqb c "{"%char) eqn:Ec; [|discriminate].
  apply ascii_eqb_true in Ec. subst c. inversion H; subst g.
  exists w3, w4, r. repeat split; try assumption.
  rewrite Hs at 1. rewrite E1. rewrite Hs1 at 1. reflexivity.
Qed.

Lemma match_window_complete (w1 : str) (q1 q2 : ascii) (w2 r : str) :
  Assignment.all_space w1 = true -> is_quote q1 = true ->
  is_quote q2 = true -> Assignment.all_space w2 = true ->
  match_window_form
    (lit "window[" ++ w1 ++ q1 :: lit "ytInitialData" ++ q2 :: w2
       ++ lit "]" ++ r) = Some r.
Proof.
  intros H1 Hq1 Hq2 H2. unfold match_window_form.
  rewrite expect_app. cbn [opt_bind].
  rewrite skip_spaces_app by assumption.
  rewrite skip_spaces_stop by (apply quote_not_space; assumption).
  unfold expect_quote at 1. rewrite Hq1. cbn [opt_bind].
  rewrite expect_app. cbn [opt_bind].
  unfold expect_quote. rewrite Hq2. cbn [opt_bind].
  rewrite skip_spaces_app by assumption.
  change (lit "]" ++ r) with ("]"%char :: r).
  rewrite skip_spaces_stop by reflexivity.
  simpl. destruct r; reflexivity.
Qed.

Lemma expect_quote_some (s r : str) :
  expect_quote s = Some r -> exists q, is_quote q = true /\ s = q :: r.
Proof.
  destruct s as [|c s]; simpl; [discriminate|].
  destruct (is_quote c) eqn:E; [|discriminate].
  intros H. inversion H; subst. eauto.
Qed.

Lemma match_window_sound (s r : str) :
  match_window_form s = Some r ->
  exists w1 q1 q2 w2,
    Assignment.all_space w1 = true /\ is_quote q1 = true
    /\ is_quote q2 = true /\ Assignment.all_space w2 = true
    /\ s = lit "window[" ++ w1 ++ q1 :: lit "ytInitialData" ++ q2 :: w2
             ++ lit "]" ++ r.
Proof.
  unfold match_window_form. intros H.
  destruct (expect (lit "window[") s) as [s1|] eqn:E1; [|discriminate].
  cbn [opt_bind] in H. apply expect_some in E1.
  destruct (skip_spaces_split s1) as [w1 [H1 Hs1]].
  destruct (expect_quote (skip_spaces s1)) as [s2|] eqn:E2; [|discriminate].
  cbn [opt_bind] in H. apply expect_quote_some in E2.
  destruct E2 as [q1 [Hq1 E2]].
  destruct (expect (lit "ytInitialData") s2) as [s3|] eqn:E3;
    [|discriminate].
  cbn [opt_bind] in H. apply expect_some in E3.
  destruct (expect_quote s3) as [s4|] eqn:E4; [|discriminate].
  cbn [opt_bind] in H. apply expect_quote_some in E4.
  destruct E4 as [q2 [Hq2 E4]].
  destruct (skip_spaces_split s4) as [w2 [H2 Hs4]].
  apply expect_some in H.
  exists w1, q1, q2, w2. repeat split; try assumption.
  rewrite E1. rewrite Hs1 at 1. rewrite E2, E3, E4.
  rewrite Hs4 at 1. rewrite H. reflexivity.
Qed.

Lemma length_suffix (a g : str) : length (a ++ g) - length g = length a.
Proof. rewrite length_app. lia. Qed.

(** At a position where an assignment starts, the pattern matches and group
    1 starts right after the head. *)
Lemma match_here_complete (h : Assignment.head) (rest : str) :
  Assignment.wf h = true ->
  match_here (Assignment.render h ++ "{"%char :: rest)
  = Some (length (Assignment.render h)).
Proof.
  intros Hwf. set (g := "{"%char :: rest).
  rewrite <- (length_suffix (Assignment.render h) g).
  unfold match_here. destruct h as [w1 q1 q2 w2 w3 w4|w3 w4].
  - simpl in Hwf. repeat (apply andb_prop in Hwf; destruct Hwf as [Hwf ?]).
    assert (E : Assignment.render (Assignment.Window w1 q1 q2 w2 w3 w4) ++ g
                = lit "window[" ++ w1 ++ q1 :: lit "ytInitialData" ++ q2 ::
                    w2 ++ lit "]" ++ (w3 ++ lit "=" ++ w4 ++ g)).
    { unfold Assignment.render. repeat (rewrite <- app_assoc; simpl).
      reflexivity. }
    assert (M : opt_bind (match_window_form
                (Assignment.render (Assignment.Window w1 q1 q2 w2 w3 w4) ++ g))
                match_assign = Some g).
    { rewrite E. rewrite match_window_complete by assumption.
      cbn [opt_bind]. unfold g. apply match_assign_complete; assumption. }
    rewrite M. reflexivity.
  - simpl in Hwf. apply andb_prop in Hwf. destruct Hwf as [H3 H4].
    assert (E : Assignment.render (Assignment.Bare w3 w4) ++ g
                = lit "ytInitialData" ++ (w3 ++ lit "=" ++ w4 ++ g)).
    { unfold Assignment.render. repeat (rewrite <- app_assoc; simpl).
      reflexivity. }
    assert (M1 : opt_bind (match_window_form
                (Assignment.render (Assignment.Bare w3 w4) ++ g))
                match_assign = None).
    { rewrite E. reflexivity. }
    assert (M2 : opt_bind (match_bare_form
                (Assignment.render (Assignment.Bare w3 w4) ++ g))
                match_assign = Some g).
    { rewrite E. unfold match_bare_form. rewrite expect_app.
      cbn [opt_bind]. unfold g. apply match_assign_complete; assumption. }
    rewrite M1, M2. reflexivity.
Qed.

(** Where the pattern matches, an assignment starts. *)
Lemma match_here_sound (t : str) (k : nat) :
  match_here t = Some k ->
  exists h rest,
    Assignment.wf h = true /\ t = Assignment.render h ++ "{"%char :: rest
    /\ k = length (Assignment.render h).
Proof.
  unfold match_here. intros H.
  destruct (opt_bind (match_window_form t) match_assign) as [g|] eqn:E1.
  - inversion H; subst k; clear H.
    destruct (match_window_form t) as [r|] eqn:Ew; [|discriminate].
    cbn [opt_bind] in E1.
    apply match_window_sound in Ew.
    destruct Ew as (w1 & q1 & q2 & w2 & H1 & Hq1 & Hq2 & H2 & Et).
    apply match_assign_sound in E1.
    destruct E1 as (w3 & w4 & rest & H3 & H4 & Eg & Er).
    exists (Assignment.Window w1 q1 q2 w2 w3 w4), rest.
    assert (Et' : t = Assignment.render (Assignment.Window w1 q1 q2 w2 w3 w4)
                        ++ g).
    { rewrite Et, Er. unfold Assignment.render.
      repeat (rewrite <- app_assoc; simpl). reflexivity. }
    split; [|split].
    + simpl. rewrite H1, Hq1, Hq2, H2, H3, H4. reflexivity.
    + rewrite Et', Eg. reflexivity.
    + rewrite Et' at 1. apply length_suffix.
  - destruct (opt_bind (match_bare_form t) match_assign) as [g|] eqn:E2;
      [|discriminate].
    inversion H; subst k; clear H.
    destruct (match_bare_form t) as [r|] eqn:Eb; [|discriminate].
    cbn [opt_bind] in E2. apply expect_some in Eb.
    apply match_assign_sound in E2.
    destruct E2 as (w3 & w4 & rest & H3 & H4 & Eg & Er).
    exists (Assignment.Bare w3 w4), rest.
    assert (Et' : t = Assignment.render (Assignment.Bare w3 w4) ++ g).
    { rewrite Eb, Er. unfold Assignment.render.
      repeat (rewrite <- app_assoc; simpl). reflexivity. }
    split; [|split].
    + simpl. rewrite H3, H4. reflexivity.
    + rewrite Et', Eg. reflexivity.
    + rewrite Et' at 1. apply length_suffix.
Qed.

(** ** [re.search] finds the leftmost assignment *)

Lemma search_from_eq (i : nat) (t : str) :
  search_from i t =
  match match_here t with
  | Some k => Some (i + k)
  | None => match t with [] => None | _ :: t' => search_from (S i) t' end
  end.
Proof. destruct t; reflexivity. Qed.

Lemma search_from_found (pre : str) :
  forall (i : nat) (h : Assignment.head) (rest : str),
    Assignment.wf h = true ->
    Assignment.leftmost (pre ++ Assignment.render h ++ "{"%char :: rest) pre ->
    search_from i (pre ++ Assignment.render h ++ "{"%char :: rest)
    = Some (i + (length pre + length (Assignment.render h))).
Proof.
  induction pre as [|c pre IH]; intros i h rest Hwf Hleft.
  - simpl app. rewrite search_from_eq.
    rewrite match_here_complete by assumption. reflexivity.
  - simpl app.
    set (t := pre ++ Assignment.render h ++ "{"%char :: rest) in *.
    rewrite search_from_eq. destruct (match_here (c :: t)) as [k|] eqn:M.
    + exfalso. apply match_here_sound in M.
      destruct M as (h' & rest' & Hwf' & Et & _).
      specialize (Hleft [] h' rest'). simpl in Hleft.
      assert (S (length pre) <= 0); [|lia].
      apply Hleft. split; assumption.
    + unfold t at 1. rewrite IH; [f_equal; simpl; lia|assumption|].
      intros pre' h' rest' [Hwf' Et].
      specialize (Hleft (c :: pre') h' rest'). simpl in Hleft.
      assert (S (length pre) <= S (length pre')); [|lia].
      apply Hleft. split; [assumption|]. simpl. f_equal. exact Et.
Qed.

Lemma search_from_none (t : str) :
  forall i, Assignment.absent t -> search_from i t = None.
Proof.
  induction t as [|c t IH]; intros i Habs; rewrite search_from_eq.
  - destruct (match_here []) as [k|] eqn:M; [|reflexivity].
    exfalso. apply match_here_sound in M.
    destruct M as (h & rest & Hwf & Et & _).
    apply (Habs [] h rest). split; assumption.
  - destruct (match_here (c :: t)) as [k|] eqn:M.
    + exfalso. apply match_here_sound in M.
      destruct M as (h & rest & Hwf & Et & _).
      apply (Habs [] h rest). split; assumption.
    + apply IH. intros pre h rest [Hwf Et].
      apply (Habs (c :: pre) h rest). split; [assumption|].
      rewrite Et. reflexivity.
Qed.

Lemma search_from_some (t : str) :
  forall i n, search_from i t = Some n ->
    exists pre h rest,
      Assignment.occurs t pre h rest /\ Assignment.leftmost t pre
      /\ n = i + (length pre + length (Assignment.render h)).
Proof.
  induction t as [|c t IH]; intros i n H; rewrite search_from_eq in H.
  - destruct (match_here []) as [k|] eqn:M; [|discriminate].
    inversion H; subst n. apply match_here_sound in M.
    destruct M as (h & rest & Hwf & Et & Ek).
    exists [], h, rest. repeat split; try assumption.
    + intros ? ? ? ?. simpl. lia.
    + simpl. lia.
  - destruct (match_here (c :: t)) as [k|] eqn:M.
    + inversion H; subst n. apply match_here_sound in M.
      destruct M as (h & rest & Hwf & Et & Ek).
      exists [], h, rest. repeat split; try assumption.
      * intros ? ? ? ?. simpl. lia.
      * simpl. lia.
    + apply IH in H. destruct H as (pre & h & rest & [Hwf Et] & Hl & En).
      exists (c :: pre), h, rest. repeat split; try assumption.
      * rewrite Et. reflexivity.
      * intros pre' h' rest' [Hwf' Et'].
        destruct pre' as [|c' pre'].
        -- exfalso. simpl in Et'.
           rewrite Et', match_here_complete in M by assumption.
           discriminate.
        -- simpl in Et'. inversion Et'. simpl.
           apply le_n_S. apply (Hl pre' h' rest'). split; assumption.
      * simpl. lia.
Qed.

Lemma search_from_none_inv (p : str) :
  forall i t, search_from i (p ++ t) = None -> match_here t = None.
Proof.
  induction p as [|x p IHp]; intros i t Hs; rewrite search_from_eq in Hs.
  - simpl in Hs. destruct (match_here t); [discriminate|reflexivity].
  - simpl app in Hs. destruct (match_here (x :: p ++ t)); [discriminate|].
    eapply IHp. exact Hs.
Qed.

(** [re.search] as a decision of [absent]. *)
Lemma re_search_none_iff (html : str) :
  re_search html = None <-> Assignment.absent html.
Proof.
  split.
  - intros H pre h rest [Hwf Et]. unfold re_search in H.
    rewrite Et in H. apply search_from_none_inv in H.
    rewrite match_here_complete in H by assumption. discriminate.
  - apply search_from_none.
Qed.

(** ** The brace scan over JSON text *)

Lemma steps_nil (st : scanner) : steps [] st st.
Proof. intros r i e. simpl. f_equal. lia. Qed.

Lemma steps_app (t1 t2 : str) (st1 st2 st3 : scanner) :
  steps t1 st1 st2 -> steps t2 st2 st3 -> steps (t1 ++ t2) st1 st3.
Proof.
  intros H1 H2 r i e. rewrite <- app_assoc, H1, H2, length_app.
  f_equal. lia.
Qed.

Lemma steps_one (c : ascii) (st st' : scanner) :
  scan_char st c = (st', false) -> steps [c] st st'.
Proof.
  intros H r i e. simpl. rewrite H. f_equal. lia.
Qed.

Lemma steps_cons (c : ascii) (t : str) (st1 st2 st3 : scanner) :
  scan_char st1 c = (st2, false) -> steps t st2 st3 ->
  steps (c :: t) st1 st3.
Proof.
  intros H1 H2. change (c :: t) with ([c] ++ t).
  eapply steps_app; [apply steps_one; exact H1|exact H2].
Qed.

Lemma passes_nil (n : Z) : passes [] n.
Proof. intros q. exists q. apply steps_nil. Qed.

Lemma passes_app (t1 t2 : str) (n : Z) :
  passes t1 n -> passes t2 n -> passes (t1 ++ t2) n.
Proof.
  intros H1 H2 q. destruct (H1 q) as [q1 S1]. destruct (H2 q1) as [q2 S2].
  exists q2. eapply steps_app; eassumption.
Qed.

Lemma scan_char_neutral (c : ascii) (n : Z) (q : str) :
  neutral c = true -> scan_char (outside n q) c = (outside n q, false).
Proof.
  unfold neutral. intros H.
  apply andb_prop in H. destruct H as [H H3].
  apply andb_prop in H. destruct H as [H1 H2].
  apply negb_true_iff in H1, H2, H3.
  unfold scan_char, outside. simpl. rewrite H1, H2, H3. reflexivity.
Qed.

Lemma steps_neutral (t : str) (n : Z) (q : str) :
  forallb neutral t = true -> steps t (outside n q) (outside n q).
Proof.
  induction t as [|c t IH]; intros H.
  - apply steps_nil.
  - simpl in H. apply andb_prop in H. destruct H as [Hc Ht].
    eapply steps_cons; [apply scan_char_neutral; exact Hc|auto].
Qed.

Lemma passes_neutral (t : str) (n : Z) :
  forallb neutral t = true -> passes t n.
Proof. intros H q. exists q. apply steps_neutral. exact H. Qed.

(** *** Strings *)

Lemma hex_is_plain (c : ascii) :
  JsonText.is_hex c = true ->
  Ascii.eqb c backslash = false /\ Ascii.eqb c dquote = false.
Proof.
  destruct c as [[|] [|] [|] [|] [|] [|] [|] [|]];
    vm_compute; intros H; try discriminate H; split; reflexivity.
Qed.

Lemma scan_char_plain (c : ascii) (n : Z) :
  Ascii.eqb c backslash = false -> Ascii.eqb c dquote = false ->
  scan_char (inside n [dquote] false) c = (inside n [dquote] false, false).
Proof.
  intros H1 H2. unfold scan_char, inside. simpl. rewrite H1, H2. reflexivity.
Qed.

Lemma steps_escape (c : ascii) (n : Z) :
  steps [backslash; c] (inside n [dquote] false) (inside n [dquote] false).
Proof.
  eapply steps_cons; [reflexivity|]. apply steps_one. reflexivity.
Qed.

Lemma steps_jchar (c : JsonText.jchar) (n : Z) :
  JsonText.wf_jchar c = true ->
  steps (JsonText.render_jchar c)
        (inside n [dquote] false) (inside n [dquote] false).
Proof.
  intros H. destruct c; simpl JsonText.render_jchar;
    try apply steps_escape.
  - simpl in H. apply andb_prop in H. destruct H as [H _].
    apply andb_prop in H. destruct H as [H1 H2].
    apply negb_true_iff in H1, H2.
    apply steps_one. apply scan_char_plain; assumption.
  - simpl in H. repeat (apply andb_prop in H; destruct H as [H ?]).
    change [backslash; "u"%char; h1; h2; h3; h4]
      with ([backslash; "u"%char] ++ [h1] ++ [h2] ++ [h3] ++ [h4]).
    eapply steps_app; [apply steps_escape|].
    repeat (eapply steps_app;
            [apply steps_one; apply scan_char_plain;
             apply hex_is_plain; assumption|]).
    apply steps_one; apply scan_char_plain; apply hex_is_plain; assumption.
Qed.

Lemma steps_string_body (s : JsonText.jstring) (n : Z) :
  forallb JsonText.wf_jchar s = true ->
  steps (concat (map JsonText.render_jchar s))
        (inside n [dquote] false) (inside n [dquote] false).
Proof.
  induction s as [|c s IH]; intros H.
  - apply steps_nil.
  - simpl in H. apply andb_prop in H. destruct H as [Hc Hs]. simpl.
    eapply steps_app; [apply steps_jchar; exact Hc|auto].
Qed.

(** A string literal is skipped as a whole, whatever it holds: braces,
    quotes of the other kind, semicolons, escaped quotes. *)
Lemma passes_string (s : JsonText.jstring) (n : Z) :
  forallb JsonText.wf_jchar s = true -> passes (JsonText.render_string s) n.
Proof.
  intros H q. exists [dquote]. unfold JsonText.render_string.
  eapply steps_cons; [reflexivity|].
  eapply steps_app; [apply steps_string_body; exact H|].
  apply steps_one. reflexivity.
Qed.

(** *** Tokens without quotes and braces *)

Lemma neutral_ws (w : JsonText.ws) :
  forallb neutral (JsonText.render_ws w) = true.
Proof.
  induction w as [|c w IH]; [reflexivity|].
  simpl. rewrite IH. destruct c; reflexivity.
Qed.

Lemma neutral_literal (l : JsonText.literal) :
  forallb neutral (JsonText.render_literal l) = true.
Proof. destruct l; reflexivity. Qed.

Lemma neutral_digits (u : uint) :
  forallb neutral (list_ascii_of_string (NilEmpty.string_of_uint u)) = true.
Proof. induction u; simpl; try rewrite IHu; reflexivity. Qed.

Lemma neutral_digits0 (u : uint) :
  forallb neutral (list_ascii_of_string (NilZero.string_of_uint u)) = true.
Proof.
  destruct u; try reflexivity;
    unfold NilZero.string_of_uint; apply neutral_digits.
Qed.

Lemma neutral_number (n : JsonText.number) :
  forallb neutral (JsonText.render_number n) = true.
Proof.
  unfold JsonText.render_number. repeat rewrite forallb_app.
  repeat (apply andb_true_intro; split).
  - destruct (JsonText.minus n); reflexivity.
  - apply neutral_digits0.
  - destruct (JsonText.frac_part n); [|reflexivity].
    simpl. apply neutral_digits.
  - destruct (JsonText.exp_part n) as [[[cap sign] u]|]; [|reflexivity].
    repeat rewrite forallb_app. repeat (apply andb_true_intro; split).
    + destruct cap; reflexivity.
    + destruct sign as [[|]|]; reflexivity.
    + apply neutral_digits.
Qed.

Lemma passes_ws (w : JsonText.ws) (n : Z) : passes (JsonText.render_ws w) n.
Proof. apply passes_neutral, neutral_ws. Qed.

(** *** Braces *)

Lemma passes_braces (t : str) (n : Z) :
  (1 <= n)%Z -> passes t (n + 1) ->
  passes (lit "{" ++ t ++ lit "}") n.
Proof.
  intros Hn Ht q. destruct (Ht q) as [q' S']. exists q'.
  change (lit "{" ++ t ++ lit "}") with ("{"%char :: t ++ ["}"%char]).
  eapply steps_cons; [reflexivity|].
  eapply steps_app; [exact S'|].
  apply steps_one. unfold scan_char, outside. simpl.
  replace (n + 1 - 1)%Z with n by lia.
  replace (n =? 0)%Z with false; [reflexivity|].
  symmetry. apply Z.eqb_neq. lia.
Qed.

Lemma passes_brackets (t : str) (n : Z) :
  passes t n -> passes (lit "[" ++ t ++ lit "]") n.
Proof.
  intros Ht. apply passes_app; [apply passes_neutral; reflexivity|].
  apply passes_app; [exact Ht|apply passes_neutral; reflexivity].
Qed.

(** *** Values *)

Lemma passes_value_mut :
  (forall v, JsonText.wf v = true ->
     forall n, (1 <= n)%Z -> passes (JsonText.render v) n)
  /\ (forall es, JsonText.wf_elements es = true ->
     forall n, (1 <= n)%Z -> passes (JsonText.render_elements es) n)
  /\ (forall ms, JsonText.wf_members ms = true ->
     forall n, (1 <= n)%Z -> passes (JsonText.render_members ms) n).
Proof.
  apply JsonText.value_mutind;
    cbn [JsonText.render JsonText.render_elements JsonText.render_members
         JsonText.wf JsonText.wf_elements JsonText.wf_members]; intros.
  - apply passes_neutral, neutral_literal.
  - apply passes_neutral, neutral_number.
  - apply passes_string; assumption.
  - apply passes_brackets, passes_ws.
  - apply passes_brackets; auto.
  - apply passes_braces; [assumption|apply passes_ws].
  - apply passes_braces; [assumption|]. apply H; [assumption|lia].
  - repeat apply passes_app; auto using passes_ws.
  - apply andb_prop in H1. destruct H1.
    repeat apply passes_app; auto using passes_ws.
    apply passes_neutral; reflexivity.
  - apply andb_prop in H0. destruct H0.
    repeat apply passes_app; auto using passes_ws, passes_string.
    apply passes_neutral; reflexivity.
  - apply andb_prop in H1. destruct H1 as [H1 ?].
    apply andb_prop in H1. destruct H1.
    repeat apply passes_app; auto using passes_ws, passes_string;
      apply passes_neutral; reflexivity.
Qed.

Lemma object_inner (o : JsonText.value) :
  JsonText.is_object o = true -> JsonText.wf o = true ->
  exists t, JsonText.render o = "{"%char :: t ++ ["}"%char] /\ passes t 1.
Proof.
  destruct o; simpl; try discriminate; intros _ Hwf.
  - exists (JsonText.render_ws w). split; [reflexivity|apply passes_ws].
  - exists (JsonText.render_members ms). split; [reflexivity|].
    apply passes_value_mut; [assumption|lia].
Qed.

(** From the opening brace of a JSON object the loop breaks on the brace
    that closes it. *)
Lemma scan_object (o : JsonText.value) (r : str) (i e : nat) :
  JsonText.is_object o = true -> JsonText.wf o = true ->
  scan_loop (JsonText.render o ++ r) i scanner_init e
  = i + length (JsonText.render o).
Proof.
  intros Ho Hwf. destruct (object_inner o Ho Hwf) as [t [Et Pt]].
  rewrite Et. destruct (Pt []) as [q' S'].
  change (("{"%char :: t ++ ["}"%char]) ++ r)
    with ("{"%char :: (t ++ ["}"%char]) ++ r).
  rewrite <- app_assoc. unfold scan_loop at 1. fold scan_loop.
  change (scan_char scanner_init "{"%char) with (outside 1 [], false).
  cbv iota beta. rewrite S'. simpl. rewrite length_app. simpl. lia.
Qed.

Lemma skipn_exact (a b : str) : skipn (length a) (a ++ b) = b.
Proof.
  rewrite skipn_app, skipn_all, Nat.sub_diag. reflexivity.
Qed.

Lemma slice_middle (pre t r : str) :
  slice (length pre) (length pre + length t) (pre ++ t ++ r) = t.
Proof.
  unfold slice. rewrite skipn_app, skipn_all, Nat.sub_diag. simpl.
  replace (length pre + length t - length pre) with (length t) by lia.
  rewrite firstn_app, firstn_all, Nat.sub_diag. simpl. apply app_nil_r.
Qed.

(** ** Checks used to run the statements on concrete pages *)

Lemma leftmost_check (html pre : str) :
  no_match_before (length pre) html = true -> Assignment.leftmost html pre.
Proof.
  unfold no_match_before. intros H pre' h' rest' [Hwf Et].
  destruct (Nat.le_gt_cases (length pre) (length pre')) as [Hle|Hlt];
    [exact Hle|exfalso].
  rewrite forallb_forall in H.
  specialize (H (length pre')).
  rewrite Et in H at 1. rewrite skipn_app, skipn_all, Nat.sub_diag in H.
  simpl in H. rewrite match_here_complete in H by assumption.
  assert (false = true); [|discriminate].
  apply H. apply in_seq. lia.
Qed.

Lemma absent_check (html : str) :
  re_search html = None -> Assignment.absent html.
Proof. apply re_search_none_iff. Qed.

Lemma unclosed_check (text : str) :
  closes_nowhere text = true -> unclosed text.
Proof.
  unfold closes_nowhere, unclosed. intros H n Hn.
  rewrite forallb_forall in H. specialize (H n).
  assert (Hin : In n (seq 1 (length text))) by (apply in_seq; lia).
  apply H in Hin. apply negb_true_iff in Hin. apply Z.eqb_neq. exact Hin.
Qed.

(** ** An unclosed object *)

Lemma scan_char_stop (st st' : scanner) (c : ascii) :
  scan_char st c = (st', true) -> brace_count st' = 0%Z.
Proof.
  unfold scan_char.
  destruct (in_string st).
  - destruct (escape st); [intros H; inversion H|].
    destruct (Ascii.eqb c backslash); [intros H; inversion H|].
    destruct (str_eqb [c] (string_char st)); intros H; inversion H.
  - destruct (is_quote c); [intros H; inversion H|].
    destruct (Ascii.eqb c "{"%char); [intros H; inversion H|].
    destruct (Ascii.eqb c "}"%char); [|intros H; inversion H].
    intros H. inversion H. simpl. apply Z.eqb_eq. assumption.
Qed.

Lemma scan_loop_no_break (t : str) :
  forall st i e,
    (forall n, 0 < n <= length t ->
       brace_count (fold_left (fun s c => fst (scan_char s c))
                              (firstn n t) st) <> 0%Z) ->
    scan_loop t i st e = e.
Proof.
  induction t as [|c t IH]; intros st i e H; [reflexivity|].
  simpl. destruct (scan_char st c) as [st' stop] eqn:E.
  destruct stop.
  - exfalso. apply (H 1); [simpl; lia|].
    simpl. rewrite E. simpl. eapply scan_char_stop. exact E.
  - apply IH. intros n Hn. specialize (H (S n)).
    simpl in H. rewrite E in H. simpl in H. apply H. lia.
Qed.

(** ** The statements *)

Section Statements.

Variable json_loads : str -> result json.

Lemma object_starts_with_brace (o : JsonText.value) :
  JsonText.is_object o = true ->
  exists t, JsonText.render o = "{"%char :: t.
Proof. destruct o; simpl; try discriminate; intros _; eauto. Qed.

(** C1.  A page holds an assignment of ytInitialData (either form of the
    pattern) and the text of a JSON object right after it; this is the first
    assignment of the page.  Then [extract_yt_initial_data] hands exactly the
    text of that object to [json.loads] and returns what it decodes,
    whatever the strings of the object contain: semicolons, braces, quotes,
    escaped quotes. *)
Theorem C1_extract_returns_the_object
  (pre : str) (h : Assignment.head) (o : JsonText.value) (rest : str) :
  Assignment.wf h = true ->
  JsonText.is_object o = true ->
  JsonText.wf o = true ->
  Assignment.leftmost
    (pre ++ Assignment.render h ++ JsonText.render o ++ rest) pre ->
  extract_yt_initial_data json_loads
    (pre ++ Assignment.render h ++ JsonText.render o ++ rest)
  = json_loads (JsonText.render o).
Proof.
  intros Hh Ho Hwf Hleft. unfold extract_yt_initial_data.
  destruct (object_starts_with_brace o Ho) as [t Et].
  assert (Es : re_search
                 (pre ++ Assignment.render h ++ JsonText.render o ++ rest)
               = Some (length (pre ++ Assignment.render h))).
  { unfold re_search. rewrite Et in *. simpl app in *.
    rewrite search_from_found by assumption.
    rewrite length_app. reflexivity. }
  rewrite Es. cbv zeta.
  replace (pre ++ Assignment.render h ++ JsonText.render o ++ rest)
    with ((pre ++ Assignment.render h) ++ JsonText.render o ++ rest)
    by (rewrite <- app_assoc; reflexivity).
  rewrite skipn_exact.
  rewrite scan_object by assumption.
  rewrite slice_middle. reflexivity.
Qed.

(** C5.  A page without any assignment makes [extract_yt_initial_data]
    raise the [ValueError] that says ytInitialData was not found.  A page
    whose first assignment opens a brace that no closing brace brings back to
    depth 0 makes it hand the empty text to [json.loads], so that it raises
    the decoder's error ([JSONDecodeError], as the decoder does on the
    empty text) and returns no value. *)
Theorem C5_missing_or_unclosed_raises (html : str) :
  json_loads [] = Raise JSONDecodeError ->
  (Assignment.absent html ->
   extract_yt_initial_data json_loads html
   = Raise (ValueError (lit "ytInitialData not found in HTML")))
  /\ (forall pre h rest,
        Assignment.occurs html pre h rest ->
        Assignment.leftmost html pre ->
        unclosed ("{"%char :: rest) ->
        extract_yt_initial_data json_loads html = Raise JSONDecodeError).
Proof.
  intros Hlib. split.
  - intros Habs. unfold extract_yt_initial_data.
    apply re_search_none_iff in Habs. rewrite Habs. reflexivity.
  - intros pre h rest [Hwf Et] Hleft Hun. unfold extract_yt_initial_data.
    assert (Es : re_search html = Some (length (pre ++ Assignment.render h))).
    { unfold re_search. rewrite Et in *.
      rewrite search_from_found by assumption.
      rewrite length_app. reflexivity. }
    rewrite Es. cbv zeta.
    replace (skipn (length (pre ++ Assignment.render h)) html)
      with ("{"%char :: rest).
    2:{ rewrite Et. rewrite app_assoc. rewrite skipn_exact. reflexivity. }
    rewrite scan_loop_no_break by exact Hun.
    unfold slice. rewrite Nat.sub_diag. simpl. exact Hlib.
Qed.

End Statements.

Lemma C1_witness :
  Assignment.wf Pages.bare = true
  /\ JsonText.is_object Pages.tricky = true
  /\ JsonText.wf Pages.tricky = true
  /\ Pages.tricky_page
     = jq "<script>var ytInitialData = {`a`: `};\`{'`};</script>"
  /\ extract_yt_initial_data JsonRef.loads Pages.tricky_page
     = Ok (JObj [(lit "a", JStr (jq "};`{'"))]).
Proof.
  do 4 (split; [reflexivity|]).
  transitivity (JsonRef.loads (JsonText.render Pages.tricky));
    [|vm_compute; reflexivity].
  apply (C1_extract_returns_the_object JsonRef.loads
           Pages.before Pages.bare Pages.tricky Pages.after);
    try reflexivity.
  apply leftmost_check. vm_compute. reflexivity.
Defined.

Lemma C5_witness :
  extract_yt_initial_data JsonRef.loads Pages.no_data_page
  = Raise (ValueError (lit "ytInitialData not found in HTML"))
  /\ extract_yt_initial_data JsonRef.loads Pages.unclosed_page
     = Raise JSONDecodeError.
Proof.
  split.
  - apply (C5_missing_or_unclosed_raises JsonRef.loads Pages.no_data_page);
      [reflexivity|].
    apply absent_check. vm_compute. reflexivity.
  - apply (proj2 (C5_missing_or_unclosed_raises JsonRef.loads
                    Pages.unclosed_page eq_refl)
             Pages.before Pages.bare Pages.unclosed_rest).
    + split; reflexivity.
    + apply leftmost_check. vm_compute. reflexivity.
    + apply unclosed_check. vm_compute. reflexivity.
Defined.

(** ** The channel id *)

Section ChannelId.

Variable json_loads : str -> result json.

(** When every segment of the path is there, the value at its end is
    returned. *)
Lemma channel_id_found (html : str) (d m r : list (str * json)) (v : json) :
  extract_yt_initial_data json_loads html = Ok (JObj d) ->
  dict_get d (lit "metadata") = Some (JObj m) ->
  dict_get m (lit "channelMetadataRenderer") = Some (JObj r) ->
  dict_get r (lit "externalId") = Some v ->
  get_channel_id_from_html json_loads html = Ok v.
Proof.
  intros He Hd Hm Hr. unfold get_channel_id_from_html.
  rewrite He. cbn [bind getitem]. rewrite Hd. cbn [bind getitem].
  rewrite Hm. cbn [bind getitem]. rewrite Hr. reflexivity.
Qed.

(** A key missing from a dict on the path gives the [ValueError] of the
    resolver. *)
Lemma channel_id_key_missing (html : str) (data : json) (k : str) :
  extract_yt_initial_data json_loads html = Ok data ->
  path data [lit "metadata"; lit "channelMetadataRenderer"; lit "externalId"]
  = Raise (KeyError k) ->
  get_channel_id_from_html json_loads html
  = Raise (ValueError (lit "Channel ID not found in initial data.")).
Proof.
  intros He Hp. unfold get_channel_id_from_html. rewrite He.
  cbn [bind]. cbn [path] in Hp.
  destruct (getitem data (lit "metadata")) as [m|e] eqn:E1;
    cbn [bind] in *.
  - destruct (getitem m (lit "channelMetadataRenderer")) as [r|e] eqn:E2;
      cbn [bind] in *.
    + destruct (getitem r (lit "externalId")) as [x|e] eqn:E3;
        cbn [bind] in *.
      * discriminate.
      * inversion Hp. reflexivity.
    + inversion Hp. reflexivity.
  - inversion Hp. reflexivity.
Qed.

(** A segment that is there but is no dict makes the lookup below it raise
    [TypeError], which the resolver does not catch. *)
Lemma channel_id_not_a_dict (html : str) (d : list (str * json)) (v : json) :
  extract_yt_initial_data json_loads html = Ok (JObj d) ->
  dict_get d (lit "metadata") = Some v ->
  (forall m, v <> JObj m) ->
  get_channel_id_from_html json_loads html = Raise TypeError.
Proof.
  intros He Hd Hv. unfold get_channel_id_from_html.
  rewrite He. cbn [bind getitem]. rewrite Hd. cbn [bind].
  destruct v; try reflexivity. exfalso. eapply Hv. reflexivity.
Qed.

End ChannelId.

(** C6.  On a channel page whose ytInitialData object maps metadata to
    null, the segment channelMetadataRenderer is absent and
    [get_channel_id_from_html] raises [TypeError], not the [ValueError] it
    documents for an identifier that cannot be found. *)
Theorem C6_null_metadata_raises_type_error :
  extract_yt_initial_data JsonRef.loads Pages.null_metadata_page
  = Ok (JObj [(lit "metadata", JNull)])
  /\ get_channel_id_from_html JsonRef.loads Pages.null_metadata_page
     = Raise TypeError.
Proof. split; vm_compute; reflexivity. Qed.

(** ** The caching accessor *)

Section Accessor.

Variable json_loads : str -> result json.
Variable requests_get : nat -> str -> response.

#[local] Abbreviation channel_id := (channel_id json_loads requests_get).
#[local] Abbreviation get_channel_id :=
  (get_channel_id json_loads requests_get).
#[local] Abbreviation read_times := (read_times json_loads requests_get).

Lemma channel_id_resolved (self : Channel) (w : nat) :
  _channel_id self <> JNull ->
  channel_id self w = (Ok (_channel_id self), self, w).
Proof.
  intros H. unfold Channel.channel_id.
  destruct (_channel_id self); try reflexivity. contradiction.
Qed.

Lemma read_times_resolved (n : nat) (self : Channel) (w : nat) :
  _channel_id self <> JNull ->
  read_times n self w = (repeat (Ok (_channel_id self)) n, self, w).
Proof.
  intros H. induction n as [|n IH]; [reflexivity|].
  simpl. rewrite channel_id_resolved by assumption. rewrite IH. reflexivity.
Qed.

(** C9, as amended.  No read of [channel_id] changes [channel_url].  A
    read of an unresolved handle is one fetch and parse of the stored URL: it
    returns or raises what [get_channel_id] does, after exactly one request,
    and stores the value returned, while an exception leaves the handle as it
    was; when the fetch raises or finds [None] the handle is still unresolved
    afterwards.  A handle that holds an identifier (a value other than
    [None]) answers every read with it, issues no request and stays as it is;
    so after a read that returns an identifier [v], every later read, at any
    later time, returns [v] without another fetch. *)
Theorem C9_channel_id_computed_once :
  (forall self w,
     channel_url (snd (fst (channel_id self w))) = channel_url self)
  /\ (forall self w,
        _channel_id self = JNull ->
        fst (fst (channel_id self w))
        = fst (get_channel_id (channel_url self) w)
        /\ snd (channel_id self w) = S w
        /\ snd (fst (channel_id self w))
           = match fst (get_channel_id (channel_url self) w) with
             | Ok v => mkChannel (channel_url self) v
             | Raise _ => self
             end
        /\ (fst (get_channel_id (channel_url self) w) = Ok JNull
            \/ (exists e, fst (get_channel_id (channel_url self) w) = Raise e)
            -> _channel_id (snd (fst (channel_id self w))) = JNull))
  /\ (forall self n w,
        _channel_id self <> JNull ->
        read_times n self w = (repeat (Ok (_channel_id self)) n, self, w))
  /\ (forall self w v self' w',
        _channel_id self = JNull ->
        channel_id self w = (Ok v, self', w') ->
        v <> JNull ->
        get_channel_id (channel_url self) w = (Ok v, w')
        /\ w' = S w
        /\ self' = mkChannel (channel_url self) v
        /\ forall n w2,
             read_times n self' w2 = (repeat (Ok v) n, self', w2)).
Proof.
  assert (World : forall url w, snd (get_channel_id url w) = S w).
  { intros url w. unfold Channel.get_channel_id.
    destruct (negb (status_code (requests_get w url) =? 200)%Z); reflexivity. }
  split; [|split; [|split]].
  - intros self w. unfold Channel.channel_id.
    destruct (is_none (_channel_id self)); [|reflexivity].
    destruct (get_channel_id (channel_url self) w) as [[v|e] w'];
      reflexivity.
  - intros self w Hnone. unfold Channel.channel_id. rewrite Hnone.
    cbn [is_none]. pose proof (World (channel_url self) w) as Hw.
    destruct (get_channel_id (channel_url self) w) as [[v|e] w0];
      cbn [fst snd] in *; subst w0.
    + repeat split. intros [H|[e H]]; [|discriminate H].
      injection H as ->. reflexivity.
    + repeat split. intros _. exact Hnone.
  - intros self n w H. apply read_times_resolved. exact H.
  - intros self w v self' w' Hnone H Hv. unfold Channel.channel_id in H.
    rewrite Hnone in H. cbn [is_none] in H.
    pose proof (World (channel_url self) w) as Hw.
    destruct (get_channel_id (channel_url self) w) as [[v0|e0] w0] eqn:E;
      inversion H; subst v0 self' w0.
    cbn [snd] in Hw. repeat split; try assumption.
    intros n w2.
    apply (read_times_resolved n (mkChannel (channel_url self) v) w2).
    exact Hv.
Qed.

End Accessor.

Lemma C9_witness :
  _channel_id Pages.handle = JNull
  /\ Channel.channel_id JsonRef.loads Pages.channel_server Pages.handle 0
     = (Ok (JStr (lit "UC3k3floOm")),
        mkChannel (channel_url Pages.handle) (JStr (lit "UC3k3floOm")), 1)
  /\ fst (fst (Channel.channel_id JsonRef.loads Pages.channel_server
                 Pages.handle 0))
     = fst (Channel.get_channel_id JsonRef.loads Pages.channel_server
              (channel_url Pages.handle) 0)
  /\ Channel.get_channel_id JsonRef.loads Pages.channel_server
       (channel_url Pages.handle) 0
     = (Ok (JStr (lit "UC3k3floOm")), 1)
  /\ forall n w2,
       Channel.read_times JsonRef.loads Pages.channel_server n
         (mkChannel (channel_url Pages.handle) (JStr (lit "UC3k3floOm"))) w2
       = (repeat (Ok (JStr (lit "UC3k3floOm"))) n,
          mkChannel (channel_url Pages.handle) (JStr (lit "UC3k3floOm")), w2).
Proof.
  split; [reflexivity|]. split; [vm_compute; reflexivity|].
  destruct (C9_channel_id_computed_once JsonRef.loads Pages.channel_server)
    as (_ & Hfirst & _ & Hlater).
  split; [apply (Hfirst Pages.handle 0); reflexivity|].
  destruct (Hlater Pages.handle 0 (JStr (lit "UC3k3floOm"))
              (mkChannel (channel_url Pages.handle)
                         (JStr (lit "UC3k3floOm"))) 1)
    as (Hfetch & _ & _ & Hreads).
  - reflexivity.
  - vm_compute. reflexivity.
  - discriminate.
  - split; [exact Hfetch|exact Hreads].
Defined.

(** C9 as stated fails: on a channel page whose identifier is null the
    first read succeeds with [None], and the read after it fetches again. *)
Lemma C9_counterexample :
  _channel_id Pages.handle = JNull
  /\ Channel.channel_id JsonRef.loads MorePages.null_id_server Pages.handle 0
     = (Ok JNull, Pages.handle, 1)
  /\ Channel.channel_id JsonRef.loads MorePages.null_id_server Pages.handle 1
     = (Ok JNull, Pages.handle, 2)
  /\ ~ (forall self w v self' w',
          _channel_id self = JNull ->
          Channel.channel_id JsonRef.loads MorePages.null_id_server self w
          = (Ok v, self', w') ->
          forall w2,
            Channel.channel_id JsonRef.loads MorePages.null_id_server
              self' w2
            = (Ok v, self', w2)).
Proof.
  split; [reflexivity|]. split; [vm_compute; reflexivity|].
  split; [vm_compute; reflexivity|].
  intros H.
  specialize (H Pages.handle 0 JNull Pages.handle 1 eq_refl
                ltac:(vm_compute; reflexivity) 1).
  vm_compute in H. discriminate H.
Qed.

End ChannelFacts.

(* ================================================================== *)
(** * Properties of extractor.py *)
(* ================================================================== *)

Module ExtractorFacts.
Import Bs4 Video Extractor.

(** ** One card *)

Lemma extract_card_without_scroll_box (card : node) :
  has_scroll_box card = false -> extract_card card = Raise AttributeError.
Proof.
  unfold has_scroll_box, extract_card. intros H.
  destruct (badge_loop (badges_of card)) as [[v l] u].
  destruct (find card (lit "div") (has_class (lit "scroll-box")));
    [discriminate|reflexivity].
Qed.

Lemma extract_card_with_scroll_box (card : node) :
  has_scroll_box card = true ->
  exists info, extract_card card = Ok info
               /\ vcard_id info = get card (lit "id")
               /\ (views info, likes info, upload_date info)
                  = badge_loop (badges_of card).
Proof.
  unfold has_scroll_box, extract_card. intros H.
  destruct (badge_loop (badges_of card)) as [[v l] u].
  destruct (find card (lit "div") (has_class (lit "scroll-box")));
    [|discriminate].
  cbn [option_map]. eexists. split; [reflexivity|]. split; reflexivity.
Qed.

Lemma extract_card_badges (card : node) (info : VideoInfo) :
  extract_card card = Ok info ->
  (views info, likes info, upload_date info) = badge_loop (badges_of card).
Proof.
  intros H. destruct (has_scroll_box card) eqn:E.
  - destruct (extract_card_with_scroll_box card E) as [i [Hi [_ Hb]]].
    rewrite Hi in H. inversion H; subst. exact Hb.
  - rewrite extract_card_without_scroll_box in H by assumption. discriminate.
Qed.

(** ** The loop over the cards *)

Lemma for_cards_all (cards : list node) :
  forall acc,
    forallb has_scroll_box cards = true ->
    exists records,
      for_cards cards acc = Ok (acc ++ records)
      /\ Forall2 (fun card info => extract_card card = Ok info) cards records.
Proof.
  induction cards as [|c cards IH]; intros acc H.
  - exists []. rewrite app_nil_r. split; [reflexivity|constructor].
  - simpl in H. apply andb_prop in H. destruct H as [Hc Hcs].
    destruct (extract_card_with_scroll_box c Hc) as [i [Hi _]].
    destruct (IH (acc ++ [i]) Hcs) as [rs [Hrs HF]].
    exists (i :: rs). split.
    + simpl. rewrite Hi. cbn [bind]. rewrite Hrs, <- app_assoc. reflexivity.
    + constructor; assumption.
Qed.

Lemma for_cards_some_bare (cards : list node) :
  forall acc,
    forallb has_scroll_box cards = false ->
    for_cards cards acc = Raise AttributeError.
Proof.
  induction cards as [|c cards IH]; intros acc H; [discriminate|].
  simpl in H. simpl. destruct (has_scroll_box c) eqn:Hc.
  - destruct (extract_card_with_scroll_box c Hc) as [i [Hi _]].
    rewrite Hi. cbn [bind]. apply IH. exact H.
  - rewrite extract_card_without_scroll_box by assumption. reflexivity.
Qed.

(** C2.  A page on which some card has no scroll-box container makes
    [extract] raise [AttributeError]: no record is emitted, for that card or
    for any other. *)
Theorem C2_card_without_scroll_box_aborts (soup : node) :
  forallb has_scroll_box (find_all soup (lit "div") is_card) = false ->
  extract soup = Raise AttributeError.
Proof. intros H. unfold extract. apply for_cards_some_bare. exact H. Qed.

Lemma C2_witness :
  find_all Pages.bare_card_page (lit "div") is_card = [Pages.bare_card]
  /\ extract Pages.bare_card_page = Raise AttributeError.
Proof.
  split; [reflexivity|].
  apply (C2_card_without_scroll_box_aborts Pages.bare_card_page).
  reflexivity.
Defined.

(** C4, as amended.  A page without cards gives the empty list.  A page on
    which every card has a scroll-box container gives one record for every
    div element whose id begins with vcard, in the order of the page: the
    record at each position is the record of the card at that position and
    carries its id. *)
Theorem C4_one_record_per_card_in_order (soup : node) :
  (find_all soup (lit "div") is_card = [] -> extract soup = Ok [])
  /\ (forallb has_scroll_box (find_all soup (lit "div") is_card) = true ->
      exists records,
        extract soup = Ok records
        /\ Forall2 (fun card info => extract_card card = Ok info)
                   (filter (fun d => is_tag (lit "div") d && is_card d)
                           (descendants soup))
                   records
        /\ map vcard_id records
           = map (fun card => get card (lit "id"))
                 (filter (fun d => is_tag (lit "div") d && is_card d)
                         (descendants soup))).
Proof.
  split.
  - intros H. unfold extract. rewrite H. reflexivity.
  - intros H. unfold extract.
    destruct (for_cards_all _ [] H) as [rs [Hrs HF]].
    exists rs. split; [exact Hrs|]. split; [exact HF|].
    unfold find_all in HF. clear Hrs.
    induction HF as [|c i cs rs' Hc _ IH]; [reflexivity|].
    simpl. f_equal; [|exact IH].
    destruct (has_scroll_box c) eqn:E.
    + destruct (extract_card_with_scroll_box c E) as [i' [Hi' [Hid _]]].
      rewrite Hi' in Hc. inversion Hc; subst. exact Hid.
    + rewrite extract_card_without_scroll_box in Hc by assumption.
      discriminate.
Qed.

Lemma C4_witness :
  extract (doc []) = Ok []
  /\ exists records,
       extract Pages.two_cards_page = Ok records
       /\ map vcard_id records = [Some (lit "vcard2"); Some (lit "vcard7")].
Proof.
  split.
  - apply (proj1 (C4_one_record_per_card_in_order (doc []))). reflexivity.
  - destruct (proj2 (C4_one_record_per_card_in_order Pages.two_cards_page)
                eq_refl) as [records [H1 [_ H3]]].
    exists records. split; [exact H1|exact H3].
Defined.

(** C4 as stated fails: a span whose id begins with vcard is an element
    with the card prefix, and the parser returns no record for it. *)
Lemma C4_counterexample :
  filter has_vcard_id (descendants Pages.span_card_page)
  = [Tag (lit "span") [(lit "id", lit "vcard1")] [Pages.scroll_box "x"]]
  /\ extract Pages.span_card_page = Ok []
  /\ ~ (exists records,
          extract Pages.span_card_page = Ok records
          /\ length records
             = length (filter has_vcard_id
                              (descendants Pages.span_card_page))).
Proof.
  split; [reflexivity|]. split; [reflexivity|].
  intros [records [H1 H2]]. inversion H1; subst. discriminate H2.
Qed.

(** ** The badge loop *)

Lemma last_opt_cons {A} (x : A) (l : list A) :
  last_opt (x :: l) = or_else (last_opt l) (Some x).
Proof.
  destruct l as [|a l]; [reflexivity|].
  change (last_opt (x :: a :: l)) with (last_opt (a :: l)).
  assert (H : exists y, last_opt (a :: l) = Some y).
  { clear x. revert a. induction l as [|b l IH]; intros a.
    - exists a. reflexivity.
    - destruct (IH b) as [y Hy]. exists y. exact Hy. }
  destruct H as [y Hy]. rewrite Hy. reflexivity.
Qed.

Lemma badge_loop_from (badges : list node) :
  forall v l u,
    fold_left badge_step badges (v, l, u)
    = (or_else (last_opt (texts_of is_view_badge badges)) v,
       or_else (last_opt (texts_of is_like_badge badges)) l,
       or_else (last_opt (texts_of is_date_badge badges)) u).
Proof.
  unfold texts_of, is_view_badge, is_like_badge, is_date_badge.
  induction badges as [|b bs IH]; intros v l u; [reflexivity|].
  cbn [fold_left filter]. unfold badge_step at 2.
  destruct (has_eye b) eqn:E1; cbn [negb andb].
  - rewrite IH. cbn [map]. rewrite last_opt_cons.
    destruct (last_opt (map (get_text []) (filter has_eye bs))); reflexivity.
  - destruct (has_thumbs_up b) eqn:E2; cbn [negb andb].
    + rewrite IH. cbn [map]. rewrite last_opt_cons.
      destruct (last_opt (map (get_text [])
                  (filter (fun b0 => negb (has_eye b0) && has_thumbs_up b0)
                          bs))); reflexivity.
    + destruct (has_letter (get_text [] b)) eqn:E3.
      * rewrite IH. cbn [map]. rewrite last_opt_cons.
        destruct (last_opt (map (get_text [])
                  (filter (fun b0 => negb (has_eye b0)
                                     && negb (has_thumbs_up b0)
                                     && has_letter (get_text [] b0)) bs)));
          reflexivity.
      * rewrite IH. reflexivity.
Qed.

Lemma badge_loop_last (badges : list node) :
  badge_loop badges
  = (last_opt (texts_of is_view_badge badges),
     last_opt (texts_of is_like_badge badges),
     last_opt (texts_of is_date_badge badges)).
Proof.
  unfold badge_loop. rewrite badge_loop_from.
  destruct (last_opt (texts_of is_view_badge badges));
    destruct (last_opt (texts_of is_like_badge badges));
    destruct (last_opt (texts_of is_date_badge badges)); reflexivity.
Qed.

Lemma filter_permutation {A} (f : A -> bool) (l l' : list A) :
  Permutation l l' -> Permutation (filter f l) (filter f l').
Proof.
  induction 1 as [|x l l' _ IH|x y l|l l' l'' _ IH1 _ IH2]; simpl.
  - constructor.
  - destruct (f x); [constructor|]; exact IH.
  - destruct (f x), (f y); try apply Permutation_refl. apply perm_swap.
  - eapply Permutation_trans; eassumption.
Qed.

Lemma texts_of_single (keep : node -> bool) (x : node) (bs l : list node) :
  Permutation l bs -> filter keep l = [x] ->
  last_opt (texts_of keep bs) = Some (get_text [] x).
Proof.
  intros HP Hl. unfold texts_of.
  apply (filter_permutation keep) in HP. rewrite Hl in HP.
  apply Permutation_length_1_inv in HP. rewrite HP. reflexivity.
Qed.

(** C3, as amended.  The views, likes and upload-date fields of a record
    are the texts of the last badge with an eye icon, of the last badge with
    a thumbs-up icon and no eye icon, and of the last badge with neither icon
    whose text holds a letter, in document order (no value when there is no
    such badge).  A card with one badge of each kind gets the three texts
    whatever the order of the badges. *)
Theorem C3_badges_last_match_wins :
  (forall card info,
     extract_card card = Ok info ->
     views info = last_opt (texts_of is_view_badge (badges_of card))
     /\ likes info = last_opt (texts_of is_like_badge (badges_of card))
     /\ upload_date info
        = last_opt (texts_of is_date_badge (badges_of card)))
  /\ (forall v l d badges,
        is_view_badge v = true -> is_like_badge l = true ->
        is_date_badge d = true -> Permutation [v; l; d] badges ->
        badge_loop badges
        = (Some (get_text [] v), Some (get_text [] l),
           Some (get_text [] d))).
Proof.
  split.
  - intros card info H. apply extract_card_badges in H.
    rewrite badge_loop_last in H. inversion H. repeat split; reflexivity.
  - intros v l d badges Hv Hl Hd HP. rewrite badge_loop_last.
    assert (Hl' := Hl). assert (Hd' := Hd).
    unfold is_like_badge in Hl'. unfold is_date_badge in Hd'.
    apply andb_prop in Hl'. destruct Hl' as [Hl1 Hl2].
    apply andb_prop in Hd'. destruct Hd' as [Hd' Hd3].
    apply andb_prop in Hd'. destruct Hd' as [Hd1 Hd2].
    apply negb_true_iff in Hl1, Hd1, Hd2.
    rewrite (texts_of_single is_view_badge v badges [v; l; d] HP).
    2:{ unfold is_view_badge in *. simpl. rewrite Hv, Hl1, Hd1.
        reflexivity. }
    rewrite (texts_of_single is_like_badge l badges [v; l; d] HP).
    2:{ simpl. rewrite Hl. unfold is_like_badge, is_view_badge in *.
        rewrite Hv, Hd1, Hd2. reflexivity. }
    rewrite (texts_of_single is_date_badge d badges [v; l; d] HP).
    2:{ simpl. rewrite Hd. unfold is_date_badge, is_view_badge in *.
        rewrite Hv, Hl1, Hl2. reflexivity. }
    reflexivity.
Qed.

Lemma C3_witness :
  badges_of Pages.ordered_card
  = [Pages.date_badge; Pages.like_badge; Pages.view_badge]
  /\ badge_loop (badges_of Pages.ordered_card)
     = (Some (lit "1,234"), Some (lit "56"), Some (lit "Jan 1, 2020")).
Proof.
  split; [reflexivity|].
  apply (proj2 C3_badges_last_match_wins
           Pages.view_badge Pages.like_badge Pages.date_badge
           (badges_of Pages.ordered_card)); try reflexivity.
  change (badges_of Pages.ordered_card)
    with [Pages.date_badge; Pages.like_badge; Pages.view_badge].
  apply Permutation_sym.
  apply (perm_trans (perm_skip Pages.date_badge
                       (perm_swap Pages.view_badge Pages.like_badge []))).
  apply (perm_trans (perm_swap Pages.view_badge Pages.date_badge
                       [Pages.like_badge])).
  apply perm_skip. apply perm_swap.
Defined.

(** C3 as stated fails: of two badges without icon whose texts hold
    letters, the one that comes second in the page gives the upload date, not
    the first. *)
Lemma C3_counterexample :
  texts_of is_date_badge (badges_of Pages.two_dates_card)
  = [lit "Jan 1, 2020"; lit "English"]
  /\ extract_card Pages.two_dates_card
     = Ok (mkVideoInfo (Some (lit "vcard7")) None None None None None None
                       None None (Some (lit "English")) None
                       (Some (lit "hello")))
  /\ ~ (forall info,
          extract_card Pages.two_dates_card = Ok info ->
          upload_date info
          = hd_error (texts_of is_date_badge
                               (badges_of Pages.two_dates_card))).
Proof.
  split; [reflexivity|]. split; [reflexivity|].
  intros H. specialize (H _ eq_refl). discriminate H.
Qed.

End ExtractorFacts.

(* ================================================================== *)
(** * Properties of filters.py *)
(* ================================================================== *)

Module FiltersFacts.
Import Filters.

Ltac range_cases :=
  repeat match goal with
         | |- context [(?a <? ?b)%Z] =>
             destruct (Z.ltb_spec a b); try lia
         | |- context [(?a >? ?b)%Z] =>
             rewrite (Z.gtb_ltb a b); destruct (Z.ltb_spec b a); try lia
         end.

(** C10.  [set_views], [set_likes] and [set_duration] set their field to
    the pair they are given exactly when it lies in the range 0 to
    6000000000, 30 to 6000000000 and 1 to 86400 respectively, lower bound
    first; otherwise they raise [ValueError] and leave the object as it
    was. *)
Theorem C10_range_setters (self : Filters) (a b : Z) :
  ((0 <= a <= b /\ b <= 6000000000)%Z ->
     set_views self a b = (Ok tt, with_views self a b))
  /\ (~ (0 <= a <= b /\ b <= 6000000000)%Z ->
     raises_value_error (set_views self a b) self)
  /\ ((30 <= a <= b /\ b <= 6000000000)%Z ->
     set_likes self a b = (Ok tt, with_likes self a b))
  /\ (~ (30 <= a <= b /\ b <= 6000000000)%Z ->
     raises_value_error (set_likes self a b) self)
  /\ ((1 <= a <= b /\ b <= 86400)%Z ->
     set_duration self a b = (Ok tt, with_duration self a b))
  /\ (~ (1 <= a <= b /\ b <= 86400)%Z ->
     raises_value_error (set_duration self a b) self).
Proof.
  unfold raises_value_error, set_views, set_likes, set_duration,
    MIN_VIEWS, MAX_VIEWS, MIN_LIKES, MAX_LIKES, MIN_DURATION, MAX_DURATION.
  repeat split; intros H; range_cases; try reflexivity; eauto.
Qed.

Lemma C10_witness :
  set_views Pages.some_filters 0 6000000000
  = (Ok tt, with_views Pages.some_filters 0 6000000000)
  /\ raises_value_error (set_likes Pages.some_filters 29 100)
                        Pages.some_filters
  /\ set_likes Pages.some_filters 30 30
     = (Ok tt, with_likes Pages.some_filters 30 30)
  /\ raises_value_error (set_duration Pages.some_filters 1 86401)
                        Pages.some_filters.
Proof.
  split; [|split; [|split]].
  - apply (proj1 (C10_range_setters Pages.some_filters 0 6000000000)). lia.
  - apply (proj1 (proj2 (proj2 (proj2
             (C10_range_setters Pages.some_filters 29 100))))). lia.
  - apply (proj1 (proj2 (proj2
             (C10_range_setters Pages.some_filters 30 30)))). lia.
  - apply (proj2 (proj2 (proj2 (proj2 (proj2
             (C10_range_setters Pages.some_filters 1 86401)))))). lia.
Defined.

End FiltersFacts.

(* ================================================================== *)
(** * Properties of client.py: iteration over the pages *)
(* ================================================================== *)

Module PagingFacts.
Import Video Client.

Section Paging.

Variable session_get : nat -> str -> response.
Variables (query : str) (channel_id : option str)
          (filters : option Filters.Filters)
          (sort_option : option Sorting.SortOption).

#[local] Abbreviation page :=
  (_search_page session_get query channel_id filters sort_option).
#[local] Abbreviation run :=
  (drain session_get query channel_id filters sort_option).
#[local] Abbreviation served :=
  (served session_get query channel_id filters sort_option).

Lemma run_pending (vs : list VideoInfo) :
  forall fuel p w,
    run (length vs + fuel) (Yielding p vs) w
    = let '(videos, ending, w') := run fuel (Yielding p []) w in
      (vs ++ videos, ending, w').
Proof.
  induction vs as [|v vs IH]; intros fuel p w.
  - simpl. destruct (run fuel (Yielding p []) w) as [[a b] c]. reflexivity.
  - simpl. rewrite IH.
    destruct (run fuel (Yielding p []) w) as [[a b] c]. reflexivity.
Qed.

Lemma run_next_page (fuel : nat) (p : Z) (w : nat) :
  run fuel (Yielding p []) w = run fuel (Fetching (p + 1)) w.
Proof. destruct fuel; reflexivity. Qed.

Lemma run_fetch_videos (fuel : nat) (p : Z) (w w' : nat)
      (v : VideoInfo) (rest : list VideoInfo) :
  page p w = (Returns (v :: rest), w') ->
  run (S fuel) (Fetching p) w
  = let '(videos, ending, w'') := run fuel (Yielding p rest) w' in
    (v :: videos, ending, w'').
Proof.
  intros H. simpl. unfold fetch_next. rewrite H. reflexivity.
Qed.

Lemma run_fetch_empty (fuel : nat) (p : Z) (w w' : nat) :
  page p w = (Returns [], w') ->
  run (S fuel) (Fetching p) w = ([], Some StopIteration, w').
Proof.
  intros H. simpl. unfold fetch_next. rewrite H. reflexivity.
Qed.

Lemma served_tail (vs : list VideoInfo) (pages : list (list VideoInfo))
      (p : Z) (w : nat) :
  served (vs :: pages) p w -> served pages (p + 1) (S w).
Proof.
  intros [H1 H2]. split.
  - intros k Hk. specialize (H1 (S k)). simpl in H1.
    replace (p + 1 + Z.of_nat k)%Z with (p + Z.of_nat (S k))%Z by lia.
    replace (S w + k) with (w + S k) by lia.
    apply H1. lia.
  - simpl length in H2.
    replace (p + 1 + Z.of_nat (length pages))%Z
      with (p + Z.of_nat (S (length pages)))%Z by lia.
    replace (S w + length pages) with (w + S (length pages)) by lia.
    exact H2.
Qed.

Lemma run_served (pages : list (list VideoInfo)) :
  forall p w fuel,
    served pages p w ->
    Forall (fun vs => vs <> []) pages ->
    length (concat pages) < fuel ->
    run fuel (Fetching p) w
    = (concat pages, Some StopIteration, w + S (length pages)).
Proof.
  induction pages as [|vs pages IH]; intros p w fuel Hs Hne Hfuel.
  - destruct Hs as [_ H2]. simpl in H2.
    destruct fuel as [|fuel]; [simpl in Hfuel; lia|].
    rewrite Z.add_0_r, Nat.add_0_r in H2.
    rewrite (run_fetch_empty fuel p w _ H2). simpl. f_equal. lia.
  - inversion Hne as [|? ? Hvs Hne']; subst.
    destruct vs as [|v rest]; [contradiction|].
    pose proof (proj1 Hs 0 ltac:(simpl; lia)) as H0. simpl in H0.
    rewrite Z.add_0_r, Nat.add_0_r in H0.
    simpl in Hfuel. rewrite length_app in Hfuel.
    destruct fuel as [|fuel]; [lia|].
    rewrite (run_fetch_videos fuel p w _ v rest H0).
    replace fuel with (length rest + (fuel - length rest)) by lia.
    rewrite run_pending, run_next_page.
    rewrite (IH (p + 1)%Z (S w) (fuel - length rest)
                (served_tail _ _ _ _ Hs) Hne' ltac:(lia)).
    simpl. f_equal. lia.
Qed.

Lemma run_never_stops :
  (forall p w, exists v rest w', page p w = (Returns (v :: rest), w')) ->
  forall fuel g w,
    g <> Finished ->
    exists videos w',
      run fuel g w = (videos, None, w') /\ length videos = fuel.
Proof.
  intros Hall. induction fuel as [|fuel IH]; intros g w Hg.
  - exists [], w. split; reflexivity.
  - assert (F : forall p w0, exists videos w',
                  run (S fuel) (Fetching p) w0 = (videos, None, w')
                  /\ length videos = S fuel).
    { intros p w0. destruct (Hall p w0) as (v & rest & w' & Hp).
      rewrite (run_fetch_videos fuel p w0 w' v rest Hp).
      destruct (IH (Yielding p rest) w' ltac:(discriminate))
        as (videos & w'' & Hr & Hl).
      rewrite Hr. exists (v :: videos), w''. split; [reflexivity|].
      simpl. lia. }
    destruct g as [p|p [|v rest]|]; [apply F| | |contradiction].
    + rewrite run_next_page. apply F.
    + simpl. destruct (IH (Yielding p rest) w ltac:(discriminate))
        as (videos & w'' & Hr & Hl).
      rewrite Hr. exists (v :: videos), w''. split; [reflexivity|].
      simpl. lia.
Qed.

(** C7.  When the first pages fetched are the non-empty pages [pages] and
    the page fetched after them has no record, the iteration yields the
    records of [pages], page after page and in the order of each page, then
    stops with [StopIteration] and no error, after one request per page
    fetched.  When no page fetched is ever empty, the iteration never
    stops. *)
Theorem C7_search_all_stops_at_first_empty_page :
  (forall (pages : list (list VideoInfo)) (w fuel : nat),
     served pages 1 w ->
     Forall (fun vs => vs <> []) pages ->
     length (concat pages) < fuel ->
     run fuel search_all w
     = (concat pages, Some StopIteration, w + S (length pages)))
  /\ ((forall p w, exists v rest w', page p w = (Returns (v :: rest), w')) ->
      forall fuel w,
        exists videos w',
          run fuel search_all w = (videos, None, w')
          /\ length videos = fuel).
Proof.
  split.
  - intros pages w fuel Hs Hne Hfuel. apply run_served; assumption.
  - intros Hall fuel w. apply run_never_stops; [exact Hall|discriminate].
Qed.

End Paging.

Lemma C7_witness :
  drain Pages.two_page_site (lit "cats") None None None 5 search_all 0
  = (Pages.two_cards ++ Pages.two_cards, Some StopIteration, 3).
Proof.
  apply (proj1 (C7_search_all_stops_at_first_empty_page Pages.two_page_site
                  (lit "cats") None None None)
           [Pages.two_cards; Pages.two_cards] 0 5).
  - split.
    + intros k Hk. destruct k as [|[|k]]; [vm_compute; reflexivity..|].
      simpl in Hk. lia.
    + vm_compute. reflexivity.
  - repeat constructor; discriminate.
  - simpl. lia.
Defined.

End PagingFacts.

(* ================================================================== *)
(** * Properties of client.py: the search URL *)
(* ================================================================== *)

Module UrlFacts.
Import Sorting Urllib Client.

(** ** Characters *)

Lemma tame_facts (c : ascii) :
  tame c = true ->
  visible c = true
  /\ Ascii.eqb c ":"%char = false /\ Ascii.eqb c "#"%char = false
  /\ Ascii.eqb c "?"%char = false /\ Ascii.eqb c ";"%char = false
  /\ is_ascii c && negb (mem c (lit "[]")) = true.
Proof.
  destruct c as [[|] [|] [|] [|] [|] [|] [|] [|]];
    vm_compute; intros H; try discriminate H; repeat split; reflexivity.
Qed.

Lemma forallb_weaken {A} (f g : A -> bool) (l : list A) :
  (forall x, f x = true -> g x = true) ->
  forallb f l = true -> forallb g l = true.
Proof.
  intros Hfg. induction l as [|x l IH]; simpl; [reflexivity|].
  intros H. apply andb_prop in H. destruct H as [Hx Hl].
  rewrite (Hfg x Hx), (IH Hl). reflexivity.
Qed.

Lemma tame_visible (s : str) :
  forallb tame s = true -> forallb visible s = true.
Proof. apply forallb_weaken. intros c H. apply tame_facts. exact H. Qed.

Lemma clean_url_visible (s : str) :
  forallb visible s = true -> clean_url s = s.
Proof.
  unfold clean_url. intros H.
  assert (L : lstrip_c0 s = s).
  { destruct s as [|c s]; [reflexivity|]. simpl in *.
    apply andb_prop in H. destruct H as [H _]. unfold visible in H.
    apply andb_prop in H. destruct H as [H _]. apply negb_true_iff in H.
    rewrite H. reflexivity. }
  rewrite L. induction s as [|c s IH]; [reflexivity|].
  simpl in *. apply andb_prop in H. destruct H as [Hc Hs].
  unfold visible in Hc. apply andb_prop in Hc. destruct Hc as [H1 H2].
  rewrite H2. f_equal. apply IH; [exact Hs|].
  destruct s as [|d s]; [reflexivity|]. simpl in *.
  apply andb_prop in Hs. destruct Hs as [H _]. unfold visible in H.
  apply andb_prop in H. destruct H as [H _]. apply negb_true_iff in H.
  rewrite H. reflexivity.
Qed.

(** ** Splitting *)

Lemma split_first_absent (sep : ascii) (s : str) :
  forallb (fun c => negb (Ascii.eqb c sep)) s = true ->
  split_first sep s = (s, None).
Proof.
  induction s as [|c s IH]; simpl; [reflexivity|].
  intros H. apply andb_prop in H. destruct H as [Hc Hs].
  apply negb_true_iff in Hc. rewrite Hc, (IH Hs). reflexivity.
Qed.

Lemma split_first_found (sep : ascii) (a b : str) :
  forallb (fun c => negb (Ascii.eqb c sep)) a = true ->
  split_first sep (a ++ sep :: b) = (a, Some b).
Proof.
  induction a as [|c a IH]; simpl.
  - intros _. rewrite Ascii.eqb_refl. reflexivity.
  - intros H. apply andb_prop in H. destruct H as [Hc Ha].
    apply negb_true_iff in Hc. rewrite Hc, (IH Ha). reflexivity.
Qed.

Lemma tame_without (sep : ascii) (s : str) :
  tame sep = false -> forallb tame s = true ->
  forallb (fun c => negb (Ascii.eqb c sep)) s = true.
Proof.
  intros Hsep. apply forallb_weaken. intros c Hc.
  apply negb_true_iff. destruct (Ascii.eqb_spec c sep); [|reflexivity].
  subst c. rewrite Hc in Hsep. discriminate.
Qed.

(** The network location of a tame text that ends at a question mark. *)
Lemma splitnetloc_tame (r q : str) :
  forallb tame r = true ->
  exists n p,
    r = n ++ p /\ splitnetloc (r ++ "?"%char :: q) = (n, p ++ "?"%char :: q).
Proof.
  induction r as [|c r IH]; intros H.
  - exists [], []. split; reflexivity.
  - simpl in H. apply andb_prop in H. destruct H as [Hc Hr].
    cbn [app splitnetloc]. destruct (mem c (lit "/?#")) eqn:E.
    + exists [], (c :: r). split; reflexivity.
    + destruct (IH Hr) as (n & p & Hnp & Hs). rewrite Hs.
      exists (c :: n), p. split; [simpl; f_equal; exact Hnp|reflexivity].
Qed.

Lemma forallb_app_inv {A} (f : A -> bool) (a b : list A) :
  forallb f (a ++ b) = true -> forallb f a = true /\ forallb f b = true.
Proof. rewrite forallb_app. apply andb_prop. Qed.

(** [urlsplit] on a tame text, a question mark and a tame text. *)
Lemma urlsplit_tail (d n p Q : str) :
  forallb tame n = true -> forallb tame p = true -> forallb tame Q = true ->
  (if forallb (fun c => is_ascii c && negb (mem c (lit "[]"))) n
   then
     let (url, fragment) :=
       match split_first "#"%char (p ++ "?"%char :: Q) with
       | (a, Some b) => (a, b)
       | (a, None) => (a, [])
       end in
     let (url0, query) :=
       match split_first "?"%char url with
       | (a, Some b) => (a, b)
       | (a, None) => (a, [])
       end in
     Some (mkSplit d n url0 query fragment)
   else None) = Some (mkSplit d n p Q []).
Proof.
  intros Hn Hp HQ.
  rewrite (forallb_weaken tame _ n
             (fun c H => proj2 (proj2 (proj2 (proj2 (proj2
                                 (tame_facts c H)))))) Hn).
  rewrite split_first_absent.
  2:{ rewrite forallb_app. simpl.
      rewrite (tame_without "#"%char p eq_refl Hp),
              (tame_without "#"%char Q eq_refl HQ). reflexivity. }
  rewrite split_first_found by (apply tame_without; [reflexivity|exact Hp]).
  reflexivity.
Qed.

Lemma urlsplit_tame (P Q d : str) :
  forallb tame P = true -> forallb tame Q = true ->
  exists n p,
    forallb tame n = true /\ forallb tame p = true
    /\ urlsplit (P ++ "?"%char :: Q) d = Some (mkSplit d n p Q []).
Proof.
  intros HP HQ. unfold urlsplit.
  assert (HT : forallb visible (P ++ "?"%char :: Q) = true).
  { rewrite forallb_app. simpl.
    rewrite (tame_visible P HP), (tame_visible Q HQ). reflexivity. }
  rewrite (clean_url_visible _ HT).
  assert (Hcolon : split_first ":"%char (P ++ "?"%char :: Q)
                   = (P ++ "?"%char :: Q, None)).
  { apply split_first_absent. rewrite forallb_app. simpl.
    rewrite (tame_without ":"%char P eq_refl HP),
            (tame_without ":"%char Q eq_refl HQ). reflexivity. }
  rewrite Hcolon.
  destruct (startswith (P ++ "?"%char :: Q) (lit "//")) eqn:E.
  - destruct P as [|a [|b rest]].
    + discriminate E.
    + cbn in E. rewrite andb_false_r in E. discriminate E.
    + assert (Hrest : forallb tame rest = true).
      { simpl in HP. apply andb_prop in HP. destruct HP as [_ HP].
        apply andb_prop in HP. apply HP. }
      destruct (splitnetloc_tame rest Q Hrest) as (n & p & Hnp & Hs).
      rewrite Hnp in Hrest. apply forallb_app_inv in Hrest.
      destruct Hrest as [Hn Hp].
      exists n, p. split; [exact Hn|]. split; [exact Hp|].
      cbn [app skipn]. rewrite Hs. apply urlsplit_tail; assumption.
  - exists [], P. split; [reflexivity|]. split; [exact HP|].
    apply (urlsplit_tail d [] P); [reflexivity|assumption..].
Qed.

(** ** Texts made of tame pieces *)

Lemma tame_no_semicolon (s : str) :
  forallb tame s = true -> mem ";"%char s = false.
Proof.
  unfold mem. induction s as [|c s IH]; [reflexivity|].
  cbn [forallb existsb]. intros H. apply andb_prop in H.
  destruct H as [Hc Hs]. rewrite (IH Hs), orb_false_r.
  destruct (tame_facts c Hc) as (_ & _ & _ & _ & H & _).
  rewrite Ascii.eqb_sym. exact H.
Qed.

Lemma forallb_rev {A} (f : A -> bool) (l : list A) :
  forallb f (rev l) = forallb f l.
Proof.
  induction l as [|x l IH]; [reflexivity|].
  simpl. rewrite forallb_app, IH. simpl. rewrite andb_true_r.
  apply andb_comm.
Qed.

Lemma split_on_from_tame (s : str) :
  forall cur, forallb tame s = true -> forallb tame cur = true ->
    tames (split_on_from "/"%char s cur) = true.
Proof.
  unfold tames. induction s as [|c s IH]; intros cur Hs Hcur.
  - simpl. rewrite forallb_rev, Hcur. reflexivity.
  - simpl in Hs. apply andb_prop in Hs. destruct Hs as [Hc Hs]. simpl.
    destruct (Ascii.eqb c "/"%char).
    + simpl. rewrite forallb_rev, Hcur. apply IH; [assumption|reflexivity].
    + apply IH; [assumption|]. simpl. rewrite Hc, Hcur. reflexivity.
Qed.

Lemma split_on_tame (s : str) :
  forallb tame s = true -> tames (split_on "/"%char s) = true.
Proof. intros H. apply split_on_from_tame; [exact H|reflexivity]. Qed.

Lemma tames_app (a b : list str) : tames (a ++ b) = tames a && tames b.
Proof. apply forallb_app. Qed.

Lemma tames_removelast (l : list str) :
  tames l = true -> tames (removelast l) = true.
Proof.
  unfold tames. induction l as [|x l IH]; [reflexivity|].
  intros H. simpl in H. apply andb_prop in H. destruct H as [Hx Hl].
  destruct l as [|y l]; [reflexivity|].
  change (removelast (x :: y :: l)) with (x :: removelast (y :: l)).
  simpl forallb at 1. rewrite Hx. apply IH. exact Hl.
Qed.

Lemma tames_last (l : list str) :
  tames l = true -> forallb tame (last l []) = true.
Proof.
  unfold tames. induction l as [|x l IH]; [reflexivity|].
  intros H. simpl in H. apply andb_prop in H. destruct H as [Hx Hl].
  destruct l as [|y l]; [exact Hx|]. apply IH. exact Hl.
Qed.

Lemma tames_filter (f : str -> bool) (l : list str) :
  tames l = true -> tames (filter f l) = true.
Proof.
  unfold tames. induction l as [|x l IH]; [reflexivity|].
  intros H. simpl in H. apply andb_prop in H. destruct H as [Hx Hl].
  simpl. destruct (f x); [simpl; rewrite Hx|]; apply IH; exact Hl.
Qed.

Lemma tames_drop_empty_inner (l : list str) :
  tames l = true -> tames (drop_empty_inner l) = true.
Proof.
  destruct l as [|x [|y l]]; try (intros H; exact H).
  intros H. unfold drop_empty_inner.
  change (tames (x :: y :: l)) with (forallb tame x && tames (y :: l)) in H.
  apply andb_prop in H. destruct H as [Hx Hl].
  change (tames (x :: ?r)) with (forallb tame x && tames r).
  rewrite Hx, tames_app.
  rewrite (tames_filter _ _ (tames_removelast _ Hl)). cbn [andb].
  pose proof (tames_last _ Hl) as Hlast.
  unfold tames. cbn [forallb]. rewrite Hlast. reflexivity.
Qed.

Lemma tames_resolve (segments : list str) :
  forall resolved, tames segments = true -> tames resolved = true ->
    tames (resolve segments resolved) = true.
Proof.
  induction segments as [|seg rest IH]; intros resolved Hs Hr; [exact Hr|].
  change (tames (seg :: rest)) with (forallb tame seg && tames rest) in Hs.
  apply andb_prop in Hs. destruct Hs as [Hseg Hrest]. cbn [resolve].
  destruct (str_eqb seg (lit "..")).
  - apply IH; [assumption|apply tames_removelast; assumption].
  - destruct (str_eqb seg (lit ".")).
    + apply IH; assumption.
    + apply IH; [assumption|]. rewrite tames_app, Hr. unfold tames. simpl.
      rewrite Hseg. reflexivity.
Qed.

Lemma join_tame (l : list str) :
  tames l = true -> forallb tame (join (lit "/") l) = true.
Proof.
  unfold tames. induction l as [|x l IH]; [reflexivity|].
  intros H. simpl in H. apply andb_prop in H. destruct H as [Hx Hl].
  destruct l as [|y l]; [exact Hx|].
  change (join (lit "/") (x :: y :: l))
    with (x ++ lit "/" ++ join (lit "/") (y :: l)).
  rewrite !forallb_app, Hx, (IH Hl). reflexivity.
Qed.

(** ** [urlparse], [urlunparse] and [urljoin] on the text the builder makes *)

Lemma urlparse_tame (P Q : str) :
  forallb tame P = true -> forallb tame Q = true ->
  exists n p,
    forallb tame n = true /\ forallb tame p = true
    /\ urlparse (P ++ "?"%char :: Q) (lit "https")
       = Some (mkParse (lit "https") n p [] Q []).
Proof.
  intros HP HQ.
  destruct (urlsplit_tame P Q (lit "https") HP HQ) as (n & p & Hn & Hp & Hs).
  exists n, p. split; [exact Hn|]. split; [exact Hp|].
  unfold urlparse. rewrite Hs. cbn [scheme netloc path query fragment].
  rewrite (tame_no_semicolon p Hp), andb_false_r. reflexivity.
Qed.

Lemma urlunparse_https (N pth Q : str) :
  nonempty N = true -> nonempty Q = true ->
  urlunparse (mkParse (lit "https") N pth [] Q [])
  = lit "https://"
      ++ (N ++ (if nonempty pth && negb (startswith pth (lit "/"))
                then lit "/" ++ pth else pth))
      ++ "?"%char :: Q.
Proof.
  intros HN HQ. unfold urlunparse, urlunsplit.
  cbn [p_scheme p_netloc p_path p_params p_query p_fragment nonempty].
  rewrite HN, HQ. cbn [orb].
  change (nonempty (lit "https")) with true. cbv iota.
  repeat rewrite <- app_assoc. reflexivity.
Qed.

Lemma base_parsed :
  urlparse BASE_URL []
  = Some (mkParse (lit "https") (lit "filmot.com") (lit "/search/") [] [] []).
Proof. vm_compute. reflexivity. Qed.

Lemma tame_slash_prefix (pth : str) :
  forallb tame pth = true ->
  forallb tame (if nonempty pth && negb (startswith pth (lit "/"))
                then lit "/" ++ pth else pth) = true.
Proof.
  intros H. destruct (nonempty pth && negb (startswith pth (lit "/")));
    [|exact H].
  change (lit "/" ++ pth) with ("/"%char :: pth). simpl. exact H.
Qed.

(** The URL [urljoin] gives for a relative reference made of a tame text,
    a question mark and a tame query: the query comes out as it went in. *)
Lemma urljoin_tame (P Q : str) :
  forallb tame P = true -> forallb tame Q = true -> nonempty Q = true ->
  exists W,
    forallb tame W = true
    /\ urljoin BASE_URL (P ++ "?"%char :: Q)
       = Some (lit "https://" ++ W ++ "?"%char :: Q).
Proof.
  intros HP HQ HQne. unfold urljoin.
  change (nonempty BASE_URL) with true. cbn [negb].
  replace (nonempty (P ++ "?"%char :: Q)) with true by (destruct P; reflexivity).
  cbn [negb]. rewrite base_parsed.
  destruct (urlparse_tame P Q HP HQ) as (n & p & Hn & Hp & Hu).
  cbn [p_scheme p_netloc p_path p_params p_query p_fragment].
  rewrite Hu.
  cbn [p_scheme p_netloc p_path p_params p_query p_fragment].
  change (str_eqb (lit "https") (lit "https")) with true.
  change (in_list (lit "https") uses_relative) with true.
  change (in_list (lit "https") uses_netloc) with true.
  cbn [negb orb andb].
  destruct (nonempty n) eqn:En.
  - rewrite (urlunparse_https n p Q En HQne).
    eexists. split; [|reflexivity].
    rewrite forallb_app, Hn. apply tame_slash_prefix. exact Hp.
  - destruct (nonempty p) eqn:Ep; cbn [negb andb].
    + set (segments :=
             if startswith p (lit "/") then split_on "/"%char p
             else drop_empty_inner
                    ((if nonempty (last (split_on "/"%char (lit "/search/")) [])
                      then removelast (split_on "/"%char (lit "/search/"))
                      else split_on "/"%char (lit "/search/"))
                     ++ split_on "/"%char p)).
      assert (Hseg : tames segments = true).
      { unfold segments. destruct (startswith p (lit "/")).
        - apply split_on_tame. exact Hp.
        - apply tames_drop_empty_inner. rewrite tames_app.
          rewrite (split_on_tame p Hp). rewrite andb_true_r.
          reflexivity. }
      set (resolved :=
             if in_list (last segments []) [lit "."; lit ".."]
             then resolve segments [] ++ [[]] else resolve segments []).
      assert (Hres : tames resolved = true).
      { unfold resolved.
        pose proof (tames_resolve segments [] Hseg eq_refl) as Hr.
        destruct (in_list (last segments []) [lit "."; lit ".."]);
          [rewrite tames_app, Hr; reflexivity|exact Hr]. }
      set (pth := if nonempty (join (lit "/") resolved)
                  then join (lit "/") resolved else lit "/").
      assert (Hpth : forallb tame pth = true).
      { unfold pth. destruct (nonempty (join (lit "/") resolved));
          [apply join_tame; exact Hres|reflexivity]. }
      rewrite (urlunparse_https (lit "filmot.com") pth Q eq_refl HQne).
      eexists. split; [|reflexivity].
      rewrite forallb_app. change (forallb tame (lit "filmot.com")) with true.
      apply tame_slash_prefix. exact Hpth.
    + rewrite HQne.
      rewrite (urlunparse_https (lit "filmot.com") (lit "/search/") Q
                 eq_refl HQne).
      eexists. split; [|reflexivity]. reflexivity.
Qed.

(** [urlsplit(url).query] of such a URL is the query. *)
Lemma url_query_tame (W Q : str) :
  forallb tame W = true -> forallb tame Q = true ->
  url_query (lit "https://" ++ W ++ "?"%char :: Q) = Some Q.
Proof.
  intros HW HQ. unfold url_query, urlsplit.
  rewrite clean_url_visible.
  2:{ rewrite forallb_app. change (forallb visible (lit "https://")) with true.
      rewrite forallb_app. simpl.
      rewrite (tame_visible W HW), (tame_visible Q HQ). reflexivity. }
  change (split_first ":"%char (lit "https://" ++ W ++ "?"%char :: Q))
    with (lit "https", Some (lit "//" ++ W ++ "?"%char :: Q)).
  cbv iota.
  change (match lit "https" with c :: _ => ascii_letter c | [] => false end
          && forallb scheme_char (lit "https")) with true.
  cbv iota.
  change (startswith (lit "//" ++ W ++ "?"%char :: Q) (lit "//")) with true.
  cbv iota. change (skipn 2 (lit "//" ++ W ++ "?"%char :: Q))
    with (W ++ "?"%char :: Q).
  destruct (splitnetloc_tame W Q HW) as (n & p & Hnp & Hs).
  rewrite Hs. rewrite Hnp in HW. apply forallb_app_inv in HW.
  destruct HW as [Hn Hp].
  rewrite (urlsplit_tail (map lower (lit "https")) n p Q Hn Hp HQ).
  reflexivity.
Qed.

(** ** Escaping and unescaping *)

Ltac each_char c :=
  destruct c as [[|] [|] [|] [|] [|] [|] [|] [|]].

Lemma escaped_with_space (c : ascii) :
  replace_char " "%char "+"%char
    (flat_map (fun b => if always_safe b || existsb (Ascii.eqb b) (lit " ")
                        then [b] else percent b) (utf8_char c))
  = escaped c.
Proof. each_char c; reflexivity. Qed.

Lemma escaped_without_space (c : ascii) :
  Ascii.eqb " "%char c = false ->
  flat_map (fun b => if always_safe b || existsb (Ascii.eqb b) []
                     then [b] else percent b) (utf8_char c)
  = escaped c.
Proof. each_char c; intros H; try discriminate H; reflexivity. Qed.

Lemma quote_plus_escaped (s : str) : quote_plus s = flat_map escaped s.
Proof.
  unfold quote_plus, quote, utf8_encode, replace_char.
  destruct (existsb (Ascii.eqb " "%char) s) eqn:E.
  - clear E. induction s as [|c s IH]; [reflexivity|].
    cbn [flat_map]. rewrite flat_map_app, map_app, IH. f_equal.
    apply escaped_with_space.
  - induction s as [|c s IH]; [reflexivity|].
    cbn [existsb] in E. apply orb_false_elim in E. destruct E as [Ec Es].
    cbn [flat_map]. rewrite flat_map_app, (IH Es). f_equal.
    apply escaped_without_space. exact Ec.
Qed.

Lemma escaped_form (c : ascii) : forallb form_char (escaped c) = true.
Proof. each_char c; reflexivity. Qed.

Lemma escaped_nonempty (c : ascii) : nonempty (escaped c) = true.
Proof. each_char c; reflexivity. Qed.

Lemma quote_plus_form (s : str) : forallb form_char (quote_plus s) = true.
Proof.
  rewrite quote_plus_escaped. induction s as [|c s IH]; [reflexivity|].
  cbn [flat_map]. rewrite forallb_app, escaped_form, IH. reflexivity.
Qed.

Lemma quote_plus_nonempty (s : str) :
  nonempty s = true -> nonempty (quote_plus s) = true.
Proof.
  rewrite quote_plus_escaped. destruct s as [|c s]; [discriminate|].
  intros _. cbn [flat_map]. pose proof (escaped_nonempty c) as H.
  destruct (escaped c); [discriminate|reflexivity].
Qed.

Lemma form_char_facts (c : ascii) :
  form_char c = true ->
  tame c = true /\ is_ascii c = true
  /\ Ascii.eqb c "&"%char = false /\ Ascii.eqb c "="%char = false.
Proof.
  each_char c; vm_compute; intros H; try discriminate H;
    repeat split; reflexivity.
Qed.

Lemma unquote_escaped (c : ascii) (rest : str) :
  unquote_to_bytes (plus_to_space (escaped c ++ rest))
  = utf8_char c ++ unquote_to_bytes (plus_to_space rest).
Proof. each_char c; reflexivity. Qed.

Lemma utf8_decode_char (c : ascii) (bs : list ascii) :
  utf8_decode (utf8_char c ++ bs) = option_map (cons c) (utf8_decode bs).
Proof. each_char c; reflexivity. Qed.

Lemma unquote_bytes_escaped (s : str) :
  unquote_to_bytes (plus_to_space (flat_map escaped s)) = utf8_encode s.
Proof.
  induction s as [|c s IH]; [reflexivity|].
  cbn [flat_map]. rewrite unquote_escaped, IH. reflexivity.
Qed.

Lemma utf8_decode_encode (s : str) : utf8_decode (utf8_encode s) = Some s.
Proof.
  induction s as [|c s IH]; [reflexivity|].
  unfold utf8_encode in *. cbn [flat_map].
  rewrite utf8_decode_char, IH. reflexivity.
Qed.

Lemma plus_to_space_ascii (s : str) :
  forallb form_char s = true -> forallb is_ascii (plus_to_space s) = true.
Proof.
  unfold plus_to_space, replace_char.
  induction s as [|c s IH]; [reflexivity|].
  intros H. simpl in H. apply andb_prop in H. destruct H as [Hc Hs].
  cbn [map forallb]. rewrite (IH Hs), andb_true_r.
  destruct (Ascii.eqb c "+"%char); [reflexivity|].
  apply form_char_facts. exact Hc.
Qed.

(** Unescaping gives back the text that was escaped. *)
Lemma unquote_plus_quote_plus (s : str) :
  unquote_plus (quote_plus s) = Some s.
Proof.
  unfold unquote_plus, unquote. fold plus_to_space.
  rewrite (plus_to_space_ascii _ (quote_plus_form s)).
  rewrite quote_plus_escaped, unquote_bytes_escaped.
  apply utf8_decode_encode.
Qed.

(** ** [urlencode] and [parse_qsl] *)

Lemma form_without (sep : ascii) (s : str) :
  form_char sep = false -> forallb form_char s = true -> without sep s = true.
Proof.
  intros Hsep. apply forallb_weaken. intros c Hc.
  apply negb_true_iff. destruct (Ascii.eqb_spec c sep); [|reflexivity].
  subst c. rewrite Hc in Hsep. discriminate.
Qed.

Lemma field_text_without_amp (kv : str * str) :
  without "&"%char (field_text kv) = true.
Proof.
  unfold field_text, without. rewrite !forallb_app.
  fold (without "&"%char (quote_plus (fst kv))).
  fold (without "&"%char (quote_plus (snd kv))).
  rewrite !(form_without "&"%char) by (reflexivity || apply quote_plus_form).
  reflexivity.
Qed.

Lemma split_on_from_piece (sep : ascii) (x : str) :
  forall r cur, without sep x = true ->
    split_on_from sep (x ++ r) cur = split_on_from sep r (rev x ++ cur).
Proof.
  induction x as [|c x IH]; intros r cur H; [reflexivity|].
  simpl in H. apply andb_prop in H. destruct H as [Hc Hx].
  apply negb_true_iff in Hc. cbn [app split_on_from]. rewrite Hc.
  rewrite (IH r (c :: cur) Hx). cbn [rev]. rewrite <- app_assoc.
  reflexivity.
Qed.

Lemma split_on_join (sep : ascii) (l : list str) :
  forall x, forallb (without sep) (x :: l) = true ->
    split_on sep (join [sep] (x :: l)) = x :: l.
Proof.
  unfold split_on. induction l as [|y l IH]; intros x H.
  - cbn [join]. rewrite <- (app_nil_r x) at 1.
    cbn [forallb] in H. apply andb_prop in H. destruct H as [Hx _].
    rewrite (split_on_from_piece sep x [] [] Hx). cbn [split_on_from].
    rewrite app_nil_r, rev_involutive. reflexivity.
  - cbn [forallb] in H. apply andb_prop in H. destruct H as [Hx Hl].
    change (join [sep] (x :: y :: l)) with (x ++ [sep] ++ join [sep] (y :: l)).
    rewrite (split_on_from_piece sep x _ [] Hx).
    cbn [app split_on_from]. rewrite Ascii.eqb_refl.
    rewrite app_nil_r, rev_involutive. f_equal. apply IH. exact Hl.
Qed.

Lemma parse_fields_texts (ps : list (str * str)) :
  forallb (fun kv => nonempty (snd kv)) ps = true ->
  parse_fields (map field_text ps) = Some ps.
Proof.
  induction ps as [|[k v] ps IH]; intros H; [reflexivity|].
  cbn [forallb snd] in H. apply andb_prop in H. destruct H as [Hv Hps].
  cbn [map parse_fields]. unfold field_text at 1. cbn [fst snd].
  change (lit "=" ++ quote_plus v) with ("="%char :: quote_plus v).
  rewrite split_first_found
    by (apply (form_without "="%char); [reflexivity|apply quote_plus_form]).
  pose proof (quote_plus_nonempty v Hv) as Hq.
  pose proof (unquote_plus_quote_plus v) as Hu.
  destruct (quote_plus v) as [|c q]; [discriminate|].
  rewrite unquote_plus_quote_plus, Hu, (IH Hps). reflexivity.
Qed.

(** Reading an encoded query string gives back the parameters, as long as
    no value is empty. *)
Lemma parse_qsl_urlencode (ps : list (str * str)) :
  forallb (fun kv => nonempty (snd kv)) ps = true ->
  parse_qsl (urlencode ps) = Some ps.
Proof.
  intros H. unfold parse_qsl, urlencode. fold field_text.
  destruct ps as [|kv ps]; [reflexivity|].
  change (lit "&") with ["&"%char]. cbn [map].
  rewrite (split_on_join "&"%char (map field_text ps) (field_text kv)).
  - apply (parse_fields_texts (kv :: ps)). exact H.
  - change (field_text kv :: map field_text ps)
      with (map field_text (kv :: ps)).
    rewrite forallb_forall. intros x Hx. apply in_map_iff in Hx.
    destruct Hx as [kv' [<- _]]. apply field_text_without_amp.
Qed.

Lemma form_tame (s : str) :
  forallb form_char s = true -> forallb tame s = true.
Proof. apply forallb_weaken. intros c H. apply form_char_facts. exact H. Qed.

Lemma urlencode_tame (ps : list (str * str)) :
  forallb tame (urlencode ps) = true.
Proof.
  unfold urlencode. fold field_text.
  assert (F : forall kv, forallb tame (field_text kv) = true).
  { intros kv. unfold field_text. rewrite !forallb_app.
    rewrite (form_tame _ (quote_plus_form (fst kv))),
            (form_tame _ (quote_plus_form (snd kv))). reflexivity. }
  induction ps as [|kv ps IH]; [reflexivity|].
  destruct ps as [|kv' ps]; [apply F|].
  change (join (lit "&") (map field_text (kv :: kv' :: ps)))
    with (field_text kv ++ lit "&"
            ++ join (lit "&") (map field_text (kv' :: ps))).
  rewrite !forallb_app, F, IH. reflexivity.
Qed.

Lemma urlencode_nonempty (kv : str * str) (ps : list (str * str)) :
  nonempty (urlencode (kv :: ps)) = true.
Proof.
  unfold urlencode. fold field_text. cbn [map].
  assert (F : nonempty (field_text kv) = true).
  { unfold field_text. destruct (quote_plus (fst kv)); reflexivity. }
  destruct (map field_text ps); cbn [join];
    destruct (field_text kv); try discriminate; reflexivity.
Qed.

(** ** The relative reference the builder makes *)

Lemma quote_tame (s : str) : forallb tame (quote s (lit "/")) = true.
Proof.
  unfold quote, utf8_encode. induction s as [|c s IH]; [reflexivity|].
  cbn [flat_map]. rewrite flat_map_app, forallb_app, IH, andb_true_r.
  clear. each_char c; reflexivity.
Qed.

Lemma digits_tame (u : uint) :
  forallb tame (list_ascii_of_string (NilEmpty.string_of_uint u)) = true.
Proof. induction u; simpl; try rewrite IHu; reflexivity. Qed.

Lemma digits0_tame (u : uint) :
  forallb tame (list_ascii_of_string (NilZero.string_of_uint u)) = true.
Proof.
  destruct u; try reflexivity; unfold NilZero.string_of_uint;
    apply digits_tame.
Qed.

Lemma str_of_Z_tame (z : Z) : forallb tame (str_of_Z z) = true.
Proof.
  unfold str_of_Z, NilZero.string_of_int. destruct (Z.to_int z) as [u|u].
  - apply digits0_tame.
  - cbn [list_ascii_of_string forallb]. rewrite digits0_tame. reflexivity.
Qed.

Lemma suburl_shape (query : str) (page_id : Z) (Q : str) :
  exists P,
    forallb tame P = true
    /\ posixpath_join (quote query (lit "/"))
         (lit "1/" ++ str_of_Z page_id ++ lit "?" ++ Q)
       = P ++ "?"%char :: Q.
Proof.
  unfold posixpath_join.
  change (startswith (lit "1/" ++ str_of_Z page_id ++ lit "?" ++ Q) (lit "/"))
    with false. cbv iota.
  pose proof (quote_tame query) as Hq.
  pose proof (str_of_Z_tame page_id) as Hz.
  set (a := quote query (lit "/")) in *.
  assert (Htail : forallb tame (lit "1/" ++ str_of_Z page_id) = true).
  { rewrite forallb_app, Hz. reflexivity. }
  destruct (rev a) as [|last r] eqn:E.
  - exists (lit "1/" ++ str_of_Z page_id). split; [exact Htail|].
    rewrite <- app_assoc. reflexivity.
  - destruct (Ascii.eqb last "/"%char).
    + exists (a ++ lit "1/" ++ str_of_Z page_id). split.
      * rewrite forallb_app, Hq, Htail. reflexivity.
      * repeat rewrite <- app_assoc. reflexivity.
    + exists (a ++ lit "/" ++ lit "1/" ++ str_of_Z page_id). split.
      * rewrite !forallb_app, Hq, Hz. reflexivity.
      * repeat rewrite <- app_assoc. reflexivity.
Qed.

(** The built URL, and the query string read from it, for any list of
    parameters that is not empty. *)
Lemma built_url_query (query : str) (page_id : Z) (kv : str * str)
      (ps : list (str * str)) :
  exists url,
    urljoin BASE_URL
      (posixpath_join (quote query (lit "/"))
         (lit "1/" ++ str_of_Z page_id ++ lit "?" ++ urlencode (kv :: ps)))
    = Some url
    /\ url_query url = Some (urlencode (kv :: ps)).
Proof.
  destruct (suburl_shape query page_id (urlencode (kv :: ps))) as [P [HP E]].
  rewrite E.
  destruct (urljoin_tame P (urlencode (kv :: ps)) HP
              (urlencode_tame _) (urlencode_nonempty _ _)) as [W [HW EW]].
  rewrite EW. eexists. split; [reflexivity|].
  apply url_query_tame; [exact HW|apply urlencode_tame].
Qed.

(** ** The parameters of the request *)

Lemma build_params_supplied (channel_id : option str)
      (filters : option Filters.Filters) (sort_option : option SortOption) :
  build_params channel_id filters sort_option
  = supplied channel_id filters sort_option.
Proof.
  destruct channel_id as [[|c0 t0]|];
    destruct sort_option as [[fld ord]|];
    (destruct filters as [[ttl vws lks dur dr lic]|]; [|reflexivity]);
    destruct ttl as [[|c1 t1]|]; destruct vws as [[a1 b1]|];
    destruct lks as [[a2 b2]|]; destruct dur as [[a3 b3]|];
    destruct dr as [[[d0|] [d1|]]|]; destruct lic as [l|];
    reflexivity.
Qed.

Lemma str_of_Z_nonempty (z : Z) : nonempty (str_of_Z z) = true.
Proof.
  unfold str_of_Z, NilZero.string_of_int, NilZero.string_of_uint.
  destruct (Z.to_int z) as [u|u]; destruct u; reflexivity.
Qed.

Lemma isoformat_nonempty (d : Filters.date) :
  nonempty (Filters.isoformat d) = true.
Proof.
  unfold Filters.isoformat.
  destruct (Filters.zero_pad 4 (Filters.year d)); reflexivity.
Qed.

Lemma given_nonempty (name : string) (o : option str) :
  filled_value o ->
  forallb (fun kv => nonempty (snd kv)) (given name o) = true.
Proof.
  destruct o as [v|]; simpl; [|reflexivity].
  intros H. rewrite H. reflexivity.
Qed.

Lemma supplied_nonempty (channel_id : option str)
      (filters : option Filters.Filters) (sort_option : option SortOption) :
  forallb (fun kv => nonempty (snd kv))
          (supplied channel_id filters sort_option) = true.
Proof.
  unfold supplied. set (f := match filters with Some f => f | None => _ end).
  repeat rewrite forallb_app.
  change (forallb (fun kv : str * str => nonempty (snd kv))
                  (given "gridView" (Some (lit "1")))) with true.
  cbn [andb].
  repeat (apply andb_true_intro; split); apply given_nonempty.
  - destruct channel_id as [[|? ?]|]; simpl; trivial.
  - destruct (Filters.title f) as [[|? ?]|]; simpl; trivial.
  - destruct (Filters.duration f); simpl; trivial using str_of_Z_nonempty.
  - destruct (Filters.duration f); simpl; trivial using str_of_Z_nonempty.
  - destruct (Filters.views f); simpl; trivial using str_of_Z_nonempty.
  - destruct (Filters.views f); simpl; trivial using str_of_Z_nonempty.
  - destruct (Filters.likes f); simpl; trivial using str_of_Z_nonempty.
  - destruct (Filters.likes f); simpl; trivial using str_of_Z_nonempty.
  - destruct (Filters.date_range f) as [[[?|] ?]|]; simpl;
      trivial using isoformat_nonempty.
  - destruct (Filters.date_range f) as [[? [?|]]|]; simpl;
      trivial using isoformat_nonempty.
  - destruct (Filters.license f) as [[]|]; simpl; trivial.
  - destruct sort_option as [[[] ?]|]; simpl; trivial.
  - destruct sort_option as [[? []]|]; simpl; trivial.
Qed.

(** C8, as amended.  The builder returns a URL; the query string of that
    URL, read back, is exactly the list of the parameters supplied, each
    under its wire name with the text of its value, in the order of the
    request: the view flag, the channel id, the fields of the filters that are
    set (title, duration, views, likes, dates in ISO form, licence code) and
    the sort field and order.  A title or a channel id counts as set when it
    is not the empty text. *)
Theorem C8_query_string_carries_the_parameters
  (query : str) (channel_id : option str) (filters : option Filters.Filters)
  (sort_option : option SortOption) (page_id : Z) :
  exists url qs,
    _build_search_url query channel_id filters sort_option page_id = Some url
    /\ url_query url = Some qs
    /\ parse_qsl qs = Some (supplied channel_id filters sort_option).
Proof.
  unfold _build_search_url. rewrite build_params_supplied.
  pose proof (supplied_nonempty channel_id filters sort_option) as Hne.
  destruct (supplied channel_id filters sort_option) as [|kv ps] eqn:E.
  - exfalso. unfold supplied in E. discriminate E.
  - destruct (built_url_query query page_id kv ps) as [url [Hu Hq]].
    exists url, (urlencode (kv :: ps)).
    split; [exact Hu|]. split; [exact Hq|].
    apply parse_qsl_urlencode. exact Hne.
Qed.

(** The builder on a request with every parameter set. *)
Example full_request_url :
  _build_search_url (lit "hello world") (Some (lit "UC 1"))
    (Some Pages.full_filters) (Some Pages.by_views) 3
  = Some (lit "https://filmot.com/search/hello%20world/1/3?gridView=1&channelID=UC+1&title=a%26b%3Dc+d&startDuration=1&endDuration=10&minViews=0&maxViews=5&minLikes=30&maxLikes=40&startDate=2020-01-05&endDate=2021-12-31&license=2&sortField=viewcount&sortOrder=desc").
Proof. vm_compute. reflexivity. Qed.

Example full_request_supplied :
  supplied (Some (lit "UC 1")) (Some Pages.full_filters) (Some Pages.by_views)
  = [(lit "gridView", lit "1"); (lit "channelID", lit "UC 1");
     (lit "title", lit "a&b=c d");
     (lit "startDuration", lit "1"); (lit "endDuration", lit "10");
     (lit "minViews", lit "0"); (lit "maxViews", lit "5");
     (lit "minLikes", lit "30"); (lit "maxLikes", lit "40");
     (lit "startDate", lit "2020-01-05"); (lit "endDate", lit "2021-12-31");
     (lit "license", lit "2");
     (lit "sortField", lit "viewcount"); (lit "sortOrder", lit "desc")].
Proof. vm_compute. reflexivity. Qed.

(** C8 as stated fails: with the title filter set to the empty text the URL
    carries no title parameter. *)
Lemma C8_counterexample :
  Filters.title Pages.empty_title_filters = Some []
  /\ _build_search_url (lit "cats") None (Some Pages.empty_title_filters)
       None 1
     = Some (lit "https://filmot.com/search/cats/1/1?gridView=1")
  /\ option_map parse_qsl
       (url_query (lit "https://filmot.com/search/cats/1/1?gridView=1"))
     = Some (Some [(lit "gridView", lit "1")])
  /\ ~ (exists url qs ps,
          _build_search_url (lit "cats") None
            (Some Pages.empty_title_filters) None 1 = Some url
          /\ url_query url = Some qs /\ parse_qsl qs = Some ps
          /\ dict_get ps (lit "title")
             = Filters.title Pages.empty_title_filters).
Proof.
  split; [reflexivity|]. split; [vm_compute; reflexivity|].
  split; [vm_compute; reflexivity|].
  intros (url & qs & ps & H1 & H2 & H3 & H4).
  vm_compute in H1. inversion H1; subst url.
  vm_compute in H2. inversion H2; subst qs.
  vm_compute in H3. inversion H3; subst ps.
  vm_compute in H4. discriminate H4.
Qed.

End UrlFacts.

(* ================================================================== *)
(** * Properties of text and dicts *)
(* ================================================================== *)

Module TextFacts.

Lemma str_eqb_refl (k : str) : str_eqb k k = true.
Proof.
  induction k as [|c k IH]; [reflexivity|].
  simpl. rewrite Ascii.eqb_refl. exact IH.
Qed.

Lemma str_eqb_eq (a b : str) : str_eqb a b = true -> a = b.
Proof.
  revert b. induction a as [|x a IH]; intros [|y b] H; try discriminate H.
  - reflexivity.
  - simpl in H. apply andb_prop in H. destruct H as [Hx Ha].
    apply Ascii.eqb_eq in Hx. subst y. f_equal. apply IH. exact Ha.
Qed.

Lemma str_eqb_neq (a b : str) : a <> b -> str_eqb a b = false.
Proof.
  intros H. destruct (str_eqb a b) eqn:E; [|reflexivity].
  exfalso. apply H. apply str_eqb_eq. exact E.
Qed.

Lemma dict_get_set_same {V} (d : list (str * V)) (k : str) (v : V) :
  dict_get (dict_set d k v) k = Some v.
Proof.
  induction d as [|[k' v'] d IH]; simpl.
  - rewrite str_eqb_refl. reflexivity.
  - destruct (str_eqb k' k) eqn:E; simpl; rewrite E; [reflexivity|exact IH].
Qed.

Lemma dict_get_app {V} (l1 l2 : list (str * V)) (k : str) :
  dict_get (l1 ++ l2) k
  = match dict_get l1 k with
    | Some v => Some v
    | None => dict_get l2 k
    end.
Proof.
  induction l1 as [|[k' v'] l1 IH]; [reflexivity|].
  simpl. destruct (str_eqb k' k); [reflexivity|exact IH].
Qed.

End TextFacts.

(* ================================================================== *)
(** * Properties of helpers.py *)
(* ================================================================== *)

Module HelpersFacts.
Import Helpers.

Lemma remove_forbidden_clean (s : str) :
  forallb (fun c => negb (forbidden c)) (remove_forbidden s) = true.
Proof.
  unfold remove_forbidden. induction s as [|c s IH]; [reflexivity|].
  simpl. destruct (forbidden c) eqn:E; simpl; [exact IH|].
  rewrite E. exact IH.
Qed.

Lemma forallb_firstn {A} (f : A -> bool) (n : nat) (l : list A) :
  forallb f l = true -> forallb f (firstn n l) = true.
Proof.
  revert n. induction l as [|x l IH]; intros [|n] H; try reflexivity.
  simpl in *. apply andb_prop in H. destruct H as [Hx Hl].
  rewrite Hx. apply IH. exact Hl.
Qed.

Lemma up_to_firstn (n : Z) (s : str) : exists k, up_to n s = firstn k s.
Proof. unfold up_to. destruct (n <? 0)%Z; eauto. Qed.

Lemma remove_forbidden_fixed (s : str) :
  forallb (fun c => negb (forbidden c)) s = true -> remove_forbidden s = s.
Proof.
  unfold remove_forbidden. induction s as [|c s IH]; [reflexivity|].
  simpl. intros H. apply andb_prop in H. destruct H as [Hc Hs].
  rewrite Hc. f_equal. apply IH. exact Hs.
Qed.

(** X1.  Whatever the text and the bound, positive, zero or negative,
    [safe_filename] returns a text without any of the nine characters of the
    class, and that text is the beginning of the input with those characters
    removed. *)
Theorem safe_filename_has_no_forbidden_character (s : str) (max_length : Z) :
  forallb (fun c => negb (forbidden c)) (safe_filename s max_length) = true
  /\ exists rest,
       remove_forbidden s = safe_filename s max_length ++ rest.
Proof.
  unfold safe_filename.
  destruct (up_to_firstn max_length (remove_forbidden s)) as [k ->].
  split.
  - apply forallb_firstn. apply remove_forbidden_clean.
  - exists (skipn k (remove_forbidden s)). symmetry. apply firstn_skipn.
Qed.

(** X2.  With a bound that is not negative, the result is never longer than
    the bound; it is shorter only when the cleaned text is. *)
Theorem safe_filename_respects_the_bound (s : str) (max_length : Z) :
  (0 <= max_length)%Z ->
  Z.of_nat (length (safe_filename s max_length))
  = Z.min max_length (Z.of_nat (length (remove_forbidden s))).
Proof.
  intros H. unfold safe_filename, up_to.
  destruct (max_length <? 0)%Z eqn:E; [apply Z.ltb_lt in E; lia|].
  rewrite length_firstn. lia.
Qed.

Lemma safe_filename_respects_the_bound_witness :
  Z.of_nat (length (safe_filename (lit "a/b:c*d?e.txt") 5))
  = Z.min 5 (Z.of_nat (length (remove_forbidden (lit "a/b:c*d?e.txt")))).
Proof.
  apply (safe_filename_respects_the_bound (lit "a/b:c*d?e.txt") 5). lia.
Defined.

(** X3.  A negative bound does not bound the length: [max_length = -k]
    removes the last [k] characters of the cleaned text, so the result has
    the length of the cleaned text less [k] (0 when the text is shorter). *)
Theorem safe_filename_negative_bound (s : str) (max_length : Z) :
  (max_length < 0)%Z ->
  Z.of_nat (length (safe_filename s max_length))
  = Z.max 0 (Z.of_nat (length (remove_forbidden s)) + max_length).
Proof.
  intros H. unfold safe_filename, up_to.
  destruct (max_length <? 0)%Z eqn:E; [|apply Z.ltb_ge in E; lia].
  rewrite length_firstn. lia.
Qed.

Lemma safe_filename_negative_bound_witness :
  Z.of_nat (length (safe_filename (lit "a/b:c*d?e.txt") (-2)))
  = Z.max 0 (Z.of_nat (length (remove_forbidden (lit "a/b:c*d?e.txt")))
             + (-2)).
Proof.
  apply (safe_filename_negative_bound (lit "a/b:c*d?e.txt") (-2)). lia.
Defined.

(** X4.  With a bound that is not negative, sanitising is idempotent: a
    sanitised name is returned as it is.  So is any text that has none of the
    characters and fits the bound. *)
Theorem safe_filename_idempotent (s : str) (max_length : Z) :
  (0 <= max_length)%Z ->
  safe_filename (safe_filename s max_length) max_length
  = safe_filename s max_length
  /\ (forallb (fun c => negb (forbidden c)) s = true ->
      (Z.of_nat (length s) <= max_length)%Z ->
      safe_filename s max_length = s).
Proof.
  intros H. unfold safe_filename, up_to.
  destruct (max_length <? 0)%Z eqn:E; [apply Z.ltb_lt in E; lia|].
  split.
  - rewrite (remove_forbidden_fixed (firstn _ _))
      by (apply forallb_firstn; apply remove_forbidden_clean).
    apply firstn_all2. rewrite length_firstn. lia.
  - intros Hc Hl. rewrite (remove_forbidden_fixed s Hc).
    apply firstn_all2. lia.
Qed.

Lemma safe_filename_idempotent_witness :
  safe_filename (safe_filename (lit "a/b:c*d?e.txt") 5) 5
  = safe_filename (lit "a/b:c*d?e.txt") 5
  /\ safe_filename (lit "notes.txt") 255 = lit "notes.txt".
Proof.
  split.
  - apply (proj1 (safe_filename_idempotent (lit "a/b:c*d?e.txt") 5
                    ltac:(lia))).
  - apply (proj2 (safe_filename_idempotent (lit "notes.txt") 255 ltac:(lia)));
      [reflexivity|simpl; lia].
Defined.

End HelpersFacts.

(* ================================================================== *)
(** * Properties of the records of extractor.py *)
(* ================================================================== *)

Module CardFacts.
Import Bs4 Video Extractor Wording.

(** ** Searching the tree *)

Lemma find_some (n : node) (name : str) (test : node -> bool) (x : node) :
  find n name test = Some x ->
  In x (descendants n) /\ is_tag name x = true /\ test x = true.
Proof.
  unfold find, find_all. intros H.
  assert (Hin : In x (filter (fun d => is_tag name d && test d)
                             (descendants n))).
  { destruct (filter _ (descendants n)) as [|y l]; [discriminate|].
    inversion H; subst. left. reflexivity. }
  apply filter_In in Hin. destruct Hin as [Hin Ht].
  apply andb_prop in Ht. tauto.
Qed.

Lemma find_all_in (n : node) (name : str) (test : node -> bool) (x : node) :
  In x (find_all n name test) -> is_tag name x = true /\ test x = true.
Proof.
  unfold find_all. intros H. apply filter_In in H. destruct H as [_ H].
  apply andb_prop in H. exact H.
Qed.

Lemma attr_and_some (key : str) (test : str -> bool) (n : node) :
  attr_and key test n = true ->
  exists v, get n key = Some v /\ v <> [] /\ test v = true.
Proof.
  unfold attr_and. destruct (get n key) as [[|c v]|]; try discriminate.
  intros H. exists (c :: v). repeat split; [discriminate|exact H].
Qed.

(** ** The records of a page come from its cards *)

Lemma for_cards_ok (cards : list node) (acc out : list VideoInfo) :
  for_cards cards acc = Ok out ->
  exists records,
    out = acc ++ records
    /\ Forall2 (fun card info => extract_card card = Ok info) cards records.
Proof.
  intros H. destruct (forallb has_scroll_box cards) eqn:E.
  - destruct (ExtractorFacts.for_cards_all cards acc E) as [rs [Hrs HF]].
    rewrite Hrs in H. inversion H; subst. exists rs. split; auto.
  - rewrite ExtractorFacts.for_cards_some_bare in H by exact E.
    discriminate.
Qed.

Lemma Forall2_in_right {A B} (R : A -> B -> Prop) (l : list A) (r : list B)
      (y : B) :
  Forall2 R l r -> In y r -> exists x, In x l /\ R x y.
Proof.
  induction 1 as [|a b l r Hab _ IH]; intros Hin; [contradiction|].
  destruct Hin as [->|Hin].
  - exists a. split; [left; reflexivity|exact Hab].
  - destruct (IH Hin) as [x [Hx Hr]]. exists x. split; [right|]; assumption.
Qed.

Lemma record_of_card (soup : node) (videos : list VideoInfo) (v : VideoInfo) :
  extract soup = Ok videos -> In v videos ->
  exists card,
    In card (find_all soup (lit "div") is_card)
    /\ extract_card card = Ok v.
Proof.
  unfold extract. intros H Hin.
  destruct (for_cards_ok _ _ _ H) as [rs [-> HF]].
  apply (Forall2_in_right _ _ _ v HF). exact Hin.
Qed.

(** The fields of the record of a card, read off [extract_card]. *)
Lemma extract_card_fields (card : node) (v : VideoInfo) :
  extract_card card = Ok v ->
  vcard_id v = get card (lit "id")
  /\ video_link v
     = match find card (lit "a")
               (attr_and (lit "href")
                         (fun h => contains h (lit "youtube.com/watch"))) with
       | Some a => get a (lit "href")
       | None => None
       end
  /\ exists box,
       find card (lit "div") (has_class (lit "scroll-box")) = Some box
       /\ scroll_text v
          = Some (join (lit " ") (split (get_text [ascii_of_nat 10] box))).
Proof.
  unfold extract_card. destruct (badge_loop (badges_of card)) as [[vw lk] ud].
  destruct (find card (lit "div") (has_class (lit "scroll-box"))) as [box|];
    [|discriminate].
  cbn [option_map]. intros H. inversion H; subst; clear H.
  cbn [vcard_id video_link scroll_text]. split; [reflexivity|].
  split; [reflexivity|]. exists box. split; reflexivity.
Qed.

(** ** Whitespace *)


Lemma split_from_words (s : str) :
  forall cur, forallb (fun c => negb (is_space c)) cur = true ->
    Forall word (split_from s cur).
Proof.
  induction s as [|c s IH]; intros cur Hcur.
  - simpl. destruct cur as [|d cur]; [constructor|].
    constructor; [|constructor]. split.
    + intros E. apply (f_equal (@length ascii)) in E.
      rewrite length_rev in E. discriminate E.
    + rewrite UrlFacts.forallb_rev. exact Hcur.
  - simpl. destruct (is_space c) eqn:Ec.
    + destruct cur as [|d cur]; [apply IH; reflexivity|].
      constructor; [|apply IH; reflexivity]. split.
      * intros E. apply (f_equal (@length ascii)) in E.
        rewrite length_rev in E. discriminate E.
      * rewrite UrlFacts.forallb_rev. exact Hcur.
    + apply IH. simpl. rewrite Ec. exact Hcur.
Qed.

Lemma split_words (s : str) : Forall word (split s).
Proof. apply split_from_words. reflexivity. Qed.

Lemma split_from_word (w : str) :
  forall rest cur, forallb (fun c => negb (is_space c)) w = true ->
    split_from (w ++ rest) cur = split_from rest (rev w ++ cur).
Proof.
  induction w as [|c w IH]; intros rest cur H; [reflexivity|].
  simpl in H. apply andb_prop in H. destruct H as [Hc Hw].
  apply negb_true_iff in Hc. cbn [app split_from]. rewrite Hc.
  rewrite (IH rest (c :: cur) Hw). cbn [rev]. rewrite <- app_assoc.
  reflexivity.
Qed.

(** Splitting the words joined by single spaces gives the words back. *)
Lemma split_join_words (ws : list str) :
  Forall word ws -> split (join (lit " ") ws) = ws.
Proof.
  unfold split. induction 1 as [|w ws [Hne Hw] Hws IH]; [reflexivity|].
  destruct ws as [|w2 ws].
  - cbn [join]. rewrite <- (app_nil_r w) at 1.
    rewrite (split_from_word w [] [] Hw). cbn [split_from].
    rewrite app_nil_r. destruct (rev w) eqn:E.
    + apply (f_equal (@length ascii)) in E. rewrite length_rev in E.
      destruct w; [contradiction|discriminate E].
    + rewrite <- E, rev_involutive. reflexivity.
  - change (join (lit " ") (w :: w2 :: ws))
      with (w ++ " "%char :: join (lit " ") (w2 :: ws)).
    rewrite (split_from_word w _ [] Hw). cbn [split_from].
    change (is_space " "%char) with true. cbv iota.
    rewrite app_nil_r. destruct (rev w) eqn:E.
    + apply (f_equal (@length ascii)) in E. rewrite length_rev in E.
      destruct w; [contradiction|discriminate E].
    + rewrite <- E, rev_involutive. f_equal. exact IH.
Qed.

(** ** The badge loop keeps dates that hold a letter *)


Lemma badge_step_dated (vars : badge_vars) (span : node) :
  dated vars -> dated (badge_step vars span).
Proof.
  destruct vars as [[vw lk] ud]. unfold badge_step. intros H.
  destruct (has_eye span); [exact H|].
  destruct (has_thumbs_up span); [exact H|].
  destruct (has_letter (get_text [] span)) eqn:E; [exact E|exact H].
Qed.

Lemma badge_loop_dated (badges : list node) : dated (badge_loop badges).
Proof.
  unfold badge_loop.
  assert (G : forall vars, dated vars -> dated (fold_left badge_step badges vars)).
  { induction badges as [|b bs IH]; intros vars H; [exact H|].
    simpl. apply IH. apply badge_step_dated. exact H. }
  apply G. exact I.
Qed.

(** X5.  Every record [extract] returns carries the id of its card, a text
    that begins with vcard, and a scroll text: neither field is ever
    [None]. *)
Theorem records_carry_card_id_and_scroll_text
  (soup : node) (videos : list VideoInfo) (v : VideoInfo) :
  extract soup = Ok videos -> In v videos ->
  (exists id, vcard_id v = Some id /\ startswith id (lit "vcard") = true)
  /\ exists t, scroll_text v = Some t.
Proof.
  intros H Hin. destruct (record_of_card soup videos v H Hin) as [card [Hc He]].
  apply find_all_in in Hc. destruct Hc as [_ Hc].
  destruct (extract_card_fields card v He) as [Hid [_ [box [_ Hs]]]].
  split.
  - unfold is_card in Hc. apply attr_and_some in Hc.
    destruct Hc as [id [Hg [_ Hp]]]. exists id. rewrite Hid. auto.
  - eexists. exact Hs.
Qed.

Lemma records_carry_card_id_and_scroll_text_witness :
  extract MorePages.linked_page = Ok [MorePages.linked_record]
  /\ (exists id, vcard_id MorePages.linked_record = Some id
                 /\ startswith id (lit "vcard") = true)
  /\ exists t, scroll_text MorePages.linked_record = Some t.
Proof.
  split; [vm_compute; reflexivity|].
  apply (records_carry_card_id_and_scroll_text MorePages.linked_page
           [MorePages.linked_record]).
  - vm_compute. reflexivity.
  - left. reflexivity.
Defined.

(** X6.  In every record [extract] returns, a video link that is set is a
    text that contains youtube.com/watch, and an upload date that is set is
    a text with at least one letter. *)
Theorem records_link_and_date_are_checked
  (soup : node) (videos : list VideoInfo) (v : VideoInfo) :
  extract soup = Ok videos -> In v videos ->
  (forall h, video_link v = Some h ->
             contains h (lit "youtube.com/watch") = true)
  /\ (forall d, upload_date v = Some d -> has_letter d = true).
Proof.
  intros H Hin. destruct (record_of_card soup videos v H Hin) as [card [_ He]].
  split.
  - intros h Hh. destruct (extract_card_fields card v He) as [_ [Hl _]].
    rewrite Hl in Hh.
    destruct (find card (lit "a") _) as [a|] eqn:Ea; [|discriminate].
    apply find_some in Ea. destruct Ea as [_ [_ Ea]].
    apply attr_and_some in Ea. destruct Ea as [h' [Hg [_ Hc]]].
    rewrite Hg in Hh. inversion Hh; subst. exact Hc.
  - intros d Hd. pose proof (badge_loop_dated (badges_of card)) as Hb.
    rewrite <- (ExtractorFacts.extract_card_badges card v He) in Hb.
    unfold dated in Hb. rewrite Hd in Hb. exact Hb.
Qed.

Lemma records_link_and_date_are_checked_witness :
  extract MorePages.linked_page = Ok [MorePages.linked_record]
  /\ contains (lit "https://www.youtube.com/watch?v=abc")
              (lit "youtube.com/watch") = true
  /\ has_letter (lit "Jan 1, 2020") = true.
Proof.
  split; [vm_compute; reflexivity|].
  destruct (records_link_and_date_are_checked MorePages.linked_page
              [MorePages.linked_record] MorePages.linked_record)
    as [Hlink Hdate].
  - vm_compute. reflexivity.
  - left. reflexivity.
  - split; [apply Hlink|apply Hdate]; reflexivity.
Defined.

(** X7.  The scroll text of every record is normalised: it is made of
    words, texts that are not empty and hold no whitespace, joined by single
    spaces.  So it has no whitespace at either end, no line break and no run
    of spaces, and splitting it gives its words back. *)
Theorem records_scroll_text_is_normalised
  (soup : node) (videos : list VideoInfo) (v : VideoInfo) :
  extract soup = Ok videos -> In v videos ->
  exists words,
    Forall word words
    /\ scroll_text v = Some (join (lit " ") words)
    /\ split (join (lit " ") words) = words.
Proof.
  intros H Hin. destruct (record_of_card soup videos v H Hin) as [card [_ He]].
  destruct (extract_card_fields card v He) as [_ [_ [box [_ Hs]]]].
  exists (split (get_text [ascii_of_nat 10] box)).
  split; [apply split_words|]. split; [exact Hs|].
  apply split_join_words. apply split_words.
Qed.

Lemma records_scroll_text_is_normalised_witness :
  extract MorePages.linked_page = Ok [MorePages.linked_record]
  /\ exists words,
       Forall word words
       /\ scroll_text MorePages.linked_record = Some (join (lit " ") words)
       /\ split (join (lit " ") words) = words.
Proof.
  split; [vm_compute; reflexivity|].
  apply (records_scroll_text_is_normalised MorePages.linked_page
           [MorePages.linked_record] MorePages.linked_record).
  - vm_compute. reflexivity.
  - left. reflexivity.
Defined.

End CardFacts.

(* ================================================================== *)
(** * Properties of the filter options of extractor.py *)
(* ================================================================== *)

Module FilterOptionFacts.
Import Bs4 FilterExtractor.

(** ** The links of the sort panel *)

Lemma has_attr_get (key : str) (n : node) :
  has_attr key n = true -> exists v, get n key = Some v.
Proof.
  unfold has_attr. destruct (get n key) as [v|]; [eauto|discriminate].
Qed.

Lemma sort_option_returns (a : node) :
  has_attr (lit "href") a = true -> exists entry, sort_option a = Returns entry.
Proof.
  intros H. destruct (has_attr_get _ _ H) as [h Hh]. unfold sort_option.
  rewrite Hh. destruct (order_by_search h) as [[f o]|]; eauto.
Qed.

Lemma sort_options_return (links : list node) :
  forall acc,
    Forall (fun a => has_attr (lit "href") a = true) links ->
    exists entries, sort_options links acc = Returns entries.
Proof.
  induction links as [|a links IH]; intros acc H; [simpl; eauto|].
  inversion H as [|? ? Ha Hl]; subst.
  destruct (sort_option_returns a Ha) as [entry He]. simpl. rewrite He.
  apply IH. exact Hl.
Qed.

Lemma sort_links_have_href (sort_div : node) :
  Forall (fun a => has_attr (lit "href") a = true)
         (find_all sort_div (lit "a") (has_attr (lit "href"))).
Proof.
  apply Forall_forall. intros a Ha. unfold find_all in Ha.
  apply filter_In in Ha. destruct Ha as [_ Ha].
  apply andb_prop in Ha. apply Ha.
Qed.

Lemma sorted_returns (sort_div : node) :
  exists entries,
    sort_options (find_all sort_div (lit "a") (has_attr (lit "href"))) []
    = Returns entries.
Proof. apply sort_options_return. apply sort_links_have_href. Qed.

(** ** The filter panel *)

Lemma filter_controls_cases (re_bound : bool) (filters_div : node) :
  (re_bound = false /\ date_buttons filters_div <> []
   /\ filter_controls re_bound filters_div = UnboundLocalError)
  \/ ((re_bound = true \/ date_buttons filters_div = [])
      /\ exists controls date_range extras,
           filter_controls re_bound filters_div = Returns controls
           /\ dict_get controls (lit "Date Range") = Some (JObj date_range)
           /\ dict_get date_range (lit "extra_options")
              = Some (JArr extras)).
Proof.
  unfold filter_controls, date_buttons. cbv zeta.
  destruct (find filters_div (lit "div") (has_class (lit "dropdown-menu")))
    as [dropdown|].
  - destruct (find_all dropdown (lit "button")
                       (has_class (lit "dateoptionselect"))) as [|b bs].
    + right. split; [right; reflexivity|]. cbn [date_options].
      do 3 eexists. split; [reflexivity|].
      split; apply TextFacts.dict_get_set_same.
    + destruct re_bound.
      * right. split; [left; reflexivity|]. cbn [date_options].
        do 3 eexists. split; [reflexivity|].
        split; apply TextFacts.dict_get_set_same.
      * left. split; [reflexivity|]. split; [discriminate|reflexivity].
  - right. split; [right; reflexivity|].
    do 3 eexists. split; [reflexivity|].
    split; apply TextFacts.dict_get_set_same.
Qed.

(** ** The patterns *)

Lemma not_quotes_split (s : str) :
  s = fst (not_quotes s) ++ snd (not_quotes s)
  /\ forallb (fun c => negb (Ascii.eqb c squote)) (fst (not_quotes s)) = true.
Proof.
  induction s as [|c s [IH1 IH2]]; [split; reflexivity|].
  simpl. destruct (Ascii.eqb c squote) eqn:E; [split; reflexivity|].
  destruct (not_quotes s) as [run rest]. simpl in *. rewrite E, IH2.
  split; [f_equal; exact IH1|reflexivity].
Qed.

Lemma group_some (s run rest : str) :
  group s = Some (run, rest) -> s = run ++ rest /\ plain run.
Proof.
  unfold group. pose proof (not_quotes_split s) as [H1 H2].
  destruct (not_quotes s) as [[|c r] rest0]; [discriminate|].
  intros H. injection H as Hr Hrest. cbn [fst snd] in H1, H2.
  rewrite Hr, Hrest in H1. rewrite Hr in H2.
  split; [exact H1|]. split; [rewrite <- Hr; discriminate|exact H2].
Qed.

Lemma not_quotes_plain (t rest : str) :
  forallb (fun c => negb (Ascii.eqb c squote)) t = true ->
  not_quotes (t ++ squote :: rest) = (t, squote :: rest).
Proof.
  induction t as [|c t IH]; intros H; [reflexivity|].
  simpl in H. apply andb_prop in H. destruct H as [Hc Ht].
  apply negb_true_iff in Hc. cbn [app not_quotes]. rewrite Hc.
  rewrite (IH Ht). reflexivity.
Qed.

Lemma group_plain (t rest : str) :
  plain t -> group (t ++ squote :: rest) = Some (t, squote :: rest).
Proof.
  intros [Hne H]. unfold group. rewrite (not_quotes_plain t rest H).
  destruct t; [contradiction|reflexivity].
Qed.

Lemma order_by_here_some (t field order : str) :
  order_by_here t = Some (field, order) ->
  exists post, t = order_call field order ++ post
               /\ plain field /\ plain order.
Proof.
  unfold order_by_here. intros H.
  destruct (Channel.expect (lit "orderByField('") t) as [s1|] eqn:E1;
    [|discriminate].
  destruct (group s1) as [[f s2]|] eqn:G1; [|discriminate].
  destruct (Channel.expect (lit "','") s2) as [s3|] eqn:E2; [|discriminate].
  destruct (group s3) as [[o s4]|] eqn:G2; [|discriminate].
  destruct (Channel.expect (lit "')") s4) as [s5|] eqn:E3; [|discriminate].
  inversion H; subst f o.
  apply ChannelFacts.expect_some in E1, E2, E3.
  apply group_some in G1, G2. destruct G1 as [G1 P1], G2 as [G2 P2].
  exists s5. split; [|split; assumption].
  unfold order_call. subst t s1 s2 s3 s4.
  repeat rewrite <- app_assoc. reflexivity.
Qed.

Lemma order_by_here_call (field order post : str) :
  plain field -> plain order ->
  order_by_here (order_call field order ++ post) = Some (field, order).
Proof.
  intros Hf Ho. unfold order_by_here, order_call.
  repeat rewrite <- app_assoc.
  rewrite ChannelFacts.expect_app.
  change (lit "','" ++ order ++ lit "')" ++ post)
    with (squote :: lit ",'" ++ order ++ squote :: lit ")" ++ post).
  rewrite (group_plain field _ Hf).
  change (squote :: lit ",'" ++ order ++ squote :: lit ")" ++ post)
    with (lit "','" ++ order ++ squote :: lit ")" ++ post).
  rewrite ChannelFacts.expect_app.
  rewrite (group_plain order _ Ho).
  change (squote :: lit ")" ++ post) with (lit "')" ++ post).
  rewrite ChannelFacts.expect_app. reflexivity.
Qed.

Lemma order_by_search_some (t field order : str) :
  order_by_search t = Some (field, order) ->
  exists pre post, t = pre ++ order_call field order ++ post
                   /\ plain field /\ plain order.
Proof.
  induction t as [|c t IH]; intros H.
  - discriminate H.
  - cbn [order_by_search] in H.
    destruct (order_by_here (c :: t)) as [[f o]|] eqn:E.
    + inversion H; subst. apply order_by_here_some in E.
      destruct E as [post [E P]]. exists [], post. split; [exact E|exact P].
    + destruct (IH H) as (pre & post & E' & P).
      exists (c :: pre), post. split; [simpl; f_equal; exact E'|exact P].
Qed.

Lemma order_by_search_call (pre field order post : str) :
  Urllib.without "("%char pre = true -> plain field -> plain order ->
  order_by_search (pre ++ order_call field order ++ post)
  = Some (field, order).
Proof.
  intros Hpre Hf Ho. induction pre as [|c pre IH].
  - cbn [app]. unfold order_call at 1.
    change ((lit "orderByField('" ++ field ++ lit "','" ++ order ++ lit "')")
            ++ post)
      with ("o"%char :: (lit "rderByField('" ++ field ++ lit "','" ++ order
                         ++ lit "')") ++ post).
    cbn [order_by_search].
    change ("o"%char :: (lit "rderByField('" ++ field ++ lit "','" ++ order
                         ++ lit "')") ++ post)
      with (order_call field order ++ post).
    rewrite (order_by_here_call field order post Hf Ho). reflexivity.
  - cbn [app order_by_search].
    destruct (order_by_here (c :: pre ++ order_call field order ++ post))
      as [[f o]|] eqn:E.
    + exfalso. apply order_by_here_some in E.
      destruct E as (post' & E & _).
      assert (N : nth_error (c :: pre ++ order_call field order ++ post) 12
                  = Some "("%char).
      { rewrite E. reflexivity. }
      clear E IH. unfold Urllib.without in Hpre.
      do 12 (destruct pre as [|? pre]; [cbn in N; discriminate N|]).
      cbn [nth_error app] in N. injection N as N. subst.
      cbn [forallb] in Hpre. rewrite Ascii.eqb_refl in Hpre.
      cbn [negb andb] in Hpre.
      repeat rewrite andb_false_r in Hpre. discriminate Hpre.
    + apply IH. unfold Urllib.without in *. cbn [forallb] in Hpre.
      apply andb_prop in Hpre. apply Hpre.
Qed.

Lemma start_date_here_some (t value : str) :
  start_date_here t = Some value ->
  exists post, t = start_date_call value ++ post /\ plain value.
Proof.
  unfold start_date_here. intros H.
  destruct (Channel.expect (lit "$('#startdate').val('") t) as [s1|] eqn:E1;
    [|discriminate].
  destruct (group s1) as [[v s2]|] eqn:G1; [|discriminate].
  destruct (Channel.expect (lit "')") s2) as [s3|] eqn:E2; [|discriminate].
  inversion H; subst v.
  apply ChannelFacts.expect_some in E1, E2.
  apply group_some in G1. destruct G1 as [G1 P1].
  exists s3. split; [|assumption].
  unfold start_date_call. subst t s1 s2.
  repeat rewrite <- app_assoc. reflexivity.
Qed.

Lemma start_date_here_call (value post : str) :
  plain value ->
  start_date_here (start_date_call value ++ post) = Some value.
Proof.
  intros Hv. unfold start_date_here, start_date_call.
  repeat rewrite <- app_assoc.
  rewrite ChannelFacts.expect_app.
  change (lit "')" ++ post) with (squote :: lit ")" ++ post).
  rewrite (group_plain value _ Hv).
  change (squote :: lit ")" ++ post) with (lit "')" ++ post).
  rewrite ChannelFacts.expect_app. reflexivity.
Qed.

Lemma start_date_search_some (t value : str) :
  start_date_search t = Some value ->
  exists pre post, t = pre ++ start_date_call value ++ post /\ plain value.
Proof.
  induction t as [|c t IH]; intros H.
  - discriminate H.
  - cbn [start_date_search] in H.
    destruct (start_date_here (c :: t)) as [v|] eqn:E.
    + inversion H; subst. apply start_date_here_some in E.
      destruct E as [post [E P]]. exists [], post. split; [exact E|exact P].
    + destruct (IH H) as (pre & post & E' & P).
      exists (c :: pre), post. split; [simpl; f_equal; exact E'|exact P].
Qed.

Lemma start_date_search_call (pre value post : str) :
  Urllib.without "$"%char pre = true -> plain value ->
  start_date_search (pre ++ start_date_call value ++ post) = Some value.
Proof.
  intros Hpre Hv. induction pre as [|c pre IH].
  - cbn [app]. unfold start_date_call at 1.
    change ((lit "$('#startdate').val('" ++ value ++ lit "')") ++ post)
      with ("$"%char :: (lit "('#startdate').val('" ++ value ++ lit "')")
                        ++ post).
    cbn [start_date_search].
    change ("$"%char :: (lit "('#startdate').val('" ++ value ++ lit "')")
                        ++ post)
      with (start_date_call value ++ post).
    rewrite (start_date_here_call value post Hv). reflexivity.
  - unfold Urllib.without in Hpre. cbn [forallb] in Hpre.
    apply andb_prop in Hpre. destruct Hpre as [Hc Hpre].
    apply negb_true_iff in Hc. rewrite Ascii.eqb_sym in Hc.
    cbn [app start_date_search]. unfold start_date_here at 1.
    change (lit "$('#startdate').val('")
      with ("$"%char :: lit "('#startdate').val('").
    cbn [Channel.expect]. rewrite Hc. apply IH. exact Hpre.
Qed.

(** ** The result of [extract] *)

(** X8.  [FilterExtractor.extract] raises [UnboundLocalError] exactly on
    the pages that have the accordion and, in it, the filter panel with at
    least one date shortcut button under its dropdown menu, but no sort panel:
    the name [re] is imported only inside the block that handles the sort
    panel, and the loop over the buttons uses it. *)
Theorem extract_unbound_local_error (soup : node) :
  extract soup = UnboundLocalError
  <-> exists accordion filters_div,
        find soup (lit "div") (attr_is (lit "id") (lit "accordion"))
        = Some accordion
        /\ sort_panel accordion = None
        /\ find accordion (lit "div")
                (attr_is (lit "id") (lit "collapseZero")) = Some filters_div
        /\ date_buttons filters_div <> [].
Proof.
  unfold extract.
  destruct (find soup (lit "div") (attr_is (lit "id") (lit "accordion")))
    as [accordion|].
  2:{ split; [discriminate|]. intros (a & f & H & _). discriminate H. }
  destruct (sort_panel accordion) as [sort_div|] eqn:Es.
  - destruct (sorted_returns sort_div) as [entries ->]. cbv iota beta zeta.
    split.
    + destruct (find accordion (lit "div")
                     (attr_is (lit "id") (lit "collapseZero"))) as [fd|];
        [|discriminate].
      destruct (filter_controls_cases true fd)
        as [(Hb & _)|(_ & c & d & e & -> & _)];
        [discriminate Hb|intros H; discriminate H].
    + intros (a & f & Ha & H & _). inversion Ha; subst a.
      rewrite Es in H. discriminate H.
  - cbv iota beta zeta.
    destruct (find accordion (lit "div")
                   (attr_is (lit "id") (lit "collapseZero"))) as [fd|] eqn:Ef.
    + destruct (filter_controls_cases false fd)
        as [(_ & Hn & ->)|([Hb|Hn] & c & d & e & -> & _)].
      * split; [|reflexivity]. intros _. exists accordion, fd. auto.
      * discriminate Hb.
      * split; [discriminate|]. intros (a & f & Ha & _ & Hf & Hd).
        inversion Ha; subst a. rewrite Ef in Hf. inversion Hf; subst f.
        contradiction.
    + split; [discriminate|]. intros (a & f & Ha & _ & H & _).
      inversion Ha; subst a. rewrite Ef in H. discriminate H.
Qed.

Lemma extract_unbound_local_error_witness :
  extract FilterPages.no_sort_page = UnboundLocalError.
Proof.
  apply (proj2 (extract_unbound_local_error FilterPages.no_sort_page)).
  exists (FilterPages.div [(lit "id", lit "accordion")]
                          [FilterPages.filters_div]),
         FilterPages.filters_div.
  split; [reflexivity|]. split; [reflexivity|]. split; [reflexivity|].
  vm_compute. discriminate.
Defined.

(** X9.  What [extract] returns is the empty dict when the page has no div
    with the id accordion, and otherwise a dict with exactly the two keys
    Sort By, a list, and Filters, a dict, in that order. *)
Theorem extract_result_shape (soup : node) (data : json) :
  extract soup = Returns data ->
  (find soup (lit "div") (attr_is (lit "id") (lit "accordion")) = None
   /\ data = JObj [])
  \/ (exists accordion sort_by controls,
        find soup (lit "div") (attr_is (lit "id") (lit "accordion"))
        = Some accordion
        /\ data = JObj [(lit "Sort By", JArr sort_by);
                        (lit "Filters", JObj controls)]).
Proof.
  unfold extract.
  destruct (find soup (lit "div") (attr_is (lit "id") (lit "accordion")))
    as [accordion|].
  2:{ intros H. inversion H. left. split; reflexivity. }
  intros H. right. exists accordion.
  destruct (match sort_panel accordion with
            | Some sort_div =>
                (true, sort_options
                         (find_all sort_div (lit "a") (has_attr (lit "href")))
                         [])
            | None => (false, Returns [])
            end) as [rb [sort_by| |k]]; try discriminate H.
  destruct (match find accordion (lit "div")
                       (attr_is (lit "id") (lit "collapseZero")) with
            | Some filters_div => filter_controls rb filters_div
            | None => Returns []
            end) as [controls| |k]; try discriminate H.
  inversion H. exists sort_by, controls. split; reflexivity.
Qed.

Lemma extract_result_shape_witness :
  exists sort_by controls,
    extract FilterPages.full_page
    = Returns (JObj [(lit "Sort By", JArr sort_by);
                     (lit "Filters", JObj controls)]).
Proof.
  destruct (extract FilterPages.full_page) as [data| |k] eqn:E;
    try (vm_compute in E; discriminate E).
  destruct (extract_result_shape FilterPages.full_page data E)
    as [[H _]|(a & s & c & _ & ->)].
  - vm_compute in H. discriminate H.
  - exists s, c. reflexivity.
Defined.

(** X10.  The lookup [a["href"]] in the loop over the links of the sort
    panel never fails: the links are searched with [href=True], so each one
    has the attribute.  [extract] raises no [KeyError]. *)
Theorem extract_never_misses_href (soup : node) (key : str) :
  extract soup <> AttributeMissing key.
Proof.
  unfold extract.
  destruct (find soup (lit "div") (attr_is (lit "id") (lit "accordion")))
    as [accordion|]; [|discriminate].
  assert (F : forall rb, match find accordion (lit "div")
                                    (attr_is (lit "id") (lit "collapseZero"))
                         with
                         | Some filters_div => filter_controls rb filters_div
                         | None => Returns []
                         end <> AttributeMissing key).
  { intros rb.
    destruct (find accordion (lit "div")
                   (attr_is (lit "id") (lit "collapseZero"))) as [fd|];
      [|discriminate].
    destruct (filter_controls_cases rb fd)
      as [(_ & _ & ->)|(_ & c & d & e & -> & _)]; discriminate. }
  destruct (sort_panel accordion) as [sort_div|].
  - destruct (sorted_returns sort_div) as [entries ->].
    specialize (F true).
    destruct (match find accordion (lit "div")
                         (attr_is (lit "id") (lit "collapseZero")) with
              | Some filters_div => filter_controls true filters_div
              | None => Returns []
              end) as [c| |k]; try discriminate.
    intros H. apply F. inversion H. reflexivity.
  - specialize (F false).
    destruct (match find accordion (lit "div")
                         (attr_is (lit "id") (lit "collapseZero")) with
              | Some filters_div => filter_controls false filters_div
              | None => Returns []
              end) as [c| |k]; try discriminate.
    intros H. apply F. inversion H. reflexivity.
Qed.

Lemma extract_never_misses_href_witness :
  extract FilterPages.full_page <> AttributeMissing (lit "href").
Proof.
  apply (extract_never_misses_href FilterPages.full_page (lit "href")).
Defined.

(** X11.  Whenever [extract] returns for a page whose accordion has the
    filter panel, the result has a list under Filters, Date Range,
    extra_options, whether or not the panel has date inputs, a dropdown menu
    or shortcut buttons. *)
Theorem extract_always_lists_extra_options
  (soup accordion filters_div : node) (data : json) :
  find soup (lit "div") (attr_is (lit "id") (lit "accordion"))
  = Some accordion ->
  find accordion (lit "div") (attr_is (lit "id") (lit "collapseZero"))
  = Some filters_div ->
  extract soup = Returns data ->
  exists extras,
    path data [lit "Filters"; lit "Date Range"; lit "extra_options"]
    = Ok (JArr extras).
Proof.
  unfold extract. intros Ha Hf. rewrite Ha, Hf.
  destruct (match sort_panel accordion with
            | Some sort_div =>
                (true, sort_options
                         (find_all sort_div (lit "a") (has_attr (lit "href")))
                         [])
            | None => (false, Returns [])
            end) as [rb [sort_by| |k]]; try discriminate.
  destruct (filter_controls_cases rb filters_div)
    as [(_ & _ & ->)|(_ & c & d & e & -> & Hd & He)]; [discriminate|].
  intros H. injection H as <-. exists e.
  cbn in Hd, He |- *. rewrite Hd. cbn. rewrite He. reflexivity.
Qed.

Lemma extract_always_lists_extra_options_witness :
  exists data extras,
    extract FilterPages.full_page = Returns data
    /\ path data [lit "Filters"; lit "Date Range"; lit "extra_options"]
       = Ok (JArr extras).
Proof.
  destruct (extract FilterPages.full_page) as [data| |k] eqn:E;
    try (vm_compute in E; discriminate E).
  destruct (extract_always_lists_extra_options FilterPages.full_page
              (FilterPages.div [(lit "id", lit "accordion")]
                 [FilterPages.sort_header; FilterPages.sort_div;
                  FilterPages.filters_div])
              FilterPages.filters_div data eq_refl eq_refl E) as [extras H].
  exists data, extras. split; [reflexivity|exact H].
Defined.

(** ** The entries *)

(** X12.  The entry of a link of the sort panel.  When it has a field and
    an order, the href of the link holds the call
    orderByField('field','order') and neither text is empty or holds a single
    quote; otherwise the href holds no such call and the entry keeps the href.
    Conversely a link whose href holds such a call, with no opening
    parenthesis before it, gives the entry with that field and order. *)
Theorem sort_option_reads_the_call (a : node) :
  (forall entry,
     sort_option a = Returns entry ->
     exists href,
       get a (lit "href") = Some href
       /\ ((exists pre field order post,
              href = pre ++ order_call field order ++ post
              /\ plain field /\ plain order
              /\ entry = JObj [(lit "text", JStr (get_text [] a));
                               (lit "field", JStr field);
                               (lit "order", JStr order)])
           \/ (order_by_search href = None
               /\ entry = JObj [(lit "text", JStr (get_text [] a));
                                (lit "href", JStr href)])))
  /\ (forall pre field order post,
        get a (lit "href") = Some (pre ++ order_call field order ++ post) ->
        Urllib.without "("%char pre = true ->
        plain field -> plain order ->
        sort_option a
        = Returns (JObj [(lit "text", JStr (get_text [] a));
                         (lit "field", JStr field);
                         (lit "order", JStr order)])).
Proof.
  split.
  - intros entry H. unfold sort_option in H.
    destruct (get a (lit "href")) as [href|]; [|discriminate].
    exists href. split; [reflexivity|].
    destruct (order_by_search href) as [[f o]|] eqn:E.
    + left. apply order_by_search_some in E.
      destruct E as (pre & post & E & Pf & Po).
      exists pre, f, o, post. inversion H. auto.
    + right. inversion H. auto.
  - intros pre f o post Hg Hpre Hf Ho. unfold sort_option. rewrite Hg.
    rewrite (order_by_search_call pre f o post Hpre Hf Ho). reflexivity.
Qed.

Lemma sort_option_reads_the_call_witness :
  sort_option (FilterPages.link "javascript:orderByField('viewcount','desc')"
                                "Most viewed")
  = Returns (JObj [(lit "text", JStr (lit "Most viewed"));
                   (lit "field", JStr (lit "viewcount"));
                   (lit "order", JStr (lit "desc"))]).
Proof.
  apply (proj2 (sort_option_reads_the_call
                  (FilterPages.link
                     "javascript:orderByField('viewcount','desc')"
                     "Most viewed"))
           (lit "javascript:") (lit "viewcount") (lit "desc") []).
  - reflexivity.
  - reflexivity.
  - split; [discriminate|reflexivity].
  - split; [discriminate|reflexivity].
Defined.

(** X13.  The entries of a date shortcut button.  A button gives at most
    one entry; when it gives one, its onclick attribute holds the call
    $('#startdate').val('value') and the entry carries that value, which is
    not empty and holds no single quote.  A button without the attribute
    gives none.  Conversely a button whose onclick holds such a call, with no
    dollar sign before it, gives the entry with that value. *)
Theorem date_option_reads_the_call (btn : node) :
  (forall entry,
     In entry (date_option btn) ->
     exists onclick pre value post,
       get btn (lit "onclick") = Some onclick
       /\ onclick = pre ++ start_date_call value ++ post
       /\ plain value
       /\ date_option btn
          = [JObj [(lit "label", JStr (get_text [] btn));
                   (lit "start_date", JStr value)]])
  /\ (forall pre value post,
        get btn (lit "onclick") = Some (pre ++ start_date_call value ++ post) ->
        Urllib.without "$"%char pre = true ->
        plain value ->
        date_option btn
        = [JObj [(lit "label", JStr (get_text [] btn));
                 (lit "start_date", JStr value)]]).
Proof.
  split.
  - intros entry H. unfold date_option, get_or in *.
    destruct (get btn (lit "onclick")) as [onclick|].
    + destruct (start_date_search onclick) as [v|] eqn:E; [|contradiction].
      apply start_date_search_some in E. destruct E as (pre & post & E & P).
      exists onclick, pre, v, post. auto.
    + contradiction.
  - intros pre v post Hg Hpre Hv. unfold date_option, get_or. rewrite Hg.
    rewrite (start_date_search_call pre v post Hpre Hv). reflexivity.
Qed.

Lemma date_option_reads_the_call_witness :
  date_option FilterPages.date_button
  = [JObj [(lit "label", JStr (lit "This year"));
           (lit "start_date", JStr (lit "2024-01-01"))]].
Proof.
  apply (proj2 (date_option_reads_the_call FilterPages.date_button)
           [] (lit "2024-01-01") (lit ";go()")).
  - reflexivity.
  - reflexivity.
  - split; [discriminate|reflexivity].
Defined.

End FilterOptionFacts.

(* ================================================================== *)
(** * Properties of the settings of filters.py and sorting.py *)
(* ================================================================== *)

Module SettingsFacts.
Import Sorting Filters.

(** The items of [to_dict], field by field. *)
Lemma to_dict_parts (self : Filters) :
  to_dict self
  = match title self with
    | Some (c :: t) => [(lit "title", PStr (c :: t))]
    | _ => []
    end
    ++ match duration self with
       | Some (a, b) =>
           [(lit "startDuration", PInt a); (lit "endDuration", PInt b)]
       | None => []
       end
    ++ match views self with
       | Some (a, b) => [(lit "minViews", PInt a); (lit "maxViews", PInt b)]
       | None => []
       end
    ++ match likes self with
       | Some (a, b) => [(lit "minLikes", PInt a); (lit "maxLikes", PInt b)]
       | None => []
       end
    ++ filter (fun kv => is_not_none (snd kv))
         match date_range self with
         | Some (d0, d1) =>
             [(lit "startDate", iso_or_none d0);
              (lit "endDate", iso_or_none d1)]
         | None => []
         end
    ++ match license self with
       | Some l => [(lit "license", PStr (license_value l))]
       | None => []
       end.
Proof.
  destruct self as [ttl vws lks dur dr lic].
  destruct ttl as [[|c1 t1]|]; destruct vws as [[a1 b1]|];
    destruct lks as [[a2 b2]|]; destruct dur as [[a3 b3]|];
    destruct dr as [[[d0|] [d1|]]|]; destruct lic as [l|];
    reflexivity.
Qed.

Section Dates.

Variable fromisoformat : str -> result date.

#[local] Abbreviation set_date_range := (set_date_range fromisoformat).
#[local] Abbreviation as_date := (as_date fromisoformat).

(** X14.  [set_date_range] changes the filters only when it returns.  A
    call that raises, whether a date text cannot be parsed or the start is
    later than the end, leaves every field as it was; a call that returns has
    read both dates, the start is not later than the end, the two dates are
    stored and no other field has changed. *)
Theorem set_date_range_all_or_nothing
  (self self' : Filters) (start end_ : str + date) (r : result unit) :
  set_date_range self start end_ = (r, self') ->
  match r with
  | Raise e =>
      self' = self
      /\ (as_date start = Raise e
          \/ (exists d1, as_date start = Ok d1 /\ as_date end_ = Raise e)
          \/ (exists d1 d2,
                as_date start = Ok d1 /\ as_date end_ = Ok d2
                /\ date_gt d1 d2 = true
                /\ e = ValueError
                         (lit "start_date cannot be later than end_date")))
  | Ok _ =>
      exists d1 d2,
        as_date start = Ok d1 /\ as_date end_ = Ok d2
        /\ date_gt d1 d2 = false
        /\ date_range self' = Some (Some d1, Some d2)
        /\ title self' = title self /\ views self' = views self
        /\ likes self' = likes self /\ duration self' = duration self
        /\ license self' = license self
  end.
Proof.
  unfold Filters.set_date_range. intros H.
  destruct (as_date start) as [d1|e1].
  - destruct (as_date end_) as [d2|e2].
    + destruct (date_gt d1 d2) eqn:G; inversion H; subst.
      * split; [reflexivity|]. right. right. exists d1, d2. auto.
      * exists d1, d2. cbn. repeat split; reflexivity || assumption.
    + inversion H; subst. split; [reflexivity|]. right. left. eauto.
  - inversion H; subst. split; [reflexivity|]. left. reflexivity.
Qed.

(** X15.  After a call of [set_date_range] that returns, [to_dict] carries
    the two dates in ISO form under startDate and endDate, whatever the
    other fields are. *)
Theorem set_date_range_is_serialised
  (self self' : Filters) (start end_ : str + date) :
  set_date_range self start end_ = (Ok tt, self') ->
  exists d1 d2,
    as_date start = Ok d1 /\ as_date end_ = Ok d2
    /\ dict_get (to_dict self') (lit "startDate") = Some (PStr (isoformat d1))
    /\ dict_get (to_dict self') (lit "endDate") = Some (PStr (isoformat d2)).
Proof.
  unfold Filters.set_date_range. intros H.
  destruct (as_date start) as [d1|e1]; [|discriminate H].
  destruct (as_date end_) as [d2|e2]; [|discriminate H].
  destruct (date_gt d1 d2); [discriminate H|].
  injection H as <-. exists d1, d2. split; [reflexivity|].
  split; [reflexivity|].
  rewrite to_dict_parts. cbn [title views likes duration date_range license].
  destruct (title self) as [[|c1 t1]|]; destruct (views self) as [[a1 b1]|];
    destruct (likes self) as [[a2 b2]|];
    destruct (duration self) as [[a3 b3]|];
    split; reflexivity.
Qed.

End Dates.

Lemma set_date_range_all_or_nothing_witness :
  Pages.full_filters = Pages.full_filters
  /\ (as_date MorePages.two_dates_parser (inl (lit "2021-12-31"))
      = Raise (ValueError (lit "start_date cannot be later than end_date"))
      \/ (exists d1,
            as_date MorePages.two_dates_parser (inl (lit "2021-12-31")) = Ok d1
            /\ as_date MorePages.two_dates_parser (inr (mkDate 2020 1 5))
               = Raise (ValueError
                          (lit "start_date cannot be later than end_date")))
      \/ (exists d1 d2,
            as_date MorePages.two_dates_parser (inl (lit "2021-12-31")) = Ok d1
            /\ as_date MorePages.two_dates_parser (inr (mkDate 2020 1 5))
               = Ok d2
            /\ date_gt d1 d2 = true
            /\ ValueError (lit "start_date cannot be later than end_date")
               = ValueError
                   (lit "start_date cannot be later than end_date"))).
Proof.
  apply (set_date_range_all_or_nothing MorePages.two_dates_parser
           Pages.full_filters Pages.full_filters
           (inl (lit "2021-12-31")) (inr (mkDate 2020 1 5))
           (Raise (ValueError
                     (lit "start_date cannot be later than end_date")))).
  reflexivity.
Defined.

Lemma set_date_range_is_serialised_witness :
  exists d1 d2,
    as_date MorePages.two_dates_parser (inl (lit "2020-01-05")) = Ok d1
    /\ as_date MorePages.two_dates_parser (inr (mkDate 2020 1 5)) = Ok d2
    /\ dict_get
         (to_dict (mkFilters None None None None
                             (Some (Some (mkDate 2020 1 5),
                                    Some (mkDate 2020 1 5))) None))
         (lit "startDate") = Some (PStr (isoformat d1))
    /\ dict_get
         (to_dict (mkFilters None None None None
                             (Some (Some (mkDate 2020 1 5),
                                    Some (mkDate 2020 1 5))) None))
         (lit "endDate") = Some (PStr (isoformat d2)).
Proof.
  apply (set_date_range_is_serialised MorePages.two_dates_parser
           Client.no_filters _
           (inl (lit "2020-01-05")) (inr (mkDate 2020 1 5))).
  reflexivity.
Defined.

(** X16.  A range a setter accepts is what [to_dict] reports: after
    [set_views], [set_likes] or [set_duration] returns, the dict carries the
    two bounds as integers under the two keys of the range, a bound of 0
    included; after [set_license] it carries the code of the licence, and
    after [set_title] with a text that is not empty it carries the text. *)
Theorem accepted_settings_are_serialised (self : Filters) :
  (forall a b self',
     set_views self a b = (Ok tt, self') ->
     dict_get (to_dict self') (lit "minViews") = Some (PInt a)
     /\ dict_get (to_dict self') (lit "maxViews") = Some (PInt b))
  /\ (forall a b self',
        set_likes self a b = (Ok tt, self') ->
        dict_get (to_dict self') (lit "minLikes") = Some (PInt a)
        /\ dict_get (to_dict self') (lit "maxLikes") = Some (PInt b))
  /\ (forall a b self',
        set_duration self a b = (Ok tt, self') ->
        dict_get (to_dict self') (lit "startDuration") = Some (PInt a)
        /\ dict_get (to_dict self') (lit "endDuration") = Some (PInt b))
  /\ (forall l,
        dict_get (to_dict (snd (set_license self l))) (lit "license")
        = Some (PStr (license_value l)))
  /\ (forall c t,
        dict_get (to_dict (snd (set_title self (c :: t)))) (lit "title")
        = Some (PStr (c :: t))).
Proof.
  split; [|split; [|split; [|split]]].
  - intros a b self' H. unfold set_views in H.
    destruct (a <? MIN_VIEWS)%Z; [discriminate H|].
    destruct (b >? MAX_VIEWS)%Z; [discriminate H|].
    destruct (a >? b)%Z; [discriminate H|].
    injection H as <-. rewrite to_dict_parts.
    cbn [title views likes duration date_range license].
    destruct (title self) as [[|c1 t1]|];
      destruct (duration self) as [[a3 b3]|]; split; reflexivity.
  - intros a b self' H. unfold set_likes in H.
    destruct (a <? MIN_LIKES)%Z; [discriminate H|].
    destruct (b >? MAX_LIKES)%Z; [discriminate H|].
    destruct (a >? b)%Z; [discriminate H|].
    injection H as <-. rewrite to_dict_parts.
    cbn [title views likes duration date_range license].
    destruct (title self) as [[|c1 t1]|];
      destruct (duration self) as [[a3 b3]|];
      destruct (views self) as [[a1 b1]|]; split; reflexivity.
  - intros a b self' H. unfold set_duration in H.
    destruct (a <? MIN_DURATION)%Z; [discriminate H|].
    destruct (b >? MAX_DURATION)%Z; [discriminate H|].
    destruct (a >? b)%Z; [discriminate H|].
    injection H as <-. rewrite to_dict_parts.
    cbn [title views likes duration date_range license].
    destruct (title self) as [[|c1 t1]|]; split; reflexivity.
  - intros l0. rewrite to_dict_parts.
    cbn [set_license snd title views likes duration date_range license].
    destruct (title self) as [[|c1 t1]|];
      destruct (duration self) as [[a3 b3]|];
      destruct (views self) as [[a1 b1]|];
      destruct (likes self) as [[a2 b2]|];
      destruct (date_range self) as [[[d0|] [d1|]]|];
      destruct l0; reflexivity.
  - intros c t. rewrite to_dict_parts. reflexivity.
Qed.

Lemma accepted_settings_are_serialised_witness :
  dict_get (to_dict (with_views Client.no_filters 0 0)) (lit "minViews")
  = Some (PInt 0)
  /\ dict_get (to_dict (with_views Client.no_filters 0 0)) (lit "maxViews")
     = Some (PInt 0).
Proof.
  apply (proj1 (accepted_settings_are_serialised Client.no_filters) 0%Z 0%Z).
  reflexivity.
Defined.

(** X17.  A range setter touches nothing but its own two keys: whether the
    call returns or raises, every other key of [to_dict] has the value it had
    before the call. *)
Theorem range_setters_keep_the_other_keys (self : Filters) (a b : Z)
        (k : str) :
  (k <> lit "minViews" -> k <> lit "maxViews" ->
   dict_get (to_dict (snd (set_views self a b))) k
   = dict_get (to_dict self) k)
  /\ (k <> lit "minLikes" -> k <> lit "maxLikes" ->
      dict_get (to_dict (snd (set_likes self a b))) k
      = dict_get (to_dict self) k)
  /\ (k <> lit "startDuration" -> k <> lit "endDuration" ->
      dict_get (to_dict (snd (set_duration self a b))) k
      = dict_get (to_dict self) k).
Proof.
  split; [|split]; intros H1 H2;
    apply not_eq_sym in H1; apply not_eq_sym in H2;
    apply TextFacts.str_eqb_neq in H1; apply TextFacts.str_eqb_neq in H2.
  - unfold set_views.
    destruct (a <? MIN_VIEWS)%Z; [reflexivity|].
    destruct (b >? MAX_VIEWS)%Z; [reflexivity|].
    destruct (a >? b)%Z; [reflexivity|]. cbn [snd].
    rewrite !to_dict_parts.
    cbn [title views likes duration date_range license].
    rewrite !TextFacts.dict_get_app.
    destruct (views self) as [[a1 b1]|]; cbn [dict_get];
      rewrite ?H1, ?H2; reflexivity.
  - unfold set_likes.
    destruct (a <? MIN_LIKES)%Z; [reflexivity|].
    destruct (b >? MAX_LIKES)%Z; [reflexivity|].
    destruct (a >? b)%Z; [reflexivity|]. cbn [snd].
    rewrite !to_dict_parts.
    cbn [title views likes duration date_range license].
    rewrite !TextFacts.dict_get_app.
    destruct (likes self) as [[a1 b1]|]; cbn [dict_get];
      rewrite ?H1, ?H2; reflexivity.
  - unfold set_duration.
    destruct (a <? MIN_DURATION)%Z; [reflexivity|].
    destruct (b >? MAX_DURATION)%Z; [reflexivity|].
    destruct (a >? b)%Z; [reflexivity|]. cbn [snd].
    rewrite !to_dict_parts.
    cbn [title views likes duration date_range license].
    rewrite !TextFacts.dict_get_app.
    destruct (duration self) as [[a1 b1]|]; cbn [dict_get];
      rewrite ?H1, ?H2; reflexivity.
Qed.

Lemma range_setters_keep_the_other_keys_witness :
  dict_get (to_dict (snd (set_views Pages.full_filters 1 2))) (lit "title")
  = dict_get (to_dict Pages.full_filters) (lit "title").
Proof.
  apply (proj1 (range_setters_keep_the_other_keys Pages.full_filters 1 2
                  (lit "title"))); discriminate.
Defined.

(** X18.  The wire values tell the options apart: two different sort
    options give different dicts, and two different licence types have
    different codes.  A sort option always gives the two keys sortField and
    sortOrder, in that order. *)
Theorem sort_options_are_told_apart :
  (forall o1 o2 : SortOption,
     o1 <> o2 -> Sorting.to_dict o1 <> Sorting.to_dict o2)
  /\ (forall l1 l2 : LicenseType,
        l1 <> l2 -> license_value l1 <> license_value l2)
  /\ (forall o : SortOption,
        map fst (Sorting.to_dict o) = [lit "sortField"; lit "sortOrder"]).
Proof.
  split; [|split].
  - intros [[] []] [[] []] Hne H;
      try (exfalso; apply Hne; reflexivity); discriminate H.
  - intros [] [] Hne H; try (exfalso; apply Hne; reflexivity);
      discriminate H.
  - intros [[] []]; reflexivity.
Qed.

Lemma sort_options_are_told_apart_witness :
  Sorting.to_dict (mkSortOption VIEW_COUNT DESC)
  <> Sorting.to_dict (mkSortOption VIEW_COUNT ASC).
Proof.
  apply (proj1 sort_options_are_told_apart
           (mkSortOption VIEW_COUNT DESC) (mkSortOption VIEW_COUNT ASC)).
  discriminate.
Defined.

End SettingsFacts.

(* ================================================================== *)
(** * More properties of the iteration of client.py *)
(* ================================================================== *)

Module LazyPagingFacts.
Import Video Client.

Section Paging.

Variable session_get : nat -> str -> response.
Variables (query : str) (channel_id : option str)
          (filters : option Filters.Filters)
          (sort_option : option Sorting.SortOption).

#[local] Abbreviation page :=
  (_search_page session_get query channel_id filters sort_option).
#[local] Abbreviation run :=
  (drain session_get query channel_id filters sort_option).
#[local] Abbreviation first_pages :=
  (first_pages session_get query channel_id filters sort_option).

Lemma first_pages_tail (vs : list VideoInfo) (pages : list (list VideoInfo))
      (p : Z) (w : nat) :
  first_pages (vs :: pages) p w -> first_pages pages (p + 1) (S w).
Proof.
  intros H k Hk. specialize (H (S k)). simpl in H.
  replace (p + 1 + Z.of_nat k)%Z with (p + Z.of_nat (S k))%Z by lia.
  replace (S w + k) with (w + S k) by lia.
  apply H. lia.
Qed.

Lemma first_pages_head (v : VideoInfo) (rest : list VideoInfo)
      (pages : list (list VideoInfo)) (p : Z) (w : nat) :
  first_pages ((v :: rest) :: pages) p w ->
  page p w = (Returns (v :: rest), S w).
Proof.
  intros H. specialize (H 0 ltac:(simpl; lia)). simpl in H.
  rewrite Z.add_0_r, Nat.add_0_r in H. exact H.
Qed.

(** Reading all the records of the first pages, and what comes next. *)
Lemma run_first_pages (pages : list (list VideoInfo)) :
  forall p w fuel,
    first_pages pages p w ->
    Forall (fun vs => vs <> []) pages ->
    run (length (concat pages) + fuel) (Fetching p) w
    = match pages with
      | [] => run fuel (Fetching p) w
      | _ =>
          let '(videos, ending, w') :=
            run fuel (Yielding (p + Z.of_nat (length pages) - 1) [])
                (w + length pages) in
          (concat pages ++ videos, ending, w')
      end.
Proof.
  induction pages as [|vs pages IH]; intros p w fuel Hs Hne; [reflexivity|].
  inversion Hne as [|? ? Hvs Hne']; subst.
  destruct vs as [|v rest]; [contradiction|].
  pose proof (first_pages_head _ _ _ _ _ Hs) as H0.
  cbn [concat]. rewrite length_app. cbn [length]. cbn [Nat.add].
  rewrite (PagingFacts.run_fetch_videos session_get query channel_id filters
             sort_option _ p w _ v rest H0).
  rewrite <- Nat.add_assoc.
  rewrite PagingFacts.run_pending.
  destruct pages as [|vs2 pages].
  - cbn [concat length]. rewrite app_nil_r. cbn [Nat.add].
    replace (p + Z.of_nat 1 - 1)%Z with p by lia.
    replace (w + 1) with (S w) by lia.
    destruct (run fuel (Yielding p []) (S w)) as [[a b] c]. reflexivity.
  - rewrite PagingFacts.run_next_page.
    rewrite (IH (p + 1)%Z (S w) fuel (first_pages_tail _ _ _ _ Hs) Hne').
    replace (p + 1 + Z.of_nat (length (vs2 :: pages)) - 1)%Z
      with (p + Z.of_nat (length ((v :: rest) :: vs2 :: pages)) - 1)%Z
      by (cbn [length]; lia).
    replace (S w + length (vs2 :: pages))
      with (w + length ((v :: rest) :: vs2 :: pages))
      by (cbn [length]; lia).
    destruct (run fuel _ _) as [[a b] c].
    cbn [app]. rewrite <- app_assoc. reflexivity.
Qed.

(** X19.  [search_all] is lazy: reading exactly the records of the first
    pages, all of them non-empty, yields these records in order and issues
    one request per page read; the page after them is not requested until
    another record is asked for. *)
Theorem search_all_fetches_pages_on_demand
  (pages : list (list VideoInfo)) (w : nat) :
  first_pages pages 1 w ->
  Forall (fun vs => vs <> []) pages ->
  run (length (concat pages)) (search_all) w
  = (concat pages, None, w + length pages).
Proof.
  intros Hs Hne.
  pose proof (run_first_pages pages 1 w 0 Hs Hne) as H.
  rewrite Nat.add_0_r in H. unfold search_all. rewrite H.
  destruct pages; [simpl; f_equal; lia|].
  cbn [drain]. rewrite app_nil_r. reflexivity.
Qed.

(** X20.  An error ends the iteration: when the first pages are served and
    the request for the page after them raises, whether the status is not
    200 or a card has no scroll box, the iteration yields the records of the
    first pages and then raises that exception; the records of the failing
    page are never yielded. *)
Theorem search_all_stops_at_an_error
  (pages : list (list VideoInfo)) (w fuel : nat) (e : exn) :
  first_pages pages 1 w ->
  Forall (fun vs => vs <> []) pages ->
  page (1 + Z.of_nat (length pages))%Z (w + length pages)
  = (Raises e, S (w + length pages)) ->
  length (concat pages) < fuel ->
  run fuel search_all w
  = (concat pages, Some (Error e), w + S (length pages)).
Proof.
  intros Hs Hne He Hfuel.
  replace fuel with (length (concat pages) + S (fuel - S (length (concat pages))))
    by lia.
  unfold search_all. rewrite (run_first_pages pages 1 w _ Hs Hne).
  assert (F : forall p, p = (1 + Z.of_nat (length pages))%Z ->
                run (S (fuel - S (length (concat pages)))) (Fetching p)
                    (w + length pages)
                = ([], Some (Error e), w + S (length pages))).
  { intros p ->. cbn [drain next]. unfold fetch_next. rewrite He.
    f_equal. lia. }
  destruct pages as [|vs pages].
  - cbn [length concat] in *. rewrite Nat.add_0_r in F.
    apply F. reflexivity.
  - rewrite PagingFacts.run_next_page. rewrite F by lia.
    rewrite app_nil_r. reflexivity.
Qed.

End Paging.

Lemma search_all_fetches_pages_on_demand_witness :
  drain Pages.two_page_site (lit "cats") None None None 4 search_all 0
  = (Pages.two_cards ++ Pages.two_cards, None, 2).
Proof.
  apply (search_all_fetches_pages_on_demand Pages.two_page_site
           (lit "cats") None None None [Pages.two_cards; Pages.two_cards] 0).
  - intros k Hk. destruct k as [|[|k]]; [vm_compute; reflexivity..|].
    simpl in Hk. lia.
  - repeat constructor; discriminate.
Defined.

Lemma search_all_stops_at_an_error_witness :
  drain MorePages.failing_site (lit "cats") None None None 9 search_all 0
  = (Pages.two_cards ++ Pages.two_cards,
     Some (Error (YoutubeCaptionFinderError
                    (lit "Error fetching search results: 503"))), 3).
Proof.
  apply (search_all_stops_at_an_error MorePages.failing_site
           (lit "cats") None None None [Pages.two_cards; Pages.two_cards]
           0 9).
  - intros k Hk. destruct k as [|[|k]]; [vm_compute; reflexivity..|].
    simpl in Hk. lia.
  - repeat constructor; discriminate.
  - vm_compute. reflexivity.
  - simpl. lia.
Defined.

End LazyPagingFacts.

(* ================================================================== *)
(** * More properties of the URL of client.py *)
(* ================================================================== *)

Module SearchUrlFacts.
Import Sorting Urllib Client Wording.

(** ** The escaped query *)

Lemma quote_pieces (s : str) : quote s (lit "/") = flat_map piece s.
Proof.
  unfold quote, utf8_encode. induction s as [|c s IH]; [reflexivity|].
  cbn [flat_map]. rewrite flat_map_app, IH. reflexivity.
Qed.

Lemma piece_facts (c : ascii) :
  nonempty (piece c) = true
  /\ (Ascii.eqb c "/"%char = false -> without "/"%char (piece c) = true)
  /\ (piece c = [c] \/ exists r, piece c = "%"%char :: r).
Proof.
  destruct c as [[|] [|] [|] [|] [|] [|] [|] [|]];
    (split; [reflexivity|]);
    (split; [intros H; try discriminate H; reflexivity|]);
    first [left; reflexivity | right; eexists; reflexivity].
Qed.

Lemma quote_nonempty (q : str) :
  q <> [] -> nonempty (quote q (lit "/")) = true.
Proof.
  rewrite quote_pieces. destruct q as [|c q]; [contradiction|].
  intros _. cbn [flat_map]. destruct (piece_facts c) as [H _].
  destruct (piece c); [discriminate H|reflexivity].
Qed.

Lemma quote_without_slash (q : str) :
  without "/"%char q = true -> without "/"%char (quote q (lit "/")) = true.
Proof.
  rewrite quote_pieces. unfold without.
  induction q as [|c q IH]; [reflexivity|].
  cbn [forallb flat_map]. intros H. apply andb_prop in H.
  destruct H as [Hc Hq]. apply negb_true_iff in Hc.
  rewrite forallb_app, (IH Hq), andb_true_r.
  apply (proj1 (proj2 (piece_facts c))). exact Hc.
Qed.

Lemma quote_empty (q : str) : quote q (lit "/") = [] -> q = [].
Proof.
  intros H. destruct q as [|c q]; [reflexivity|].
  pose proof (quote_nonempty (c :: q) ltac:(discriminate)) as N.
  rewrite H in N. discriminate N.
Qed.

Lemma quote_dot (q : str) :
  quote q (lit "/") = lit "." -> q = lit ".".
Proof.
  destruct q as [|c q]; [discriminate|].
  rewrite quote_pieces. cbn [flat_map]. rewrite <- quote_pieces.
  destruct (piece_facts c) as (_ & _ & [E|[r E]]); rewrite E.
  - cbn [app]. intros H. injection H as Hc Hq.
    apply quote_empty in Hq. subst. reflexivity.
  - intros H. discriminate H.
Qed.

Lemma quote_dots (q : str) :
  quote q (lit "/") = lit ".." -> q = lit "..".
Proof.
  destruct q as [|c q]; [discriminate|].
  rewrite quote_pieces. cbn [flat_map]. rewrite <- quote_pieces.
  destruct (piece_facts c) as (_ & _ & [E|[r E]]); rewrite E.
  - cbn [app]. intros H. injection H as Hc Hq.
    apply quote_dot in Hq. subst. reflexivity.
  - intros H. discriminate H.
Qed.

(** ** The page number *)

Lemma digits_first (u : uint) :
  forallb (fun c => negb (mem c (lit "/.")))
          (list_ascii_of_string (NilEmpty.string_of_uint u)) = true.
Proof. induction u; simpl in *; try rewrite IHu; reflexivity. Qed.

Lemma digits0_plain (u : uint) :
  forallb (fun c => negb (mem c (lit "/.")))
          (list_ascii_of_string (NilZero.string_of_uint u)) = true.
Proof.
  destruct u; try reflexivity; unfold NilZero.string_of_uint;
    apply digits_first.
Qed.

(** The text of an integer has no slash and no dot. *)
Lemma str_of_Z_plain (z : Z) :
  forallb (fun c => negb (mem c (lit "/."))) (str_of_Z z) = true.
Proof.
  unfold str_of_Z, NilZero.string_of_int. destruct (Z.to_int z) as [u|u].
  - apply digits0_plain.
  - cbn [list_ascii_of_string forallb]. rewrite digits0_plain. reflexivity.
Qed.

Lemma str_of_Z_without_slash (z : Z) : without "/"%char (str_of_Z z) = true.
Proof.
  unfold without. apply (UrlFacts.forallb_weaken _ _ _) with (2 := str_of_Z_plain z).
  intros c H. unfold mem in H. cbn [lit list_ascii_of_string existsb] in H.
  destruct (Ascii.eqb c "/"%char); [discriminate H|reflexivity].
Qed.

Lemma str_of_Z_not_dots (z : Z) :
  str_eqb (str_of_Z z) (lit "..") = false
  /\ str_eqb (str_of_Z z) (lit ".") = false.
Proof.
  pose proof (str_of_Z_plain z) as H.
  destruct (str_of_Z z) as [|c t]; [split; reflexivity|].
  cbn [forallb] in H. apply andb_prop in H. destruct H as [H _].
  unfold mem in H. cbn [lit list_ascii_of_string existsb] in H.
  destruct (Ascii.eqb c "."%char) eqn:E;
    [rewrite orb_true_r in H; discriminate H|].
  cbn [lit list_ascii_of_string str_eqb]. rewrite E. split; reflexivity.
Qed.

(** ** A relative reference without a network location *)

Lemma urlsplit_relative (P Q d : str) :
  forallb tame P = true -> forallb tame Q = true ->
  startswith (P ++ "?"%char :: Q) (lit "//") = false ->
  urlsplit (P ++ "?"%char :: Q) d = Some (mkSplit d [] P Q []).
Proof.
  intros HP HQ E. unfold urlsplit.
  assert (HT : forallb visible (P ++ "?"%char :: Q) = true).
  { rewrite forallb_app. simpl.
    rewrite (UrlFacts.tame_visible P HP), (UrlFacts.tame_visible Q HQ).
    reflexivity. }
  rewrite (UrlFacts.clean_url_visible _ HT).
  assert (Hcolon : split_first ":"%char (P ++ "?"%char :: Q)
                   = (P ++ "?"%char :: Q, None)).
  { apply UrlFacts.split_first_absent. rewrite forallb_app. simpl.
    rewrite (UrlFacts.tame_without ":"%char P eq_refl HP),
            (UrlFacts.tame_without ":"%char Q eq_refl HQ). reflexivity. }
  rewrite Hcolon, E.
  apply (UrlFacts.urlsplit_tail d [] P); [reflexivity|assumption..].
Qed.

Lemma urlparse_relative (P Q : str) :
  forallb tame P = true -> forallb tame Q = true ->
  startswith (P ++ "?"%char :: Q) (lit "//") = false ->
  urlparse (P ++ "?"%char :: Q) (lit "https")
  = Some (mkParse (lit "https") [] P [] Q []).
Proof.
  intros HP HQ E. unfold urlparse.
  rewrite (urlsplit_relative P Q _ HP HQ E).
  cbn [scheme netloc path query fragment].
  rewrite (UrlFacts.tame_no_semicolon P HP), andb_false_r. reflexivity.
Qed.

Lemma resolve_keep (seg : str) (rest resolved : list str) :
  str_eqb seg (lit "..") = false -> str_eqb seg (lit ".") = false ->
  resolve (seg :: rest) resolved = resolve rest (resolved ++ [seg]).
Proof. intros H2 H1. cbn [resolve]. rewrite H2, H1. reflexivity. Qed.

(** The query string of every request. *)
Lemma query_string_facts (channel_id : option str)
      (filters : option Filters.Filters) (sort_option : option SortOption) :
  forallb tame (urlencode (build_params channel_id filters sort_option)) = true
  /\ nonempty (urlencode (build_params channel_id filters sort_option)) = true.
Proof.
  split; [apply UrlFacts.urlencode_tame|].
  rewrite UrlFacts.build_params_supplied. unfold supplied.
  cbn [given app]. apply UrlFacts.urlencode_nonempty.
Qed.

(** X21.  For a query that is not empty, has no slash and is not one of
    the dot segments, the URL of a request is the base URL, the escaped
    query, the segment 1, the page number and the encoded parameters. *)
Theorem search_url_of_a_plain_query
  (query : str) (channel_id : option str) (filters : option Filters.Filters)
  (sort_option : option SortOption) (page_id : Z) :
  query <> [] -> without "/"%char query = true ->
  query <> lit "." -> query <> lit ".." ->
  _build_search_url query channel_id filters sort_option page_id
  = Some (BASE_URL ++ quote query (lit "/") ++ lit "/1/" ++ str_of_Z page_id
            ++ lit "?"
            ++ urlencode (build_params channel_id filters sort_option)).
Proof.
  intros Hne Hsl Hd1 Hd2. unfold _build_search_url.
  destruct (query_string_facts channel_id filters sort_option) as [HQ HQne].
  set (Q := urlencode (build_params channel_id filters sort_option)) in *.
  pose proof (UrlFacts.quote_tame query) as Ha.
  pose proof (quote_nonempty query Hne) as Hane.
  pose proof (quote_without_slash query Hsl) as Hasl.
  assert (Ha1 : str_eqb (quote query (lit "/")) (lit ".") = false).
  { apply TextFacts.str_eqb_neq. intros E. apply Hd1. apply quote_dot. exact E. }
  assert (Ha2 : str_eqb (quote query (lit "/")) (lit "..") = false).
  { apply TextFacts.str_eqb_neq. intros E. apply Hd2. apply quote_dots. exact E. }
  set (a := quote query (lit "/")) in *.
  pose proof (UrlFacts.str_of_Z_tame page_id) as Hp.
  pose proof (str_of_Z_without_slash page_id) as Hpsl.
  destruct (str_of_Z_not_dots page_id) as [Hp2 Hp1].
  set (pg := str_of_Z page_id) in *.
  clearbody a pg Q.
  destruct a as [|c a']; [discriminate Hane|].
  assert (Hc : Ascii.eqb "/"%char c = false).
  { unfold without in Hasl. cbn [forallb] in Hasl. apply andb_prop in Hasl.
    destruct Hasl as [Hc _]. apply negb_true_iff in Hc.
    rewrite Ascii.eqb_sym. exact Hc. }
  (* the relative reference *)
  assert (Esub : posixpath_join (c :: a') (lit "1/" ++ pg ++ lit "?" ++ Q)
                 = join ["/"%char] [c :: a'; lit "1"; pg] ++ "?"%char :: Q).
  { unfold posixpath_join.
    change (startswith (lit "1/" ++ pg ++ lit "?" ++ Q) (lit "/")) with false.
    cbv iota.
    assert (Hr : forallb (fun x => negb (Ascii.eqb x "/"%char))
                         (rev (c :: a')) = true)
      by (rewrite UrlFacts.forallb_rev; exact Hasl).
    destruct (rev (c :: a')) as [|l r] eqn:Er.
    - apply (f_equal (@length ascii)) in Er. rewrite length_rev in Er.
      discriminate Er.
    - cbn [forallb] in Hr. apply andb_prop in Hr. destruct Hr as [Hl _].
      apply negb_true_iff in Hl. rewrite Hl. cbn [join].
      repeat rewrite <- app_assoc. reflexivity. }
  rewrite Esub.
  set (P := join ["/"%char] [c :: a'; lit "1"; pg]).
  assert (HP : forallb tame P = true).
  { unfold P. cbn [join]. rewrite !forallb_app, Ha, Hp. reflexivity. }
  assert (HPs : startswith (P ++ "?"%char :: Q) (lit "//") = false).
  { unfold P. cbn [join app lit list_ascii_of_string startswith].
    rewrite Hc. reflexivity. }
  assert (HPs1 : startswith P (lit "/") = false).
  { unfold P. cbn [join app lit list_ascii_of_string startswith].
    rewrite Hc. reflexivity. }
  assert (Esplit : split_on "/"%char P = [c :: a'; lit "1"; pg]).
  { unfold P. apply UrlFacts.split_on_join. cbn [forallb].
    fold (without "/"%char (c :: a')). fold (without "/"%char pg).
    rewrite Hasl, Hpsl. reflexivity. }
  unfold urljoin. change (nonempty BASE_URL) with true. cbn [negb].
  replace (nonempty (P ++ "?"%char :: Q)) with true
    by (unfold P; reflexivity).
  cbn [negb]. rewrite UrlFacts.base_parsed.
  cbn [p_scheme p_netloc p_path p_params p_query p_fragment].
  rewrite (urlparse_relative P Q HP HQ HPs).
  cbn [p_scheme p_netloc p_path p_params p_query p_fragment].
  change (str_eqb (lit "https") (lit "https")) with true.
  change (in_list (lit "https") uses_relative) with true.
  change (in_list (lit "https") uses_netloc) with true.
  cbn [negb orb andb nonempty].
  replace (nonempty P) with true by (unfold P; reflexivity).
  cbn [negb andb]. rewrite HPs1, Esplit.
  change (split_on "/"%char (lit "/search/")) with [[]; lit "search"; []].
  change (drop_empty_inner
            ((if nonempty (last [[]; lit "search"; []] [])
              then removelast [[]; lit "search"; []]
              else [[]; lit "search"; []]) ++ [c :: a'; lit "1"; pg]))
    with [[]; lit "search"; c :: a'; lit "1"; pg].
  rewrite !resolve_keep by (reflexivity || assumption).
  cbn [resolve app last].
  unfold in_list. cbn [existsb]. rewrite Hp1, Hp2. cbn [orb].
  change (nonempty (join (lit "/") [[]; lit "search"; c :: a'; lit "1"; pg]))
    with true. cbv iota.
  rewrite (UrlFacts.urlunparse_https (lit "filmot.com") _ Q eq_refl HQne).
  change (startswith
            (join (lit "/") [[]; lit "search"; c :: a'; lit "1"; pg])
            (lit "/")) with true.
  cbn [negb andb nonempty]. rewrite andb_false_r.
  f_equal. unfold BASE_URL. cbn [join].
  repeat rewrite <- app_assoc. reflexivity.
Qed.

Lemma search_url_of_a_plain_query_witness :
  _build_search_url (lit "hello world") None None None 2
  = Some (lit "https://filmot.com/search/hello%20world/1/2?gridView=1").
Proof.
  rewrite (search_url_of_a_plain_query (lit "hello world") None None None 2);
    [reflexivity|discriminate|reflexivity|discriminate|discriminate].
Defined.

(** ** A query that begins with two slashes *)

Lemma splitnetloc_host (a rest : str) :
  forallb tame a = true -> without "/"%char a = true ->
  splitnetloc (a ++ "/"%char :: rest) = (a, "/"%char :: rest).
Proof.
  unfold without. induction a as [|c a IH]; intros Ht Hs; [reflexivity|].
  cbn [forallb] in Ht, Hs. apply andb_prop in Ht. destruct Ht as [Hc Ht].
  apply andb_prop in Hs. destruct Hs as [Hcs Hs].
  apply negb_true_iff in Hcs.
  destruct (UrlFacts.tame_facts c Hc) as (_ & _ & H3 & H4 & _).
  cbn [app splitnetloc]. unfold mem at 1.
  cbn [lit list_ascii_of_string existsb]. rewrite Hcs, H3, H4.
  cbn [orb]. rewrite (IH Ht Hs). reflexivity.
Qed.

(** X22.  A query that begins with two slashes sends the request to
    another host: the text between the two slashes and the next slash, here
    the whole rest of the query, becomes the network location of the URL in
    place of filmot.com, and the path is only the segment 1 and the page
    number. *)
Theorem search_url_of_a_query_with_two_slashes
  (host : str) (channel_id : option str) (filters : option Filters.Filters)
  (sort_option : option SortOption) (page_id : Z) :
  host <> [] -> without "/"%char host = true ->
  _build_search_url (lit "//" ++ host) channel_id filters sort_option page_id
  = Some (lit "https://" ++ quote host (lit "/") ++ lit "/1/"
            ++ str_of_Z page_id ++ lit "?"
            ++ urlencode (build_params channel_id filters sort_option)).
Proof.
  intros Hne Hsl. unfold _build_search_url.
  destruct (query_string_facts channel_id filters sort_option) as [HQ HQne].
  set (Q := urlencode (build_params channel_id filters sort_option)) in *.
  assert (Eq : quote (lit "//" ++ host) (lit "/")
               = lit "//" ++ quote host (lit "/")).
  { rewrite !quote_pieces. reflexivity. }
  rewrite Eq.
  pose proof (UrlFacts.quote_tame host) as Ha.
  pose proof (quote_nonempty host Hne) as Hane.
  pose proof (quote_without_slash host Hsl) as Hasl.
  set (a := quote host (lit "/")) in *.
  pose proof (UrlFacts.str_of_Z_tame page_id) as Hp.
  set (pg := str_of_Z page_id) in *.
  clearbody a pg Q.
  assert (Esub : posixpath_join (lit "//" ++ a)
                   (lit "1/" ++ pg ++ lit "?" ++ Q)
                 = (lit "//" ++ a ++ lit "/1/" ++ pg) ++ "?"%char :: Q).
  { unfold posixpath_join.
    change (startswith (lit "1/" ++ pg ++ lit "?" ++ Q) (lit "/")) with false.
    cbv iota.
    assert (Hr : forallb (fun x => negb (Ascii.eqb x "/"%char)) (rev a) = true)
      by (rewrite UrlFacts.forallb_rev; exact Hasl).
    change (lit "//" ++ a) with ([ "/"%char; "/"%char ] ++ a).
    rewrite rev_app_distr.
    destruct (rev a) as [|l r] eqn:Er.
    - apply (f_equal (@length ascii)) in Er. rewrite length_rev in Er.
      destruct a; [discriminate Hane|discriminate Er].
    - cbn [forallb] in Hr. apply andb_prop in Hr. destruct Hr as [Hl _].
      apply negb_true_iff in Hl. cbn [app]. rewrite Hl.
      repeat rewrite <- app_assoc. reflexivity. }
  rewrite Esub.
  set (p := lit "/1/" ++ pg).
  assert (Hp' : forallb tame p = true).
  { unfold p. rewrite forallb_app, Hp. reflexivity. }
  assert (Eparse : urlparse ((lit "//" ++ a ++ p) ++ "?"%char :: Q)
                             (lit "https")
                   = Some (mkParse (lit "https") a p [] Q [])).
  { unfold urlparse, urlsplit.
    assert (HX : forallb tame (lit "//" ++ a ++ p) = true).
    { rewrite !forallb_app, Ha, Hp'. reflexivity. }
    assert (HT : forallb visible ((lit "//" ++ a ++ p) ++ "?"%char :: Q)
                 = true).
    { rewrite forallb_app. cbn [forallb].
      rewrite (UrlFacts.tame_visible _ HX), (UrlFacts.tame_visible Q HQ).
      reflexivity. }
    rewrite (UrlFacts.clean_url_visible _ HT).
    rewrite UrlFacts.split_first_absent.
    2:{ rewrite forallb_app. cbn [forallb].
        rewrite (UrlFacts.tame_without ":"%char _ eq_refl HX),
                (UrlFacts.tame_without ":"%char Q eq_refl HQ).
        reflexivity. }
    change (startswith ((lit "//" ++ a ++ p) ++ "?"%char :: Q) (lit "//"))
      with true.
    cbv iota.
    change (skipn 2 ((lit "//" ++ a ++ p) ++ "?"%char :: Q))
      with ((a ++ p) ++ "?"%char :: Q).
    replace ((a ++ p) ++ "?"%char :: Q)
      with (a ++ "/"%char :: (lit "1/" ++ pg) ++ "?"%char :: Q)
      by (unfold p; repeat rewrite <- app_assoc; reflexivity).
    rewrite (splitnetloc_host a _ Ha Hasl).
    change ("/"%char :: (lit "1/" ++ pg) ++ "?"%char :: Q)
      with (p ++ "?"%char :: Q).
    rewrite (UrlFacts.urlsplit_tail (lit "https") a p Q Ha Hp' HQ).
    cbn [scheme netloc path query fragment].
    rewrite (UrlFacts.tame_no_semicolon p Hp'), andb_false_r. reflexivity. }
  unfold urljoin. change (nonempty BASE_URL) with true. cbn [negb].
  change (nonempty ((lit "//" ++ a ++ p) ++ "?"%char :: Q)) with true.
  cbn [negb]. rewrite UrlFacts.base_parsed.
  cbn [p_scheme p_netloc p_path p_params p_query p_fragment].
  rewrite Eparse.
  cbn [p_scheme p_netloc p_path p_params p_query p_fragment].
  change (str_eqb (lit "https") (lit "https")) with true.
  change (in_list (lit "https") uses_relative) with true.
  change (in_list (lit "https") uses_netloc) with true.
  cbn [negb orb andb]. rewrite Hane.
  rewrite (UrlFacts.urlunparse_https a p Q Hane HQne).
  change (nonempty p && negb (startswith p (lit "/"))) with false.
  cbv iota. f_equal. unfold p.
  repeat rewrite <- app_assoc. reflexivity.
Qed.

Lemma search_url_of_a_query_with_two_slashes_witness :
  _build_search_url (lit "//example.org") None None None 1
  = Some (lit "https://example.org/1/1?gridView=1").
Proof.
  change (lit "//example.org") with (lit "//" ++ lit "example.org").
  rewrite (search_url_of_a_query_with_two_slashes (lit "example.org")
             None None None 1); [reflexivity|discriminate|reflexivity].
Defined.

End SearchUrlFacts.

(* ================================================================== *)
(** * More properties of channel.py *)
(* ================================================================== *)

Module ChannelMoreFacts.
Import Channel.

(** ** The slice the scan cuts out *)

Lemma scan_char_stops_at_brace (st st' : scanner) (c : ascii) :
  scan_char st c = (st', true) -> c = "}"%char.
Proof.
  unfold scan_char.
  destruct (in_string st).
  - destruct (escape st); [intros H; inversion H|].
    destruct (Ascii.eqb c backslash); [intros H; inversion H|].
    destruct (str_eqb [c] (string_char st)); intros H; inversion H.
  - destruct (is_quote c); [intros H; inversion H|].
    destruct (Ascii.eqb c "{"%char); [intros H; inversion H|].
    destruct (Ascii.eqb c "}"%char) eqn:E; [|intros H; inversion H].
    intros _. apply Ascii.eqb_eq. exact E.
Qed.

Lemma scan_loop_span (t : str) :
  forall i st e,
    scan_loop t i st e = e
    \/ exists k, scan_loop t i st e = S (i + k)
                 /\ nth_error t k = Some "}"%char.
Proof.
  induction t as [|c t IH]; intros i st e; [left; reflexivity|].
  cbn [scan_loop]. destruct (scan_char st c) as [st' stop] eqn:E.
  destruct stop.
  - right. exists 0. split; [f_equal; lia|].
    apply scan_char_stops_at_brace in E. subst c. reflexivity.
  - destruct (IH (S i) st' e) as [H|[k [H1 H2]]]; [left; exact H|].
    right. exists (S k). split; [rewrite H1; f_equal; lia|exact H2].
Qed.

Lemma firstn_S_nth {A} (l : list A) (k : nat) (x : A) :
  nth_error l k = Some x -> firstn (S k) l = firstn k l ++ [x].
Proof.
  revert k. induction l as [|y l IH]; intros [|k] H; try discriminate H.
  - inversion H. reflexivity.
  - cbn [nth_error] in H. change (firstn (S (S k)) (y :: l))
      with (y :: firstn (S k) l).
    rewrite (IH k H). reflexivity.
Qed.

Section Extraction.

Variable json_loads : str -> result json.

(** X23.  On every page, [extract_yt_initial_data] either raises the
    [ValueError] for a page without assignment, or hands to [json.loads] a
    slice of the page that starts at the brace of the leftmost assignment and
    returns or raises what the decoder does.  The slice is empty when no
    closing brace ends the scan, and otherwise begins with the opening brace
    and ends with a closing brace. *)
Theorem extract_decodes_a_braced_slice (html : str) :
  (re_search html = None
   /\ extract_yt_initial_data json_loads html
      = Raise (ValueError (lit "ytInitialData not found in HTML")))
  \/ exists pre h rest json_text,
       Assignment.occurs html pre h rest
       /\ Assignment.leftmost html pre
       /\ extract_yt_initial_data json_loads html = json_loads json_text
       /\ (json_text = []
           \/ exists body rest',
                json_text = "{"%char :: body ++ ["}"%char]
                /\ "{"%char :: rest = json_text ++ rest').
Proof.
  unfold extract_yt_initial_data.
  destruct (re_search html) as [n|] eqn:E; [right|left; split; reflexivity].
  unfold re_search in E. apply ChannelFacts.search_from_some in E.
  destruct E as (pre & h & rest & Hocc & Hleft & Hn). cbn [Nat.add] in Hn.
  exists pre, h, rest. cbv zeta.
  assert (Hskip : skipn n html = "{"%char :: rest).
  { destruct Hocc as [_ Et]. rewrite Et, Hn, <- length_app, app_assoc.
    apply ChannelFacts.skipn_exact. }
  eexists. split; [exact Hocc|]. split; [exact Hleft|].
  split; [reflexivity|].
  unfold slice. rewrite Hskip.
  destruct (scan_loop_span ("{"%char :: rest) n scanner_init n)
    as [->|[k [-> Hk]]].
  - left. rewrite Nat.sub_diag. reflexivity.
  - right. replace (S (n + k) - n) with (S k) by lia.
    destruct k as [|k]; [discriminate Hk|]. cbn [nth_error] in Hk.
    exists (firstn k rest), (skipn (S k) rest).
    change (firstn (S (S k)) ("{"%char :: rest))
      with ("{"%char :: firstn (S k) rest).
    rewrite (firstn_S_nth rest k _ Hk). split; [reflexivity|].
    cbn [app]. f_equal. rewrite <- (firstn_S_nth rest k _ Hk).
    symmetry. apply firstn_skipn.
Qed.

(** X24.  The exceptions of [get_channel_id_from_html]: the [ValueError]
    of a page without assignment, an exception of the decoder, the
    [ValueError] for an identifier that is not found, or [TypeError] when a
    value on the path is not a dict.  A [KeyError] of a lookup never leaves
    the function. *)
Theorem get_channel_id_from_html_exceptions (html : str) (e : exn) :
  get_channel_id_from_html json_loads html = Raise e ->
  e = ValueError (lit "ytInitialData not found in HTML")
  \/ (exists json_text, json_loads json_text = Raise e)
  \/ e = ValueError (lit "Channel ID not found in initial data.")
  \/ e = TypeError.
Proof.
  unfold get_channel_id_from_html.
  destruct (extract_yt_initial_data json_loads html) as [data|e0] eqn:E.
  - cbn [bind]. intros H. right. right.
    assert (G : forall v k e', getitem v k = Raise e' ->
                  e' = KeyError k \/ e' = TypeError).
    { intros v k e' Hg. unfold getitem in Hg.
      destruct v; try (inversion Hg; right; reflexivity).
      destruct (dict_get items k); inversion Hg. left. reflexivity. }
    destruct (getitem data (lit "metadata")) as [m|e1] eqn:E1; cbn [bind] in H.
    + destruct (getitem m (lit "channelMetadataRenderer")) as [r|e2] eqn:E2;
        cbn [bind] in H.
      * destruct (getitem r (lit "externalId")) as [x|e3] eqn:E3;
          [discriminate H|].
        destruct (G _ _ _ E3) as [->| ->]; inversion H; auto.
      * destruct (G _ _ _ E2) as [->| ->]; inversion H; auto.
    + destruct (G _ _ _ E1) as [->| ->]; inversion H; auto.
  - cbn [bind]. intros H. inversion H; subst e0.
    unfold extract_yt_initial_data in E.
    destruct (re_search html); [|inversion E; left; reflexivity].
    right. left. eexists. exact E.
Qed.

End Extraction.

Lemma get_channel_id_from_html_exceptions_witness :
  TypeError = ValueError (lit "ytInitialData not found in HTML")
  \/ (exists json_text, JsonRef.loads json_text = Raise TypeError)
  \/ TypeError = ValueError (lit "Channel ID not found in initial data.")
  \/ TypeError = TypeError.
Proof.
  apply (get_channel_id_from_html_exceptions JsonRef.loads
           Pages.null_metadata_page TypeError).
  vm_compute. reflexivity.
Defined.

Section Accessor.

Variable json_loads : str -> result json.
Variable requests_get : nat -> str -> response.

#[local] Abbreviation channel_id := (channel_id json_loads requests_get).
#[local] Abbreviation get_channel_id :=
  (get_channel_id json_loads requests_get).
#[local] Abbreviation read_times := (read_times json_loads requests_get).

Lemma get_channel_id_world (url : str) (w : nat) :
  snd (get_channel_id url w) = S w.
Proof.
  unfold Channel.get_channel_id.
  destruct (negb (status_code (requests_get w url) =? 200)%Z); reflexivity.
Qed.

(** X25.  Neither a failure nor a result of [None] is kept: as long as the
    fetch of the stored URL raises, or finds [None] as the identifier, every
    read of [channel_id] issues a new request, gives that same outcome and
    leaves the handle unresolved. *)
Theorem channel_id_keeps_no_failure
  (self : Channel) (r : result json) (n w : nat) :
  _channel_id self = JNull ->
  r = Ok JNull \/ (exists e, r = Raise e) ->
  (forall w', fst (get_channel_id (channel_url self) w') = r) ->
  read_times n self w = (repeat r n, self, w + n).
Proof.
  intros Hnone Hr Hget. revert w.
  induction n as [|n IH]; intros w.
  - cbn. f_equal. lia.
  - cbn [Channel.read_times]. unfold Channel.channel_id at 1.
    rewrite Hnone. cbn [is_none].
    pose proof (Hget w) as H1. pose proof (get_channel_id_world (channel_url self) w) as H2.
    destruct (get_channel_id (channel_url self) w) as [r0 w0].
    cbn [fst snd] in H1, H2. subst r0 w0.
    assert (Hself : mkChannel (channel_url self) JNull = self).
    { destruct self as [u i]. cbn in Hnone. subst i. reflexivity. }
    destruct Hr as [->|[e ->]].
    + rewrite Hself, IH. cbn [repeat]. f_equal. lia.
    + rewrite IH. cbn [repeat]. f_equal. lia.
Qed.

End Accessor.

Lemma channel_id_keeps_no_failure_witness :
  read_times JsonRef.loads MorePages.null_id_server 3 Pages.handle 0
  = ([Ok JNull; Ok JNull; Ok JNull], Pages.handle, 3).
Proof.
  apply (channel_id_keeps_no_failure JsonRef.loads MorePages.null_id_server
           Pages.handle (Ok JNull) 3 0).
  - reflexivity.
  - left. reflexivity.
  - intros w'. vm_compute. reflexivity.
Defined.

End ChannelMoreFacts.
